(** * Appointment-booking chatbot backend: session and token lifecycle

    A shallow embedding of [backend/server.js] (the Express handlers for
    registration, login, chat-token issuance and the message proxy) over a
    relational store shaped by [postgres/init.sql], and of the edge routes
    of the frontend ([pages/api]) that forward to them.

    Conventions of the model
    - Instants are [Z] milliseconds since the epoch, read off one monotone
      clock by the process ([Date.now()], [new Date()]) and by the store
      ([NOW()], [CURRENT_TIMESTAMP]).  A TIMESTAMP column carries no zone:
      its value is represented by the instant the store reads it as.  A
      JavaScript [Date] bound to such a column is written by the driver as
      the wall time of the process's zone and read back in the store's
      zone; [zone_skew] is the difference between the two readings.
    - JavaScript strings are [string], one byte per character; request
      fields are either absent ([None], JavaScript [undefined]) or strings.
    - The store refuses a text parameter that holds the zero byte and a
      JSONB parameter that holds the escape of the zero character.
    - A handler is modelled from the point where Express dispatches to it:
      helmet, cors, the body parser, the rate limiter and the logging
      middleware stand in front and are left out, as is [console.log].
    - Each handler runs to completion on the world it is given; interleaving
      of requests is outside the model.
    - The libraries the server calls (jsonwebtoken, bcryptjs, Joi, the text
      of driver errors) are parameters gathered in [externals]. *)

From Stdlib Require Import ZArith List String Ascii Bool Lia Sorted.
Import ListNotations.
Open Scope string_scope.
Open Scope Z_scope.

(** ** Data model *)

Definition time := Z.

Inductive role := RoleUser | RoleAssistant.

(** One element of [conversation_log]: [{role, content, timestamp}].
    [content] is [None] when the value was [undefined] (the key is then
    dropped by [JSON.stringify]). *)
Record entry := {
  e_role : role;
  e_content : option string;
  e_timestamp : time
}.

(** *** What the store holds

    A text value of the store never holds the zero byte, and a JSONB value
    never holds the escape [\u0000]: the store refuses a parameter that
    does.  [text] and [jsonb_log] are the values it accepts. *)

Fixpoint has_nul (s : string) : bool :=
  match s with
  | EmptyString => false
  | String c r => Ascii.eqb c Ascii.zero || has_nul r
  end.

Record text := { chars : string; chars_ok : has_nul chars = false }.

Definition as_text (s : string) : option text :=
  match bool_dec (has_nul s) false with
  | left H => Some {| chars := s; chars_ok := H |}
  | right _ => None
  end.

Definition content_has_nul (c : option string) : bool :=
  match c with
  | Some s => has_nul s
  | None => false
  end.

(** Some string of the array holds the zero character. *)
Definition log_has_nul (log : list entry) : bool :=
  existsb (fun e => content_has_nul (e_content e)) log.

Record jsonb_log := {
  entries : list entry;
  entries_ok : log_has_nul entries = false
}.

Definition as_jsonb (log : list entry) : option jsonb_log :=
  match bool_dec (log_has_nul log) false with
  | left H => Some {| entries := log; entries_ok := H |}
  | right _ => None
  end.

(** Table [users]. *)
Record user_row := {
  u_id : Z;
  u_email_text : text;
  u_password_hash_text : text;
  u_first_name_text : option text;
  u_last_name_text : option text;
  u_phone_text : option text;
  u_created_at : time;
  u_updated_at : time
}.

(** The columns as the driver hands them to JavaScript. *)
Definition u_email (u : user_row) : string := chars (u_email_text u).

Definition u_password_hash (u : user_row) : string :=
  chars (u_password_hash_text u).

Definition u_first_name (u : user_row) : option string :=
  option_map chars (u_first_name_text u).

Definition u_last_name (u : user_row) : option string :=
  option_map chars (u_last_name_text u).

Definition u_phone (u : user_row) : option string :=
  option_map chars (u_phone_text u).

(** Table [appointments]; no handler of the backend reads or writes it. *)
Record appointment_row := {
  a_id : Z;
  a_user_id : option Z;
  a_scheduled_datetime : time;
  a_duration_minutes : Z;
  a_status : string;
  a_service_type : option string;
  a_notes : option string
}.

(** Table [chat_sessions].  [conversation_log] is a nullable JSONB column;
    the backend only ever stores arrays of entries in it. *)
Record session_row := {
  s_id : Z;
  s_user_id : option Z;
  s_session_token_text : text;
  s_conversation_log_jsonb : option jsonb_log;
  s_created_at : time;
  s_updated_at : time;
  s_expires_at : time
}.

Definition s_session_token (s : session_row) : string :=
  chars (s_session_token_text s).

Definition s_conversation_log (s : session_row) : option (list entry) :=
  option_map entries (s_conversation_log_jsonb s).

Record store := {
  users : list user_row;
  appointments : list appointment_row;
  chat_sessions : list session_row
}.

(** The projection [RETURNING id, email, first_name, last_name], also the
    [user] object of the login response. *)
Record public_user := {
  p_id : Z;
  p_email : string;
  p_first_name : option string;
  p_last_name : option string
}.

(** ** The store: the statements the backend issues *)

Inductive db_error :=
| ValueTooLong (width : nat)
| UniqueViolation (constraint : string)
| ForeignKeyViolation (constraint : string)
| InvalidByteSequence
| UnsupportedUnicodeEscape.

(** A text parameter: one holding the zero byte is refused
    (invalid byte sequence 0x00). *)
Definition text_param (s : string) : db_error + text :=
  match as_text s with
  | Some t => inr t
  | None => inl InvalidByteSequence
  end.

(** A JSONB parameter: one holding [\u0000] in a string is refused
    (unsupported Unicode escape sequence). *)
Definition jsonb_param (log : list entry) : db_error + jsonb_log :=
  match as_jsonb log with
  | Some j => inr j
  | None => inl UnsupportedUnicodeEscape
  end.

Fixpoint all_spaces (s : string) : bool :=
  match s with
  | EmptyString => true
  | String c r => Ascii.eqb c " "%char && all_spaces r
  end.

Fixpoint str_take (n : nat) (s : string) : string :=
  match n, s with
  | S k, String c r => String c (str_take k r)
  | _, _ => EmptyString
  end.

Fixpoint str_drop (n : nat) (s : string) : string :=
  match n, s with
  | S k, String _ r => str_drop k r
  | _, _ => s
  end.

(** Assignment to a [VARCHAR(n)] column: a longer value is an error unless
    the excess is all spaces, in which case it is cut to [n] characters. *)
Definition varchar (n : nat) (s : string) : db_error + string :=
  if (String.length s <=? n)%nat then inr s
  else if all_spaces (str_drop n s) then inr (str_take n s)
  else inl (ValueTooLong n).

(** A parameter bound for a [VARCHAR(n)] column: read as text first, then
    fitted to the column. *)
Definition varchar_param (n : nat) (s : string) : db_error + text :=
  match text_param s with
  | inl e => inl e
  | inr t =>
    match varchar n (chars t) with
    | inl e => inl e
    | inr s' => text_param s'
    end
  end.

(** [SERIAL]: the next id lies above every id of the table. *)
Definition next_id (ids : list Z) : Z := fold_right Z.max 0 ids + 1.

Definition user_public (u : user_row) : public_user :=
  {| p_id := u_id u; p_email := u_email u;
     p_first_name := u_first_name u; p_last_name := u_last_name u |}.

(** [SELECT id FROM users WHERE email = $1] *)
Definition select_user_id_by_email (email : string) (st : store) : list Z :=
  map u_id (filter (fun u => String.eqb (u_email u) email) (users st)).

(** [SELECT * FROM users WHERE email = $1] *)
Definition select_user_by_email (email : string) (st : store) : list user_row :=
  filter (fun u => String.eqb (u_email u) email) (users st).

(** The two SELECTs as [pool.query] runs them: the parameter is bound
    first. *)
Definition query_user_id_by_email (email : string) (st : store)
    : db_error + (list Z * store) :=
  match text_param email with
  | inl e => inl e
  | inr _ => inr (select_user_id_by_email email st, st)
  end.

Definition query_user_by_email (email : string) (st : store)
    : db_error + (list user_row * store) :=
  match text_param email with
  | inl e => inl e
  | inr _ => inr (select_user_by_email email st, st)
  end.

(** [INSERT INTO users (email, password_hash, first_name, last_name)
     VALUES ($1, $2, $3, $4) RETURNING id, email, first_name, last_name] *)
Definition insert_user (email hash first_name last_name : string)
    (now : time) (st : store) : db_error + (list public_user * store) :=
  match text_param hash with
  | inl e => inl e
  | inr hash' =>
    match varchar_param 255 email with
    | inl e => inl e
    | inr email' =>
      match varchar_param 100 first_name with
      | inl e => inl e
      | inr first' =>
        match varchar_param 100 last_name with
        | inl e => inl e
        | inr last' =>
          if existsb (fun u => String.eqb (u_email u) (chars email'))
                     (users st)
          then inl (UniqueViolation "users_email_key")
          else
            let row := {| u_id := next_id (map u_id (users st));
                          u_email_text := email';
                          u_password_hash_text := hash';
                          u_first_name_text := Some first';
                          u_last_name_text := Some last';
                          u_phone_text := None;
                          u_created_at := now;
                          u_updated_at := now |} in
            inr ([user_public row],
                 {| users := users st ++ [row];
                    appointments := appointments st;
                    chat_sessions := chat_sessions st |})
        end
      end
    end
  end.

Definition token_matches (token : string) (s : session_row) : bool :=
  String.eqb (s_session_token s) token.

Definition touch_session (now : time) (s : session_row) : session_row :=
  {| s_id := s_id s; s_user_id := s_user_id s;
     s_session_token_text := s_session_token_text s;
     s_conversation_log_jsonb := s_conversation_log_jsonb s;
     s_created_at := s_created_at s;
     s_updated_at := now;
     s_expires_at := s_expires_at s |}.

(** [user_id INTEGER REFERENCES users(id)]: a null reference is allowed. *)
Definition references_user (st : store) (user_id : option Z) : bool :=
  match user_id with
  | None => true
  | Some i => existsb (fun u => Z.eqb (u_id u) i) (users st)
  end.

(** [INSERT INTO chat_sessions (user_id, session_token, conversation_log,
     expires_at) VALUES ($1, $2, $3, $4)
     ON CONFLICT (session_token) DO UPDATE SET updated_at = NOW()].
    [expires] is the instant the store takes the fourth parameter for. *)
Definition upsert_session (user_id : option Z) (token : string)
    (log : list entry) (expires : time)
    (now : time) (st : store) : db_error + store :=
  match jsonb_param log with
  | inl e => inl e
  | inr log' =>
    match varchar_param 255 token with
    | inl e => inl e
    | inr token' =>
      if existsb (token_matches (chars token')) (chat_sessions st) then
        inr {| users := users st;
               appointments := appointments st;
               chat_sessions :=
                 map (fun s => if token_matches (chars token') s
                               then touch_session now s else s)
                     (chat_sessions st) |}
      else if references_user st user_id then
        let row := {| s_id := next_id (map s_id (chat_sessions st));
                      s_user_id := user_id;
                      s_session_token_text := token';
                      s_conversation_log_jsonb := Some log';
                      s_created_at := now;
                      s_updated_at := now;
                      s_expires_at := expires |} in
        inr {| users := users st;
               appointments := appointments st;
               chat_sessions := chat_sessions st ++ [row] |}
      else inl (ForeignKeyViolation "chat_sessions_user_id_fkey")
    end
  end.

(** [SELECT * FROM chat_sessions
     WHERE session_token = $1 AND expires_at > NOW()] *)
Definition select_valid_session (token : string) (now : time) (st : store)
    : list session_row :=
  filter (fun s => token_matches token s && (now <? s_expires_at s))
         (chat_sessions st).

Definition query_valid_session (token : string) (now : time) (st : store)
    : db_error + (list session_row * store) :=
  match text_param token with
  | inl e => inl e
  | inr _ => inr (select_valid_session token now st, st)
  end.

Definition set_log (log : jsonb_log) (s : session_row) : session_row :=
  {| s_id := s_id s; s_user_id := s_user_id s;
     s_session_token_text := s_session_token_text s;
     s_conversation_log_jsonb := Some log;
     s_created_at := s_created_at s;
     s_updated_at := s_updated_at s;
     s_expires_at := s_expires_at s |}.

(** [UPDATE chat_sessions SET conversation_log = $1
     WHERE session_token = $2] on parameters the store has accepted. *)
Definition update_conversation_log (log : jsonb_log) (token : string)
    (st : store) : store :=
  {| users := users st;
     appointments := appointments st;
     chat_sessions :=
       map (fun s => if token_matches token s then set_log log s else s)
           (chat_sessions st) |}.

Definition query_update_conversation_log (log : list entry) (token : string)
    (st : store) : db_error + (unit * store) :=
  match jsonb_param log with
  | inl e => inl e
  | inr log' =>
    match text_param token with
    | inl e => inl e
    | inr _ => inr (tt, update_conversation_log log' token st)
    end
  end.

(** ** Requests, responses and the outside world *)

(** The claims a token carries: [{id, email}] for the identity token of
    login, [{userId, type: 'chatbot'}] for the chat access token and
    [{userId, sessionId}] for the session token.  [userId] is [None] when the
    value signed was [undefined]. *)
Inductive jwt_payload :=
| IdentityClaims (id : Z) (email : string)
| ChatClaims (userId : option Z)
| SessionClaims (userId : option Z) (sessionId : time).

(** [req.user.id] *)
Definition payload_id (p : jwt_payload) : option Z :=
  match p with
  | IdentityClaims i _ => Some i
  | _ => None
  end.

(** The [userId] claim of a token issued by the session service. *)
Definition payload_userId (p : jwt_payload) : option Z :=
  match p with
  | IdentityClaims _ _ => None
  | ChatClaims u => u
  | SessionClaims u _ => u
  end.

(** What [axios.post] sends to the collaborator and what comes back. *)
Record chat_request := {
  cr_message : string;
  cr_user_id : option Z;
  cr_session_token : string
}.

Record reply := {
  response : option string;
  action : option string;
  appointment_details : option string
}.

(** [PyOk data]: a 2xx answer whose parsed body is [data] ([None] for a
    [null] body).  [PyFail message data]: the call rejected (network error,
    non-2xx status, timeout) with [pythonError.message] and
    [pythonError.response?.data]. *)
Inductive collab_outcome :=
| PyOk (data : option reply)
| PyFail (message : string) (response_data : option string).

Record js_error := { err_message : string; err_stack : string }.

Inductive joi_error :=
| AnyRequired (key : string)
| StringEmpty (key : string)
| StringEmail (key : string)
| StringMin (key : string) (limit : nat)
| ObjectUnknown (key : string).

Inductive json_body :=
| BError (error : string) (details : option string)
| BRegistered (message : string) (user : option public_user)
| BLogin (token : string) (user : public_user)
| BTokens (chatToken sessionToken : string)
| BPassthrough (data : reply).

Record http_response := { status : Z; body : json_body }.

Inductive sql :=
| SelectUserIdByEmail (email : string)
| InsertUser (email hash first_name last_name : string)
| SelectUserByEmail (email : string)
| UpsertSession (user_id : option Z) (token : string) (log : list entry)
                (expires : time)
| SelectValidSession (token : string)
| UpdateConversationLog (log : list entry) (token : string).

Definition is_write (q : sql) : bool :=
  match q with
  | InsertUser _ _ _ _ | UpsertSession _ _ _ _ | UpdateConversationLog _ _ => true
  | _ => false
  end.

(** What leaves the process: statements sent to the pool and HTTP calls. *)
Inductive event :=
| EvQuery (q : sql)
| EvHttpPost (url : string) (payload : chat_request) (timeout : Z).

Definition is_write_event (e : event) : bool :=
  match e with EvQuery q => is_write q | _ => false end.

Definition is_http_event (e : event) : bool :=
  match e with EvHttpPost _ _ _ => true | _ => false end.

(** [process.env] *)
Record config := {
  JWT_SECRET : option string;
  NODE_ENV : option string
}.

(** The libraries behind [require]. *)
Record externals := {
  jwt_sign : jwt_payload -> string -> Z -> time -> string;
  jwt_verify : string -> string -> time -> option jwt_payload;
  bcrypt_hash : string -> string -> string;
  bcrypt_compare : string -> string -> bool;
  email_ok : string -> bool;
  joi_message : joi_error -> string;
  pg_error : db_error -> js_error;
  null_property_error : js_error
}.

(** The world a handler runs in.  [delays] is the time that passes before
    each successive reading of the clock.  [zone_skew d] is how far from
    the [Date] [d] the store reads the timestamp that the driver writes for
    it: the offset of the process's zone at [d] less that of the store's
    session zone (zero when both run in one zone). *)
Record world := {
  db : store;
  clock : time;
  delays : list N;
  trace : list event;
  zone_skew : time -> Z
}.

(** ** The handler monad: state, early response, exception *)

Inductive outcome (A : Type) :=
| Next (a : A)
| Done (r : http_response)
| Throw (e : js_error).
Arguments Next {A} a.
Arguments Done {A} r.
Arguments Throw {A} e.

Definition Handler (A : Type) := world -> outcome A * world.

Definition ret {A} (a : A) : Handler A := fun w => (Next a, w).

Definition bind {A B} (m : Handler A) (k : A -> Handler B) : Handler B :=
  fun w =>
    match m w with
    | (Next a, w') => k a w'
    | (Done r, w') => (Done r, w')
    | (Throw e, w') => (Throw e, w')
    end.

Notation "x <- m ;; k" := (bind m (fun x => k))
  (at level 61, m at next level, right associativity).

(** [return res.status(code).json(body)] *)
Definition respond {A} (code : Z) (b : json_body) : Handler A :=
  fun w => (Done {| status := code; body := b |}, w).

Definition throw {A} (e : js_error) : Handler A := fun w => (Throw e, w).

(** [try { body } catch (error) { res.status(..).json(..) }] *)
Definition try_catch (m : Handler Empty_set)
    (on_error : js_error -> http_response)
    (w : world) : http_response * world :=
  match m w with
  | (Next v, _) => match v with end
  | (Done r, w') => (r, w')
  | (Throw e, w') => (on_error e, w')
  end.

(** Time passes: the next delay is added to the clock. *)
Definition tick (w : world) : world :=
  {| db := db w;
     clock := clock w + Z.of_N (hd 0%N (delays w));
     delays := tl (delays w);
     trace := trace w;
     zone_skew := zone_skew w |}.

(** [Date.now()], [new Date()] in the process: time passes, then the clock
    is read. *)
Definition Date_now : Handler time :=
  fun w => (Next (clock (tick w)), tick w).

(** [NOW()], [CURRENT_TIMESTAMP] in the store: time passes, then the clock
    is read. *)
Definition NOW : Handler time :=
  fun w => (Next (clock (tick w)), tick w).

(** A [Date] bound as the parameter of a TIMESTAMP column: the instant the
    store reads the written wall time as. *)
Definition timestamp_param (d : time) : Handler time :=
  fun w => (Next (d + zone_skew w d), w).

Definition emit (e : event) : Handler unit :=
  fun w => (Next tt, {| db := db w; clock := clock w; delays := delays w;
                        trace := trace w ++ [e];
                        zone_skew := zone_skew w |}).

Definition get_db : Handler store := fun w => (Next (db w), w).

Definition put_db (st : store) : Handler unit :=
  fun w => (Next tt, {| db := st; clock := clock w; delays := delays w;
                        trace := trace w; zone_skew := zone_skew w |}).

Section Server.

Variable X : externals.
Variable cfg : config.

(** [await pool.query(text, params)]: the statement [q] runs at the store's
    [NOW()]; a store error rejects the promise. *)
Definition pool_query {A} (q : sql)
    (run : time -> store -> db_error + (A * store)) : Handler A :=
  now <- NOW ;;
  _ <- emit (EvQuery q) ;;
  st <- get_db ;;
  match run now st with
  | inl e => throw (pg_error X e)
  | inr (a, st') => _ <- put_db st' ;; ret a
  end.

(** [a || b] on strings that may be absent. *)
Definition or_default (a : option string) (b : string) : string :=
  match a with
  | Some (String c r) => String c r
  | _ => b
  end.

(** [!v] is false exactly for a non-empty string. *)
Definition truthy (v : option string) : bool :=
  match v with
  | Some (String _ _) => true
  | _ => false
  end.

(** [process.env.JWT_SECRET || 'default_secret'] *)
Definition jwt_secret : string := or_default (JWT_SECRET cfg) "default_secret".

Definition development : bool :=
  match NODE_ENV cfg with
  | Some s => String.eqb s "development"
  | None => false
  end.

(** [s.split(' ')] *)
Fixpoint split_space (s : string) : list string :=
  match s with
  | EmptyString => [EmptyString]
  | String c r =>
    if Ascii.eqb c " "%char then EmptyString :: split_space r
    else match split_space r with
         | h :: t => String c h :: t
         | [] => [String c EmptyString]
         end
  end.

(** [authHeader && authHeader.split(' ')[1]] *)
Definition bearer_token (authHeader : option string) : option string :=
  match authHeader with
  | None => None
  | Some EmptyString => Some EmptyString
  | Some h => nth_error (split_space h) 1
  end.

(** [authenticateToken]: [if (!token)] answers 401, a token that does not
    verify answers 403, otherwise the verified claims become [req.user]. *)
Definition authenticateToken (authHeader : option string)
    : Handler jwt_payload :=
  match bearer_token authHeader with
  | Some (String c r) =>
    now <- Date_now ;;
    match jwt_verify X (String c r) jwt_secret now with
    | None => respond 403 (BError "Invalid or expired token" None)
    | Some user => ret user
    end
  | _ => respond 401 (BError "Access token required" None)
  end.

(** *** POST /api/auth/register *)

Record register_body := {
  rb_email : option string;
  rb_password : option string;
  rb_first_name : option string;
  rb_last_name : option string;
  rb_unknown : list string
}.

Record register_value := {
  rv_email : string;
  rv_password : string;
  rv_first_name : string;
  rv_last_name : string
}.

(** [Joi.string().required()] followed by the rule [rule] of the key. *)
Definition joi_string (key : string) (rule : string -> option joi_error)
    (v : option string) : joi_error + string :=
  match v with
  | None => inl (AnyRequired key)
  | Some EmptyString => inl (StringEmpty key)
  | Some s => match rule s with
              | Some e => inl e
              | None => inr s
              end
  end.

(** [userSchema.validate(req.body)]: keys in the order of the schema, the
    first error wins, keys outside the schema are refused. *)
Definition userSchema_validate (b : register_body)
    : joi_error + register_value :=
  match joi_string "email"
          (fun s => if email_ok X s then None else Some (StringEmail "email"))
          (rb_email b) with
  | inl e => inl e
  | inr email =>
    match joi_string "password"
            (fun s => if (6 <=? String.length s)%nat then None
                      else Some (StringMin "password" 6))
            (rb_password b) with
    | inl e => inl e
    | inr password =>
      match joi_string "first_name" (fun _ => None) (rb_first_name b) with
      | inl e => inl e
      | inr first_name =>
        match joi_string "last_name" (fun _ => None) (rb_last_name b) with
        | inl e => inl e
        | inr last_name =>
          match rb_unknown b with
          | k :: _ => inl (ObjectUnknown k)
          | [] => inr {| rv_email := email; rv_password := password;
                         rv_first_name := first_name;
                         rv_last_name := last_name |}
          end
        end
      end
    end
  end.

Definition internal_server_error (_ : js_error) : http_response :=
  {| status := 500; body := BError "Internal server error" None |}.

(** [salt] is what [bcrypt.genSalt(10)] resolves to. *)
Definition register_body_run (salt : string) (b : register_body)
    : Handler Empty_set :=
  match userSchema_validate b with
  | inl e => respond 400 (BError (joi_message X e) None)
  | inr value =>
    existingUser <- pool_query (SelectUserIdByEmail (rv_email value))
      (fun _ => query_user_id_by_email (rv_email value)) ;;
    if (0 <? Z.of_nat (List.length existingUser)) then
      respond 409 (BError "User already exists" None)
    else
      let hashedPassword := bcrypt_hash X (rv_password value) salt in
      result <- pool_query
        (InsertUser (rv_email value) hashedPassword
                    (rv_first_name value) (rv_last_name value))
        (insert_user (rv_email value) hashedPassword
                     (rv_first_name value) (rv_last_name value)) ;;
      respond 201 (BRegistered "User registered successfully"
                               (nth_error result 0))
  end.

Definition register (salt : string) (b : register_body)
    : world -> http_response * world :=
  try_catch (register_body_run salt b) internal_server_error.

(** *** POST /api/auth/login *)

Record login_body := {
  lb_email : option string;
  lb_password : option string
}.

Definition login_body_run (b : login_body) : Handler Empty_set :=
  if negb (truthy (lb_email b)) || negb (truthy (lb_password b)) then
    respond 400 (BError "Email and password required" None)
  else
    let email := or_default (lb_email b) "" in
    let password := or_default (lb_password b) "" in
    result <- pool_query (SelectUserByEmail email)
      (fun _ => query_user_by_email email) ;;
    match result with
    | [] => respond 401 (BError "Invalid credentials" None)
    | user :: _ =>
      if negb (bcrypt_compare X password (u_password_hash user)) then
        respond 401 (BError "Invalid credentials" None)
      else
        now <- Date_now ;;
        let token := jwt_sign X (IdentityClaims (u_id user) (u_email user))
                              jwt_secret 86400 now in
        respond 200 (BLogin token (user_public user))
    end.

Definition login (b : login_body) : world -> http_response * world :=
  try_catch (login_body_run b) internal_server_error.

(** *** GET /api/chatbot/token *)

Definition issueToken_body (user : jwt_payload) : Handler Empty_set :=
  let userId := payload_id user in
  t_chat <- Date_now ;;
  let chatToken := jwt_sign X (ChatClaims userId) jwt_secret 900 t_chat in
  sessionId <- Date_now ;;
  t_session <- Date_now ;;
  let sessionToken :=
    jwt_sign X (SessionClaims userId sessionId) jwt_secret 86400 t_session in
  t_expiry <- Date_now ;;
  let expires_at := t_expiry + 24 * 60 * 60 * 1000 in
  expires <- timestamp_param expires_at ;;
  _ <- pool_query (UpsertSession userId sessionToken [] expires_at)
         (fun now st =>
            match upsert_session userId sessionToken [] expires now st with
            | inl e => inl e
            | inr st' => inr (tt, st')
            end) ;;
  respond 200 (BTokens chatToken sessionToken).

Definition issueToken (user : jwt_payload) : world -> http_response * world :=
  try_catch (issueToken_body user)
    (fun error =>
       {| status := 500;
          body := BError ("Failed to generate chatbot token: "
                          ++ err_message error) None |}).

(** *** POST /api/chatbot/message *)

Record message_body := {
  mb_message : option string;
  mb_sessionToken : option string
}.

Definition chat_url : string := "http://localhost:5000/api/chat".

(** [await axios.post(url, payload, { timeout: 30000 })]; [py] is the
    collaborator. *)
Definition axios_post (py : chat_request -> collab_outcome)
    (payload : chat_request) : Handler collab_outcome :=
  _ <- emit (EvHttpPost chat_url payload 30000) ;;
  _ <- Date_now ;;
  ret (py payload).

(** [session.conversation_log || []] *)
Definition log_or_empty (s : session_row) : list entry :=
  match s_conversation_log s with
  | Some l => l
  | None => []
  end.

Definition sendMessage_body (py : chat_request -> collab_outcome)
    (user : jwt_payload) (b : message_body) : Handler Empty_set :=
  if negb (truthy (mb_message b)) || negb (truthy (mb_sessionToken b)) then
    respond 400 (BError "Message and session token required" None)
  else
    let message := or_default (mb_message b) "" in
    let sessionToken := or_default (mb_sessionToken b) "" in
    sessionResult <- pool_query (SelectValidSession sessionToken)
      (query_valid_session sessionToken) ;;
    match sessionResult with
    | [] => respond 400 (BError "Invalid or expired session" None)
    | session :: _ =>
      pythonResponse <- axios_post py
        {| cr_message := message; cr_user_id := payload_id user;
           cr_session_token := sessionToken |} ;;
      match pythonResponse with
      | PyFail msg response_data =>
        respond 500
          (BError ("Python service error: " ++ msg)
                  (if development then response_data else None))
      | PyOk data =>
        let conversationLog := log_or_empty session in
        t_user <- Date_now ;;
        match data with
        | None => throw (null_property_error X)
        | Some d =>
          t_assistant <- Date_now ;;
          let updatedLog :=
            (conversationLog ++
             [ {| e_role := RoleUser; e_content := Some message;
                  e_timestamp := t_user |};
               {| e_role := RoleAssistant; e_content := response d;
                  e_timestamp := t_assistant |} ])%list in
          _ <- pool_query (UpdateConversationLog updatedLog sessionToken)
                 (fun _ => query_update_conversation_log updatedLog
                                                         sessionToken) ;;
          respond 200 (BPassthrough d)
        end
      end
    end.

Definition sendMessage (py : chat_request -> collab_outcome)
    (user : jwt_payload) (b : message_body)
    : world -> http_response * world :=
  try_catch (sendMessage_body py user b)
    (fun error =>
       {| status := 500;
          body := BError ("Failed to process chat message: "
                          ++ err_message error)
                         (if development then Some (err_stack error)
                          else None) |}).

(** [app.get(path, authenticateToken, handler)] *)
Definition protected (authHeader : option string)
    (handler : jwt_payload -> world -> http_response * world)
    (w : world) : http_response * world :=
  match authenticateToken authHeader w with
  | (Next user, w') => handler user w'
  | (Done r, w') => (r, w')
  | (Throw e, w') => (internal_server_error e, w')
  end.

Definition route_token (authHeader : option string) :=
  protected authHeader issueToken.

Definition route_message (py : chat_request -> collab_outcome)
    (authHeader : option string) (b : message_body) :=
  protected authHeader (fun user => sendMessage py user b).

End Server.

(** ** Vocabulary of the specification *)

Definition with_trace (w : world) (t : list event) : world :=
  {| db := db w; clock := clock w; delays := delays w; trace := t;
     zone_skew := zone_skew w |}.

Definition with_db (w : world) (st : store) : world :=
  {| db := st; clock := clock w; delays := delays w; trace := trace w;
     zone_skew := zone_skew w |}.

Definition mk_message (message sessionToken : string) : message_body :=
  {| mb_message := Some message; mb_sessionToken := Some sessionToken |}.

Definition mk_login (email password : string) : login_body :=
  {| lb_email := Some email; lb_password := Some password |}.

Definition forwarded (user : jwt_payload) (message token : string)
    : chat_request :=
  {| cr_message := message; cr_user_id := payload_id user;
     cr_session_token := token |}.

Definition invalid_session_response : http_response :=
  {| status := 400; body := BError "Invalid or expired session" None |}.

Definition invalid_credentials : http_response :=
  {| status := 401; body := BError "Invalid credentials" None |}.

Definition registered (email : string) (st : store) : Prop :=
  exists u, In u (users st) /\ u_email u = email.

(** Some row carries [token] and has not expired at [now]. *)
Definition valid_session (token : string) (now : time) (st : store) : Prop :=
  exists s, In s (chat_sessions st) /\
            s_session_token s = token /\ now < s_expires_at s.

(** No row of [chat_sessions] carries [token] with an expiry after [now]. *)
Definition no_valid_session (token : string) (now : time) (st : store) : Prop :=
  forall s, In s (chat_sessions st) ->
            s_session_token s = token -> s_expires_at s <= now.

(** [token] was never issued: no row carries it. *)
Definition never_existed (token : string) (st : store) : Prop :=
  forall s, In s (chat_sessions st) -> s_session_token s <> token.

(** [token] was issued and every row carrying it has expired by [now]. *)
Definition has_expired (token : string) (now : time) (st : store) : Prop :=
  (exists s, In s (chat_sessions st) /\ s_session_token s = token) /\
  no_valid_session token now st.

(** The uniqueness constraints of the schema: [session_token UNIQUE] and
    [email UNIQUE]. *)
Definition store_wf (st : store) : Prop :=
  NoDup (map s_session_token (chat_sessions st)) /\
  NoDup (map u_email (users st)).

(** The transcript stored under [token] (empty when the column is null or
    no row carries the token). *)
Definition transcript (token : string) (st : store) : list entry :=
  match find (token_matches token) (chat_sessions st) with
  | Some s => log_or_empty s
  | None => []
  end.

(** Two session rows that agree on every column but [conversation_log]. *)
Definition same_but_log (r r' : session_row) : Prop :=
  s_id r' = s_id r /\ s_user_id r' = s_user_id r /\
  s_session_token r' = s_session_token r /\
  s_created_at r' = s_created_at r /\ s_updated_at r' = s_updated_at r /\
  s_expires_at r' = s_expires_at r.

(** Two session rows that agree on every column but [updated_at]. *)
Definition same_but_updated_at (r r' : session_row) : Prop :=
  s_id r' = s_id r /\ s_user_id r' = s_user_id r /\
  s_session_token r' = s_session_token r /\
  s_conversation_log r' = s_conversation_log r /\
  s_created_at r' = s_created_at r /\ s_expires_at r' = s_expires_at r.

Fixpoint has_space (s : string) : bool :=
  match s with
  | EmptyString => false
  | String c r => Ascii.eqb c " "%char || has_space r
  end.

Section Vocabulary.

Variable X : externals.
Variable cfg : config.

(** The input constraints of registration: a non-empty email that the email
    rule accepts, a password of at least 6 characters, non-empty names. *)
Definition valid_registration (b : register_body) : Prop :=
  exists e p f l,
    rb_email b = Some e /\ e <> "" /\ email_ok X e = true /\
    rb_password b = Some p /\ (6 <= String.length p)%nat /\
    rb_first_name b = Some f /\ f <> "" /\
    rb_last_name b = Some l /\ l <> "".

(** What the token library must guarantee: a token verifies, under the
    secret it was signed with and until the second it expires in, to the
    claims that were signed. *)
Definition jwt_contract : Prop :=
  forall p secret ttl iat now,
    now / 1000 < iat / 1000 + ttl ->
    jwt_verify X (jwt_sign X p secret ttl iat) secret now = Some p.

(** The two tokens [issueToken] signs for [req.user] in world [w]. *)
Definition issued_chat_token (user : jwt_payload) (w : world) : string :=
  jwt_sign X (ChatClaims (payload_id user)) (jwt_secret cfg) 900
           (clock (Nat.iter 1 tick w)).

Definition issued_session_token (user : jwt_payload) (w : world) : string :=
  jwt_sign X (SessionClaims (payload_id user) (clock (Nat.iter 2 tick w)))
           (jwt_secret cfg) 86400 (clock (Nat.iter 3 tick w)).

(** The [Date] bound as [expires_at]: 24 hours after the clock was read. *)
Definition issued_date (w : world) : time :=
  clock (Nat.iter 4 tick w) + 86400000.

(** The expiry written to the row, as the store reads that [Date]. *)
Definition issued_expiry (w : world) : time :=
  issued_date w + zone_skew w (issued_date w).

End Vocabulary.

(** ** A reference instance of the libraries

    A small, executable stand-in for jsonwebtoken, bcryptjs and Joi, used to
    run the handlers on concrete requests.  Tokens carry the expiry, the
    secret and the claims in a self-delimiting encoding. *)

Module Ref.

Fixpoint enc_pos (p : positive) : string :=
  match p with
  | xI q => String "1" (enc_pos q)
  | xO q => String "0" (enc_pos q)
  | xH => "."
  end.

Fixpoint dec_pos (s : string) : option (positive * string) :=
  match s with
  | String "1" r =>
    match dec_pos r with Some (p, r') => Some (xI p, r') | None => None end
  | String "0" r =>
    match dec_pos r with Some (p, r') => Some (xO p, r') | None => None end
  | String "." r => Some (xH, r)
  | _ => None
  end.

Definition enc_Z (z : Z) : string :=
  match z with
  | Z0 => "z"
  | Zpos p => String "+" (enc_pos p)
  | Zneg p => String "-" (enc_pos p)
  end.

Definition dec_Z (s : string) : option (Z * string) :=
  match s with
  | String "z" r => Some (0, r)
  | String "+" r =>
    match dec_pos r with Some (p, r') => Some (Zpos p, r') | None => None end
  | String "-" r =>
    match dec_pos r with Some (p, r') => Some (Zneg p, r') | None => None end
  | _ => None
  end.

Definition enc_opt (o : option Z) : string :=
  match o with
  | None => "u"
  | Some z => String "i" (enc_Z z)
  end.

Definition dec_opt (s : string) : option (option Z * string) :=
  match s with
  | String "u" r => Some (None, r)
  | String "i" r =>
    match dec_Z r with Some (z, r') => Some (Some z, r') | None => None end
  | _ => None
  end.

Fixpoint take_chars (n : nat) (s : string) : option (string * string) :=
  match n with
  | O => Some (EmptyString, s)
  | S k =>
    match s with
    | String c r =>
      match take_chars k r with
      | Some (a, b) => Some (String c a, b)
      | None => None
      end
    | EmptyString => None
    end
  end.

Definition enc_str (s : string) : string :=
  enc_Z (Z.of_nat (String.length s)) ++ s.

Definition dec_str (s : string) : option (string * string) :=
  match dec_Z s with
  | Some (n, r) => take_chars (Z.to_nat n) r
  | None => None
  end.

Definition enc_payload (p : jwt_payload) : string :=
  match p with
  | IdentityClaims i e => String "I" (enc_Z i ++ enc_str e)
  | ChatClaims u => String "C" (enc_opt u)
  | SessionClaims u sid => String "S" (enc_opt u ++ enc_Z sid)
  end.

Definition dec_payload (s : string) : option jwt_payload :=
  match s with
  | String "I" r =>
    match dec_Z r with
    | Some (i, r1) =>
      match dec_str r1 with
      | Some (e, EmptyString) => Some (IdentityClaims i e)
      | _ => None
      end
    | None => None
    end
  | String "C" r =>
    match dec_opt r with
    | Some (u, EmptyString) => Some (ChatClaims u)
    | _ => None
    end
  | String "S" r =>
    match dec_opt r with
    | Some (u, r1) =>
      match dec_Z r1 with
      | Some (sid, EmptyString) => Some (SessionClaims u sid)
      | _ => None
      end
    | None => None
    end
  | _ => None
  end.

(** The token expires [ttl] seconds after the second it was signed in. *)
Definition sign (p : jwt_payload) (secret : string) (ttl : Z) (now : time)
    : string :=
  enc_Z (now / 1000 + ttl) ++ enc_str secret ++ enc_payload p.

Definition verify (token secret : string) (now : time) : option jwt_payload :=
  match dec_Z token with
  | Some (exp, r) =>
    match dec_str r with
    | Some (k, r') =>
      if String.eqb k secret && (now / 1000 <? exp) then dec_payload r'
      else None
    | None => None
    end
  | None => None
  end.

Definition hash (password salt : string) : string :=
  salt ++ "$" ++ password.

Fixpoint suffix_of (x s : string) : bool :=
  String.eqb x s ||
  match s with
  | EmptyString => false
  | String _ r => suffix_of x r
  end.

Definition compare (password hashed : string) : bool :=
  suffix_of (String "$" password) hashed.

Fixpoint has_at (s : string) : bool :=
  match s with
  | EmptyString => false
  | String c r => Ascii.eqb c "@"%char || has_at r
  end.

Definition message_of (e : joi_error) : string :=
  match e with
  | AnyRequired k => k ++ " is required"
  | StringEmpty k => k ++ " is not allowed to be empty"
  | StringEmail k => k ++ " must be a valid email"
  | StringMin k _ => k ++ " is too short"
  | ObjectUnknown k => k ++ " is not allowed"
  end.

Definition error_of (e : db_error) : js_error :=
  match e with
  | ValueTooLong _ =>
    {| err_message := "value too long for type character varying";
       err_stack := "" |}
  | UniqueViolation c =>
    {| err_message := "duplicate key value violates unique constraint " ++ c;
       err_stack := "" |}
  | ForeignKeyViolation c =>
    {| err_message := "violates foreign key constraint " ++ c;
       err_stack := "" |}
  | InvalidByteSequence =>
    {| err_message := "invalid byte sequence for encoding UTF8: 0x00";
       err_stack := "" |}
  | UnsupportedUnicodeEscape =>
    {| err_message := "unsupported Unicode escape sequence";
       err_stack := "" |}
  end.

Definition libs : externals :=
  {| jwt_sign := sign;
     jwt_verify := verify;
     bcrypt_hash := hash;
     bcrypt_compare := compare;
     email_ok := has_at;
     joi_message := message_of;
     pg_error := error_of;
     null_property_error :=
       {| err_message := "Cannot read properties of null";
          err_stack := "" |} |}.

(** A text value given by a literal. *)
Definition lit (s : string) (H : has_nul s = false) : text :=
  {| chars := s; chars_ok := H |}.

(** The sample rows of [postgres/init.sql], loaded at instant [t0]. *)
Definition john_row (t0 : time) : user_row :=
  {| u_id := 1;
     u_email_text := lit "john.doe@example.com" eq_refl;
     u_password_hash_text := lit "$2b$10$example_hash" eq_refl;
     u_first_name_text := Some (lit "John" eq_refl);
     u_last_name_text := Some (lit "Doe" eq_refl);
     u_phone_text := Some (lit "+1234567890" eq_refl);
     u_created_at := t0; u_updated_at := t0 |}.

Definition init_store (t0 : time) : store :=
  {| users :=
       [ john_row t0;
         {| u_id := 2;
            u_email_text := lit "jane.smith@example.com" eq_refl;
            u_password_hash_text := lit "$2b$10$example_hash" eq_refl;
            u_first_name_text := Some (lit "Jane" eq_refl);
            u_last_name_text := Some (lit "Smith" eq_refl);
            u_phone_text := Some (lit "+0987654321" eq_refl);
            u_created_at := t0; u_updated_at := t0 |} ];
     appointments :=
       [ {| a_id := 1; a_user_id := Some 1;
            a_scheduled_datetime := 1702634400000;
            a_duration_minutes := 30; a_status := "scheduled";
            a_service_type := Some "Consultation";
            a_notes := Some "Initial meeting" |};
         {| a_id := 2; a_user_id := Some 2;
            a_scheduled_datetime := 1702737000000;
            a_duration_minutes := 60; a_status := "scheduled";
            a_service_type := Some "Follow-up";
            a_notes := Some "Review progress" |} ];
     chat_sessions := [] |}.

Definition cfg0 : config := {| JWT_SECRET := None; NODE_ENV := None |}.

Definition t0 : time := 1700000000000.

(** The process and the store run in one zone. *)
Definition one_zone (_ : time) : Z := 0.

(** The process runs five and a half hours ahead of the store. *)
Definition half_past_five (_ : time) : Z := 19800000.

Definition w0 : world :=
  {| db := init_store t0; clock := t0; delays := [3; 0; 1; 2; 5; 40; 1; 0; 7]%N;
     trace := []; zone_skew := one_zone |}.

(** [w0] with the process in the zone five and a half hours ahead. *)
Definition w_ahead : world :=
  {| db := init_store t0; clock := t0; delays := [3; 0; 1; 2; 5; 40; 1; 0; 7]%N;
     trace := []; zone_skew := half_past_five |}.

End Ref.

(** ** Concrete requests and worlds *)

Module Examples.

Import Ref.

Definition john : jwt_payload := IdentityClaims 1 "john.doe@example.com".
Definition jane : jwt_payload := IdentityClaims 2 "jane.smith@example.com".

(** John's session, issued at [t0] and valid for 24 hours. *)
Definition john_session : session_row :=
  {| s_id := 1; s_user_id := Some 1;
     s_session_token_text := lit "session-of-john" eq_refl;
     s_conversation_log_jsonb := Some {| entries := []; entries_ok := eq_refl |};
     s_created_at := t0; s_updated_at := t0;
     s_expires_at := t0 + 86400000 |}.

Definition store_with_session : store :=
  {| users := users (init_store t0);
     appointments := appointments (init_store t0);
     chat_sessions := [john_session] |}.

(** One minute after the session was issued. *)
Definition w_live : world :=
  {| db := store_with_session; clock := t0 + 60000;
     delays := [2; 150; 1; 0; 4]%N; trace := []; zone_skew := one_zone |}.

(** The same minute, the process five and a half hours ahead of the
    store. *)
Definition w_live_ahead : world :=
  {| db := store_with_session; clock := t0 + 60000;
     delays := [2; 150; 1; 0; 4]%N; trace := [];
     zone_skew := half_past_five |}.

(** Two days after the session was issued. *)
Definition w_late : world :=
  {| db := store_with_session; clock := t0 + 172800000;
     delays := [2; 150; 1; 0; 4]%N; trace := []; zone_skew := one_zone |}.

Definition greeting : reply :=
  {| response := Some "Hello! How can I help?"; action := None;
     appointment_details := None |}.

Definition py_up (_ : chat_request) : collab_outcome := PyOk (Some greeting).

Definition py_down (_ : chat_request) : collab_outcome :=
  PyFail "connect ECONNREFUSED 127.0.0.1:5000" None.

(** A collaborator that only serves user 1. *)
Definition py_for_john (r : chat_request) : collab_outcome :=
  match cr_user_id r with
  | Some 1 => PyOk (Some greeting)
  | _ => PyFail "Request failed with status code 403" None
  end.

Definition alice_body : register_body :=
  {| rb_email := Some "alice@example.com"; rb_password := Some "secret1";
     rb_first_name := Some "Alice"; rb_last_name := Some "A";
     rb_unknown := [] |}.

Definition alice_value : register_value :=
  {| rv_email := "alice@example.com"; rv_password := "secret1";
     rv_first_name := "Alice"; rv_last_name := "A" |}.

Fixpoint repeat_char (c : ascii) (n : nat) : string :=
  match n with
  | O => EmptyString
  | S k => String c (repeat_char c k)
  end.

(** A first name of 101 letters: one more than [first_name VARCHAR(100)]
    holds. *)
Definition long_name : string := repeat_char "a" 101.

Definition long_body : register_body :=
  {| rb_email := Some "alice@example.com"; rb_password := Some "secret1";
     rb_first_name := Some long_name; rb_last_name := Some "A";
     rb_unknown := [] |}.

Definition short_password_body : register_body :=
  {| rb_email := Some "alice@example.com"; rb_password := Some "12345";
     rb_first_name := Some "Alice"; rb_last_name := Some "A";
     rb_unknown := [] |}.

(** A session token, an email and a first name that hold the zero byte. *)
Definition zero_token : string := String "t" (String Ascii.zero "oken").


Definition zero_name_body : register_body :=
  {| rb_email := Some "alice@example.com"; rb_password := Some "secret1";
     rb_first_name := Some (String "A" (String Ascii.zero "lice"));
     rb_last_name := Some "A"; rb_unknown := [] |}.

(** A collaborator whose reply holds the zero character. *)
Definition py_zero (_ : chat_request) : collab_outcome :=
  PyOk (Some {| response := Some (String "o" (String Ascii.zero "k"));
                action := None; appointment_details := None |}).

(** The claims of a login token whose user row is no longer in the store. *)
Definition ghost : jwt_payload := IdentityClaims 999 "ghost@example.com".

End Examples.

(** ** The application: the routes of [server.js] *)

(** A JSON object whose values are strings, as [req.body] after
    [express.json()]; a key is looked up from the left. *)
Definition json_object := list (string * string).

Fixpoint field (key : string) (o : json_object) : option string :=
  match o with
  | [] => None
  | (k, v) :: rest => if String.eqb k key then Some v else field key rest
  end.

Definition schema_keys : list string :=
  ["email"; "password"; "first_name"; "last_name"].

(** The request body as each handler reads it. *)
Definition to_register_body (o : json_object) : register_body :=
  {| rb_email := field "email" o;
     rb_password := field "password" o;
     rb_first_name := field "first_name" o;
     rb_last_name := field "last_name" o;
     rb_unknown :=
       filter (fun k => negb (existsb (String.eqb k) schema_keys))
              (map fst o) |}.

Definition to_login_body (o : json_object) : login_body :=
  {| lb_email := field "email" o; lb_password := field "password" o |}.

Definition to_message_body (o : json_object) : message_body :=
  {| mb_message := field "message" o;
     mb_sessionToken := field "sessionToken" o |}.

(** What goes over the wire: the bodies of the four handlers, or the body of
    the health check [{status: 'OK', timestamp}]. *)
Inductive json :=
| JBody (b : json_body)
| JHealth (status : string) (timestamp : time).

Record wire_response := { wr_status : Z; wr_json : json }.

Definition on_wire (r : http_response) : wire_response :=
  {| wr_status := status r; wr_json := JBody (body r) |}.

(** A request to one of the routes.  [salt] is what [bcrypt.genSalt(10)]
    resolves to while the registration is served. *)
Inductive api_request :=
| PostRegister (salt : string) (b : register_body)
| PostLogin (b : login_body)
| GetToken (authorization : option string)
| PostMessage (authorization : option string) (b : message_body)
| GetHealth.

Section App.

Variable X : externals.
Variable cfg : config.
Variable py : chat_request -> collab_outcome.

(** [app.get('/api/health', ...)] *)
Definition health (w : world) : wire_response * world :=
  ({| wr_status := 200; wr_json := JHealth "OK" (clock (tick w)) |}, tick w).

Definition app (r : api_request) (w : world) : wire_response * world :=
  match r with
  | PostRegister salt b =>
    let (res, w') := register X salt b w in (on_wire res, w')
  | PostLogin b =>
    let (res, w') := login X cfg b w in (on_wire res, w')
  | GetToken authorization =>
    let (res, w') := route_token X cfg authorization w in (on_wire res, w')
  | PostMessage authorization b =>
    let (res, w') := route_message X cfg py authorization b w in
    (on_wire res, w')
  | GetHealth => health w
  end.

(** The requests of a list served one after the other. *)
Fixpoint run (rs : list api_request) (w : world) : world :=
  match rs with
  | [] => w
  | r :: rest => run rest (snd (app r w))
  end.

End App.

(** ** The edge routes: [pages/api] of the frontend *)

Record fetch_request := {
  fr_url : string;
  fr_method : string;
  fr_headers : list (string * option string);
  fr_body : option json_object
}.

(** [await fetch(..)] rejects, or resolves to a response whose status is
    [backendRes.status] and whose [backendRes.json()] rejects or gives the
    parsed body. *)
Inductive fetch_outcome :=
| FetchRejected (e : js_error)
| FetchResponse (status : Z) (parsed : js_error + json).

(** What an edge handler reads of its request. *)
Record edge_request := {
  er_method : string;
  er_authorization : option string;
  er_body : option json_object
}.

(** A value in a template literal or a header: [undefined] reads
    ['undefined']. *)
Definition js_string_of (v : option string) : string :=
  match v with
  | Some s => s
  | None => "undefined"
  end.

(** [backendRes.ok] *)
Definition response_ok (status : Z) : bool :=
  (200 <=? status) && (status <=? 299).

Definition edge_error (message : string) : wire_response :=
  {| wr_status := 500; wr_json := JBody (BError message None) |}.

Definition method_not_allowed : wire_response :=
  {| wr_status := 405; wr_json := JBody (BError "Method not allowed" None) |}.

Section Edge.

(** [process.env.NEXT_PUBLIC_BACKEND_URL] and the network behind [fetch]. *)
Variable NEXT_PUBLIC_BACKEND_URL : option string.
Variable fetch : fetch_request -> world -> fetch_outcome * world.

(** The part the four handlers share: fetch, parse the body, hand a
    non-ok answer on with its status and an ok answer on with 200; an
    exception on the way is answered 500. *)
Definition relay (request : fetch_request)
    (on_error : js_error -> wire_response) (w : world)
    : wire_response * world :=
  match fetch request w with
  | (FetchRejected e, w') => (on_error e, w')
  | (FetchResponse _ (inl e), w') => (on_error e, w')
  | (FetchResponse st (inr data), w') =>
    if negb (response_ok st)
    then ({| wr_status := st; wr_json := data |}, w')
    else ({| wr_status := 200; wr_json := data |}, w')
  end.



(** The chatbot token route of [pages/api]. *)
Definition handler_token (req : edge_request) (w : world)
    : wire_response * world :=
  if negb (String.eqb (er_method req) "GET") then (method_not_allowed, w)
  else
    relay {| fr_url := js_string_of NEXT_PUBLIC_BACKEND_URL
                       ++ "/api/chatbot/token";
             fr_method := "GET";
             fr_headers := [("Authorization", er_authorization req);
                            ("Content-Type", Some "application/json")];
             fr_body := None |}
          (fun _ => edge_error "Internal server error") w.

(** The chatbot message route of [pages/api]. *)
Definition handler_message (req : edge_request) (w : world)
    : wire_response * world :=
  if negb (String.eqb (er_method req) "POST") then (method_not_allowed, w)
  else
    relay {| fr_url := js_string_of NEXT_PUBLIC_BACKEND_URL
                       ++ "/api/chatbot/message";
             fr_method := "POST";
             fr_headers := [("Authorization", er_authorization req);
                            ("Content-Type", Some "application/json")];
             fr_body := er_body req |}
          (fun error =>
             edge_error ("Internal server error in message API: "
                         ++ err_message error)) w.

End Edge.

(** ** The backend behind [fetch]

    The network delivers the request to the Express application listening
    at [base]: a header value is sent as a string, a missing body is read
    as [{}], and a path outside the routes gets Express's own 404 page,
    which is not JSON. *)

Fixpoint header (name : string) (hs : list (string * option string))
    : option string :=
  match hs with
  | [] => None
  | (k, v) :: rest =>
    if String.eqb k name then Some (js_string_of v) else header name rest
  end.

Definition body_object (b : option json_object) : json_object :=
  match b with
  | Some o => o
  | None => []
  end.

Definition route_of (base salt : string) (fr : fetch_request)
    : option api_request :=
  let at_path p m :=
    String.eqb (fr_url fr) (base ++ p) && String.eqb (fr_method fr) m in
  if at_path "/api/auth/register" "POST" then
    Some (PostRegister salt (to_register_body (body_object (fr_body fr))))
  else if at_path "/api/auth/login" "POST" then
    Some (PostLogin (to_login_body (body_object (fr_body fr))))
  else if at_path "/api/chatbot/token" "GET" then
    Some (GetToken (header "Authorization" (fr_headers fr)))
  else if at_path "/api/chatbot/message" "POST" then
    Some (PostMessage (header "Authorization" (fr_headers fr))
                      (to_message_body (body_object (fr_body fr))))
  else if at_path "/api/health" "GET" then Some GetHealth
  else None.

Definition backend_fetch (X : externals) (cfg : config)
    (py : chat_request -> collab_outcome)
    (base salt : string) (not_json : js_error)
    (fr : fetch_request) (w : world) : fetch_outcome * world :=
  match route_of base salt fr with
  | Some r =>
    let (res, w') := app X cfg py r w in
    (FetchResponse (wr_status res) (inr (wr_json res)), w')
  | None => (FetchResponse 404 (inl not_json), w)
  end.

(** The bodies that carry a [details] key. *)
Definition carries_details (j : json) : Prop :=
  match j with
  | JBody (BError _ (Some _)) => True
  | _ => False
  end.


(** ** The handlers between two awaits

    A handler gives way to other requests wherever it awaits.  The message
    proxy is cut at [await axios.post(..)]: the first half runs up to the
    moment the request to the collaborator is out, the second half from the
    moment the reply is in.  Registration is cut after the SELECT, where it
    awaits the salt and the hash. *)

Section Halves.

Variable X : externals.
Variable cfg : config.

(** What the message proxy holds while it waits for the collaborator. *)
Record pending_message := {
  pm_message : string;
  pm_sessionToken : string;
  pm_session : session_row
}.

Definition sendMessage_request (user : jwt_payload) (b : message_body)
    : Handler pending_message :=
  if negb (truthy (mb_message b)) || negb (truthy (mb_sessionToken b)) then
    respond 400 (BError "Message and session token required" None)
  else
    let message := or_default (mb_message b) "" in
    let sessionToken := or_default (mb_sessionToken b) "" in
    sessionResult <- pool_query X (SelectValidSession sessionToken)
      (query_valid_session sessionToken) ;;
    match sessionResult with
    | [] => respond 400 (BError "Invalid or expired session" None)
    | session :: _ =>
      _ <- emit (EvHttpPost chat_url
                   {| cr_message := message; cr_user_id := payload_id user;
                      cr_session_token := sessionToken |} 30000) ;;
      ret {| pm_message := message; pm_sessionToken := sessionToken;
             pm_session := session |}
    end.

Definition sendMessage_resume (py : chat_request -> collab_outcome)
    (user : jwt_payload) (p : pending_message) : Handler Empty_set :=
  _ <- Date_now ;;
  match py {| cr_message := pm_message p; cr_user_id := payload_id user;
              cr_session_token := pm_sessionToken p |} with
  | PyFail msg response_data =>
    respond 500
      (BError ("Python service error: " ++ msg)
              (if development cfg then response_data else None))
  | PyOk data =>
    let conversationLog := log_or_empty (pm_session p) in
    t_user <- Date_now ;;
    match data with
    | None => throw (null_property_error X)
    | Some d =>
      t_assistant <- Date_now ;;
      let updatedLog :=
        (conversationLog ++
         [ {| e_role := RoleUser; e_content := Some (pm_message p);
              e_timestamp := t_user |};
           {| e_role := RoleAssistant; e_content := response d;
              e_timestamp := t_assistant |} ])%list in
      _ <- pool_query X (UpdateConversationLog updatedLog (pm_sessionToken p))
             (fun _ => query_update_conversation_log updatedLog
                                                     (pm_sessionToken p)) ;;
      respond 200 (BPassthrough d)
    end
  end.

(** The [catch] block of the message proxy. *)
Definition message_catch (error : js_error) : http_response :=
  {| status := 500;
     body := BError ("Failed to process chat message: " ++ err_message error)
                    (if development cfg then Some (err_stack error)
                     else None) |}.

Definition register_check (b : register_body) : Handler register_value :=
  match userSchema_validate X b with
  | inl e => respond 400 (BError (joi_message X e) None)
  | inr value =>
    existingUser <- pool_query X (SelectUserIdByEmail (rv_email value))
      (fun _ => query_user_id_by_email (rv_email value)) ;;
    if (0 <? Z.of_nat (List.length existingUser)) then
      respond 409 (BError "User already exists" None)
    else ret value
  end.

Definition register_insert (salt : string) (value : register_value)
    : Handler Empty_set :=
  let hashedPassword := bcrypt_hash X (rv_password value) salt in
  result <- pool_query X
    (InsertUser (rv_email value) hashedPassword
                (rv_first_name value) (rv_last_name value))
    (insert_user (rv_email value) hashedPassword
                 (rv_first_name value) (rv_last_name value)) ;;
  respond 201 (BRegistered "User registered successfully"
                           (nth_error result 0)).

End Halves.

(** ** What one request can do to the world *)

Definition user_entry (message : string) (t : time) : entry :=
  {| e_role := RoleUser; e_content := Some message; e_timestamp := t |}.

Definition assistant_entry (content : option string) (t : time) : entry :=
  {| e_role := RoleAssistant; e_content := content; e_timestamp := t |}.

(** The four effects a request can have on the store, with the instants
    they happen at: none, an INSERT into [users], the upsert of a session
    with an empty transcript whose expiry is the store's reading of a
    [Date] at most 24 hours ahead, the UPDATE of a transcript extended by
    one exchange.  The zones stay as they are. *)
Inductive step (w w' : world) : Prop :=
| StepQuiet :
    db w' = db w -> clock w <= clock w' ->
    zone_skew w' = zone_skew w -> step w w'
| StepUser email hash first_name last_name now rows :
    insert_user email hash first_name last_name now (db w)
      = inr (rows, db w') ->
    clock w <= now <= clock w' ->
    zone_skew w' = zone_skew w -> step w w'
| StepSession user_id token date now :
    upsert_session user_id token [] (date + zone_skew w date) now (db w)
      = inr (db w') ->
    clock w <= now <= clock w' -> date <= now + 86400000 ->
    zone_skew w' = zone_skew w -> step w w'
| StepLog session rest token now message content t_user t_assistant log :
    select_valid_session token now (db w) = session :: rest ->
    entries log = (log_or_empty session ++
                   [user_entry message t_user;
                    assistant_entry content t_assistant])%list ->
    db w' = update_conversation_log log token (db w) ->
    clock w <= now -> now <= t_user -> t_user <= t_assistant ->
    t_assistant <= clock w' ->
    zone_skew w' = zone_skew w -> step w w'.

(** [chat_sessions.user_id REFERENCES users(id)] holds of every row. *)
Definition sessions_reference_users (st : store) : Prop :=
  forall s, In s (chat_sessions st) -> references_user st (s_user_id s) = true.

(** No session outlives its creation by more than 24 hours. *)
Definition lifetime_bounded (st : store) : Prop :=
  forall s, In s (chat_sessions st) ->
            s_expires_at s <= s_created_at s + 86400000.

(** No session outlives its creation by more than [span]. *)
Definition lifetime_within (span : Z) (st : store) : Prop :=
  forall s, In s (chat_sessions st) ->
            s_expires_at s <= s_created_at s + span.

(** A transcript made of exchanges: a [user] entry, then an [assistant]
    entry, and so on. *)
Fixpoint paired (log : list entry) : Prop :=
  match log with
  | [] => True
  | u :: rest =>
    match rest with
    | [] => False
    | a :: rest' =>
      e_role u = RoleUser /\ e_role a = RoleAssistant /\ paired rest'
    end
  end.

Definition transcripts_paired (st : store) : Prop :=
  forall s, In s (chat_sessions st) -> paired (log_or_empty s).

(** Timestamps never decrease along the transcript and none lies after
    [hi]. *)
Definition chronological (hi : time) (log : list entry) : Prop :=
  StronglySorted Z.le (map e_timestamp log) /\
  Forall (fun e => e_timestamp e <= hi) log.

Definition transcripts_chronological (w : world) : Prop :=
  forall s, In s (chat_sessions (db w)) ->
            chronological (clock w) (log_or_empty s).

(** Nothing is deleted and no row changes hands: [st'] holds the users of
    [st] followed by new ones, the same appointments, and the sessions of
    [st], each with its id, owner, token, creation and expiry, followed by
    new ones. *)
Definition session_kept (s s' : session_row) : Prop :=
  s_id s' = s_id s /\ s_user_id s' = s_user_id s /\
  s_session_token s' = s_session_token s /\
  s_created_at s' = s_created_at s /\ s_expires_at s' = s_expires_at s.

Definition kept (st st' : store) : Prop :=
  (exists new, users st' = users st ++ new)%list /\
  appointments st' = appointments st /\
  (exists old new, chat_sessions st' = old ++ new /\
                   Forall2 session_kept (chat_sessions st) old)%list.

(** Every session of [st] is in [st'] under its token, its transcript
    extended at the end. *)
Definition transcripts_extended (st st' : store) : Prop :=
  forall s, In s (chat_sessions st) ->
    exists s' more,
      In s' (chat_sessions st') /\
      s_session_token s' = s_session_token s /\
      log_or_empty s' = (log_or_empty s ++ more)%list.

(** What the password library must guarantee: a password matches the hash
    made of it, whatever the salt. *)
Definition bcrypt_contract (X : externals) : Prop :=
  forall password salt,
    bcrypt_compare X password (bcrypt_hash X password salt) = true.

(** ** A day of requests *)

Module Scenario.

Import Ref.

(** The identity tokens login would hand to John and Jane at [t0]. *)
Definition bearer_john : option string :=
  Some ("Bearer " ++ sign Examples.john "default_secret" 86400 t0).

Definition bearer_jane : option string :=
  Some ("Bearer " ++ sign Examples.jane "default_secret" 86400 t0).

Definition bearer_ghost : option string :=
  Some ("Bearer " ++ sign Examples.ghost "default_secret" 86400 t0).

(** The chat token the session service hands John at [w0], as bearer. *)
Definition bearer_chat_john : option string :=
  Some ("Bearer " ++ issued_chat_token libs cfg0 Examples.john w0).

Definition hello_on (token : string) : message_body :=
  mk_message "hello" token.

(** Requests served one after the other, starting one minute after John's
    session was issued. *)
Definition requests : list api_request :=
  [ PostMessage bearer_jane (hello_on "session-of-john");
    PostRegister "salt" Examples.long_body;
    PostRegister "salt" Examples.alice_body;
    PostRegister "pepper" Examples.alice_body;
    PostLogin (mk_login "alice@example.com" "secret1");
    GetToken bearer_john;
    PostMessage bearer_john (hello_on "session-of-john");
    PostMessage None (hello_on "session-of-john");
    GetHealth ].

Definition after : world :=
  run libs cfg0 Examples.py_up requests Examples.w_live.

(** The same requests, the process five and a half hours ahead of the
    store. *)
Definition after_ahead : world :=
  run libs cfg0 Examples.py_up requests Examples.w_live_ahead.

End Scenario.

(** A world holding the store [issueToken] left for John, two days on. *)
Definition john_issued : world :=
  snd (issueToken Ref.libs Ref.cfg0 Examples.john Ref.w0).

Definition john_issued_late : world :=
  {| db := db john_issued; clock := Ref.t0 + 172800000;
     delays := []; trace := []; zone_skew := Ref.one_zone |}.

(** * Properties *)

(** Run the primitives of the handler monad. *)
Ltac run_monad :=
  unfold pool_query, axios_post, bind, Date_now, NOW, timestamp_param,
    emit, get_db, put_db, ret, respond, throw;
  simpl.

(** Go through the rows of a concrete table. *)
Ltac each_row H :=
  simpl in H;
  repeat match type of H with
         | _ \/ _ => destruct H as [<-|H]
         | False => destruct H
         end.

(** ** The clock and the store primitives *)

Lemma tick_clock_le (w : world) : clock w <= clock (tick w).
Proof. unfold tick; simpl. lia. Qed.

Lemma iter_tick_clock_le (n : nat) (w : world) :
  clock w <= clock (Nat.iter n tick w).
Proof.
  induction n as [|n IH]; simpl.
  - lia.
  - pose proof (tick_clock_le (Nat.iter n tick w)). lia.
Qed.

Lemma never_existed_no_valid token now st :
  never_existed token st -> no_valid_session token now st.
Proof. intros Hn s Hin Htok. exfalso. exact (Hn s Hin Htok). Qed.

Lemma filter_nil_iff {A} (f : A -> bool) (l : list A) :
  filter f l = [] <-> (forall x, In x l -> f x = false).
Proof.
  induction l as [|a l IH]; simpl.
  - split; [intros _ x [] | reflexivity].
  - destruct (f a) eqn:Ha.
    + split; [discriminate|].
      intros Hall. rewrite (Hall a (or_introl eq_refl)) in Ha. discriminate.
    + rewrite IH. split.
      * intros Hall x [<-|Hin]; auto.
      * intros Hall x Hin. apply Hall. now right.
Qed.

Lemma select_valid_session_nil token now st :
  no_valid_session token now st <-> select_valid_session token now st = [].
Proof.
  unfold no_valid_session, select_valid_session, token_matches.
  rewrite filter_nil_iff. split.
  - intros Hno s Hin.
    destruct (String.eqb_spec (s_session_token s) token) as [E|E]; simpl; auto.
    apply Z.ltb_ge. auto.
  - intros Hall s Hin E. specialize (Hall s Hin).
    rewrite (proj2 (String.eqb_eq _ _) E) in Hall. simpl in Hall.
    now apply Z.ltb_ge.
Qed.

(** ** What the store accepts as a parameter *)

Lemma as_text_chars s t : as_text s = Some t -> chars t = s.
Proof.
  unfold as_text. destruct (bool_dec _ _); [|discriminate].
  now intros [= <-].
Qed.

Lemma as_text_some s :
  has_nul s = false -> exists t, as_text s = Some t /\ chars t = s.
Proof.
  intros H. unfold as_text. destruct (bool_dec _ _); [|contradiction].
  eexists. split; reflexivity.
Qed.

Lemma as_text_none s : has_nul s = true -> as_text s = None.
Proof.
  intros H. unfold as_text. destruct (bool_dec _ _); [congruence|reflexivity].
Qed.


Lemma as_text_of_text (t : text) : exists t', as_text (chars t) = Some t'.
Proof.
  destruct (as_text_some (chars t) (chars_ok t)) as (t' & E & _). eauto.
Qed.

Lemma as_jsonb_entries log j : as_jsonb log = Some j -> entries j = log.
Proof.
  unfold as_jsonb. destruct (bool_dec _ _); [|discriminate].
  now intros [= <-].
Qed.

Lemma as_jsonb_some log :
  log_has_nul log = false -> exists j, as_jsonb log = Some j /\ entries j = log.
Proof.
  intros H. unfold as_jsonb. destruct (bool_dec _ _); [|contradiction].
  eexists. split; reflexivity.
Qed.


Lemma as_jsonb_nil : exists j, as_jsonb [] = Some j /\ entries j = [].
Proof. now apply as_jsonb_some. Qed.



(** A token under which the store holds a row holds no zero byte. *)
Lemma stored_token_clean s : has_nul (s_session_token s) = false.
Proof. apply chars_ok. Qed.

Lemma stored_email_clean u : has_nul (u_email u) = false.
Proof. apply chars_ok. Qed.

Lemma valid_session_clean token now st :
  valid_session token now st -> has_nul token = false.
Proof. intros (s & _ & <- & _). apply stored_token_clean. Qed.

Lemma iter_tick_zone_skew (n : nat) (w : world) :
  zone_skew (Nat.iter n tick w) = zone_skew w.
Proof. induction n as [|n IH]; simpl; [reflexivity | exact IH]. Qed.

(** ** The message proxy *)

Section MessageProxy.

Variable X : externals.
Variable cfg : config.
Variable py : chat_request -> collab_outcome.

(** The handler, one branch per way through [sendMessage_body]. *)
Lemma sendMessage_unfold (user : jwt_payload) (message token : string)
    (w : world) :
  message <> "" -> token <> "" ->
  let w1 := with_trace (tick w)
              (trace w ++ [EvQuery (SelectValidSession token)]) in
  let request := {| cr_message := message; cr_user_id := payload_id user;
                    cr_session_token := token |} in
  let w2 := tick (with_trace w1
                    (trace w1 ++ [EvHttpPost chat_url request 30000])) in
  sendMessage X cfg py user (mk_message message token) w =
  match as_text token with
  | None => (message_catch cfg (pg_error X InvalidByteSequence), w1)
  | Some _ =>
    match select_valid_session token (clock (tick w)) (db w) with
    | [] => (invalid_session_response, w1)
    | session :: _ =>
      match py request with
      | PyFail msg response_data =>
        ({| status := 500;
            body := BError ("Python service error: " ++ msg)
                           (if development cfg then response_data
                            else None) |},
         w2)
      | PyOk None =>
        (message_catch cfg (null_property_error X), tick w2)
      | PyOk (Some d) =>
        let t_user := clock (tick w2) in
        let t_assistant := clock (tick (tick w2)) in
        let updatedLog :=
          (log_or_empty session ++
           [ {| e_role := RoleUser; e_content := Some message;
                e_timestamp := t_user |};
             {| e_role := RoleAssistant; e_content := response d;
                e_timestamp := t_assistant |} ])%list in
        let w3 := with_trace (tick (tick (tick w2)))
                    (trace w2 ++
                     [EvQuery (UpdateConversationLog updatedLog token)]) in
        match as_jsonb updatedLog with
        | None =>
          (message_catch cfg (pg_error X UnsupportedUnicodeEscape), w3)
        | Some log =>
          ({| status := 200; body := BPassthrough d |},
           with_db w3 (update_conversation_log log token (db w)))
        end
      end
    end
  end.
Proof.
  intros Hm Ht. destruct message as [|mc mr]; [congruence|].
  destruct token as [|tc tr]; [congruence|].
  unfold sendMessage, try_catch, sendMessage_body, mk_message. simpl.
  run_monad.
  unfold query_valid_session, query_update_conversation_log,
    text_param, jsonb_param.
  destruct (as_text _) as [t|]; [|reflexivity].
  destruct (select_valid_session _ _ _) as [|session rest]; [reflexivity|].
  destruct (py _) as [[d|]|msg rd]; try reflexivity.
  destruct (as_jsonb _) as [log|]; reflexivity.
Qed.


Lemma valid_session_select token now st :
  valid_session token now st ->
  exists session rest, select_valid_session token now st = session :: rest.
Proof.
  intros (s & Hin & Htok & Hexp).
  destruct (select_valid_session token now st) as [|x r] eqn:E.
  - apply select_valid_session_nil in E. specialize (E s Hin Htok). lia.
  - eauto.
Qed.

Lemma select_valid_session_head token now st session rest :
  select_valid_session token now st = session :: rest ->
  In session (chat_sessions st) /\
  s_session_token session = token /\ now < s_expires_at session.
Proof.
  intros E.
  assert (Hin : In session (select_valid_session token now st))
    by (rewrite E; now left).
  unfold select_valid_session in Hin. apply filter_In in Hin.
  destruct Hin as [Hin Hb]. apply andb_prop in Hb. destruct Hb as [H1 H2].
  unfold token_matches in H1. apply String.eqb_eq in H1.
  apply Z.ltb_lt in H2. auto.
Qed.

Lemma sendMessage_no_session user message token w :
  message <> "" -> token <> "" -> has_nul token = false ->
  no_valid_session token (clock (tick w)) (db w) ->
  sendMessage X cfg py user (mk_message message token) w =
  (invalid_session_response,
   with_trace (tick w) (trace w ++ [EvQuery (SelectValidSession token)])).
Proof.
  intros Hm Ht Hz Hno. rewrite sendMessage_unfold by assumption.
  destruct (as_text_some _ Hz) as (t & -> & _).
  apply select_valid_session_nil in Hno. now rewrite Hno.
Qed.

(** The store refuses the SELECT when the token holds the zero byte: the
    [catch] block answers 500 and the store is left as it was. *)
Lemma sendMessage_token_refused user message token w :
  message <> "" -> token <> "" -> has_nul token = true ->
  sendMessage X cfg py user (mk_message message token) w =
  (message_catch cfg (pg_error X InvalidByteSequence),
   with_trace (tick w) (trace w ++ [EvQuery (SelectValidSession token)])).
Proof.
  intros Hm Ht Hz. rewrite sendMessage_unfold by assumption.
  now rewrite (as_text_none _ Hz).
Qed.

(** C1 (as amended).  A message with a non-empty text and a non-empty
    session token that holds no zero byte, sent when no row of
    [chat_sessions] carries that token with [expires_at] after the store's [NOW()], is answered with
    status 400 and the single body [{error: 'Invalid or expired session'}],
    and the store is left as it was.  Any second such request, whatever its
    caller, token and world (a token that was never issued, or one whose
    session has expired), gets the very same response. *)
Theorem invalid_or_expired_session
    user message token w user' message' token' w' :
  message <> "" -> token <> "" -> has_nul token = false ->
  no_valid_session token (clock (tick w)) (db w) ->
  message' <> "" -> token' <> "" -> has_nul token' = false ->
  no_valid_session token' (clock (tick w')) (db w') ->
  fst (sendMessage X cfg py user (mk_message message token) w)
    = {| status := 400; body := BError "Invalid or expired session" None |}
  /\ db (snd (sendMessage X cfg py user (mk_message message token) w)) = db w
  /\ fst (sendMessage X cfg py user (mk_message message token) w)
     = fst (sendMessage X cfg py user' (mk_message message' token') w').
Proof.
  intros Hm Ht Hz Hno Hm' Ht' Hz' Hno'.
  rewrite !sendMessage_no_session by assumption.
  repeat split.
Qed.

(** Two runs, one with a token that never existed and one with a token whose
    session has expired, give the caller the same response. *)
Corollary expired_like_unknown user1 user2 m1 m2 tok1 tok2 w1 w2 :
  m1 <> "" -> tok1 <> "" -> has_nul tok1 = false ->
  m2 <> "" -> tok2 <> "" ->
  never_existed tok1 (db w1) ->
  has_expired tok2 (clock (tick w2)) (db w2) ->
  fst (sendMessage X cfg py user1 (mk_message m1 tok1) w1) =
  fst (sendMessage X cfg py user2 (mk_message m2 tok2) w2).
Proof.
  intros ? ? ? ? ? Hn [[s [_ <-]] He].
  rewrite !sendMessage_no_session;
    auto using never_existed_no_valid, stored_token_clean.
Qed.

(** C7.  On a valid session, when the call to the collaborator fails the
    handler answers 500 with the collaborator's error message, the store is
    exactly what it was, and the trace of the request holds the session
    lookup followed by one single HTTP call: nothing is retried. *)
Theorem collaborator_failure_surfaced user message token w msg response_data :
  message <> "" -> token <> "" ->
  valid_session token (clock (tick w)) (db w) ->
  py (forwarded user message token) = PyFail msg response_data ->
  let out := sendMessage X cfg py user (mk_message message token) w in
  status (fst out) = 500
  /\ body (fst out) = BError ("Python service error: " ++ msg)
                             (if development cfg then response_data else None)
  /\ db (snd out) = db w
  /\ trace (snd out) =
       (trace w ++ [EvQuery (SelectValidSession token);
                    EvHttpPost chat_url (forwarded user message token) 30000])%list
  /\ List.length (filter is_http_event (trace (snd out))) =
       S (List.length (filter is_http_event (trace w))).
Proof.
  intros Hm Ht Hv Hpy out. subst out.
  rewrite sendMessage_unfold by assumption.
  destruct (as_text_some _ (valid_session_clean _ _ _ Hv)) as (t & -> & _).
  destruct (valid_session_select _ _ _ Hv) as (session & rest & ->).
  unfold forwarded in Hpy. rewrite Hpy. simpl.
  repeat split.
  - now rewrite <- app_assoc.
  - rewrite !filter_app, !length_app. simpl. lia.
Qed.

Lemma find_unique_token token (P : session_row -> bool) rows session rest :
  NoDup (map s_session_token rows) ->
  filter (fun s => token_matches token s && P s) rows = session :: rest ->
  find (token_matches token) rows = Some session.
Proof.
  induction rows as [|r rows IH]; simpl; [discriminate|].
  intros Hnd E. inversion Hnd as [|? ? Hnotin Hnd']; subst.
  destruct (token_matches token r) eqn:Hr; simpl in E.
  - destruct (P r).
    + now inversion E.
    + exfalso.
      assert (Hin : In session (filter (fun s => token_matches token s && P s) rows))
        by (rewrite E; now left).
      apply filter_In in Hin. destruct Hin as [Hin Hb].
      apply andb_prop in Hb. destruct Hb as [Hb _].
      unfold token_matches in Hr, Hb.
      apply String.eqb_eq in Hr. apply String.eqb_eq in Hb.
      apply Hnotin. rewrite Hr, <- Hb. now apply in_map.
  - now apply IH.
Qed.

Lemma find_after_update token log rows session :
  find (token_matches token) rows = Some session ->
  find (token_matches token)
       (map (fun s => if token_matches token s then set_log log s else s) rows)
  = Some (set_log log session).
Proof.
  induction rows as [|r rows IH]; simpl; [discriminate|].
  destruct (token_matches token r) eqn:Hr.
  - intros E. inversion E; subst. simpl.
    unfold token_matches, s_session_token in *. simpl. now rewrite Hr.
  - intros E. rewrite Hr. now apply IH.
Qed.

(** Every way to a 200 goes through a valid session and a well-formed
    reply of the collaborator. *)
Lemma sendMessage_success_inv user b w :
  status (fst (sendMessage X cfg py user b w)) = 200 ->
  exists message token session rest d,
    b = mk_message message token /\ message <> "" /\ token <> "" /\
    select_valid_session token (clock (tick w)) (db w) = session :: rest /\
    py (forwarded user message token) = PyOk (Some d).
Proof.
  destruct b as [[m|] [t|]];
    try (unfold sendMessage, try_catch, sendMessage_body; simpl;
         try destruct m; simpl; discriminate).
  destruct m as [|mc mr];
    [unfold sendMessage, try_catch, sendMessage_body; simpl; discriminate|].
  destruct t as [|tc tr];
    [unfold sendMessage, try_catch, sendMessage_body; simpl; discriminate|].
  change {| mb_message := Some (String mc mr);
            mb_sessionToken := Some (String tc tr) |}
    with (mk_message (String mc mr) (String tc tr)).
  rewrite sendMessage_unfold by discriminate.
  destruct (as_text _) as [t|]; [|simpl; discriminate].
  destruct (select_valid_session _ _ _) as [|session rest] eqn:Esel;
    [simpl; discriminate|].
  destruct (py _) as [[d|]|msg rd] eqn:Epy; simpl; try discriminate.
  intros _. exists (String mc mr), (String tc tr), session, rest, d.
  repeat split; try discriminate; assumption.
Qed.

(** The same, on the characterisation of the handler: a 200 leaves only the
    last branch. *)
Lemma sendMessage_success_run user message token session rest d w :
  message <> "" -> token <> "" ->
  status (fst (sendMessage X cfg py user (mk_message message token) w)) = 200 ->
  select_valid_session token (clock (tick w)) (db w) = session :: rest ->
  py (forwarded user message token) = PyOk (Some d) ->
  exists t_user t_assistant log,
    clock w <= t_user /\ t_user <= t_assistant /\
    entries log = (log_or_empty session ++
                   [ {| e_role := RoleUser; e_content := Some message;
                        e_timestamp := t_user |};
                     {| e_role := RoleAssistant; e_content := response d;
                        e_timestamp := t_assistant |} ])%list /\
    db (snd (sendMessage X cfg py user (mk_message message token) w))
    = update_conversation_log log token (db w).
Proof.
  intros Hm Ht Hok Esel Epy. revert Hok.
  rewrite sendMessage_unfold by assumption.
  destruct (as_text token) as [t|]; [|simpl; discriminate].
  rewrite Esel. unfold forwarded in Epy. rewrite Epy. cbv zeta.
  destruct (as_jsonb _) as [log|] eqn:Elog; [|simpl; discriminate].
  intros _. apply as_jsonb_entries in Elog.
  match type of Elog with
  | _ = (_ ++ [ {| e_timestamp := ?tu |}; {| e_timestamp := ?ta |} ])%list =>
    exists tu, ta, log
  end.
  pose proof (tick_clock_le w).
  repeat split; try assumption; simpl; lia.
Qed.

(** C2.  A message that is answered 200 extends the transcript stored under
    its session token by exactly two entries, in order: a [user] entry with
    the request's message, then an [assistant] entry with the [response]
    field of the collaborator's reply; both timestamps are readings of the
    clock taken after the request started. *)
Theorem message_appends_exchange user b w :
  store_wf (db w) ->
  status (fst (sendMessage X cfg py user b w)) = 200 ->
  exists message token d t_user t_assistant,
    b = mk_message message token /\
    valid_session token (clock (tick w)) (db w) /\
    py (forwarded user message token) = PyOk (Some d) /\
    clock w <= t_user /\ clock w <= t_assistant /\
    transcript token (db (snd (sendMessage X cfg py user b w))) =
      (transcript token (db w) ++
       [ {| e_role := RoleUser; e_content := Some message;
            e_timestamp := t_user |};
         {| e_role := RoleAssistant; e_content := response d;
            e_timestamp := t_assistant |} ])%list.
Proof.
  intros [Hnd _] Hok.
  destruct (sendMessage_success_inv _ _ _ Hok)
    as (message & token & session & rest & d & -> & Hm & Ht & Esel & Epy).
  pose proof (select_valid_session_head _ _ _ _ _ Esel) as (Hin & Htok & Hexp).
  destruct (sendMessage_success_run _ _ _ _ _ _ _ Hm Ht Hok Esel Epy)
    as (t_user & t_assistant & log & Hu & Ha & Elog & ->).
  exists message, token, d, t_user, t_assistant.
  repeat split; try assumption; try lia.
  - exists session. auto.
  - unfold transcript.
    pose proof (find_unique_token _ _ _ _ _ Hnd Esel) as Hfind.
    unfold update_conversation_log. simpl.
    rewrite (find_after_update _ _ _ _ Hfind), Hfind.
    unfold log_or_empty at 1, s_conversation_log at 1. simpl.
    exact Elog.
Qed.

Lemma update_log_frame token log rows :
  Forall2 (fun r r' => same_but_log r r' /\
                       (s_session_token r <> token -> r' = r))
          rows
          (map (fun s => if token_matches token s then set_log log s else s)
               rows).
Proof.
  induction rows as [|r rows IH]; simpl; constructor; auto.
  unfold token_matches.
  destruct (String.eqb_spec (s_session_token r) token) as [E|E].
  - split; [now repeat split | congruence].
  - split; [now repeat split | reflexivity].
Qed.

Lemma update_conversation_log_frame log token st :
  users (update_conversation_log log token st) = users st /\
  appointments (update_conversation_log log token st) = appointments st /\
  Forall2 (fun r r' => same_but_log r r' /\
                       (s_session_token r <> token -> r' = r))
          (chat_sessions st)
          (chat_sessions (update_conversation_log log token st)).
Proof. repeat split. apply update_log_frame. Qed.

Lemma unique_token_count token rows :
  NoDup (map s_session_token rows) ->
  (List.length (filter (token_matches token) rows) <= 1)%nat.
Proof.
  induction rows as [|r rows IH]; simpl; [lia|].
  intros Hnd. inversion Hnd as [|? ? Hnotin Hnd']; subst.
  specialize (IH Hnd').
  destruct (token_matches token r) eqn:Hr; [|assumption].
  destruct (filter (token_matches token) rows) as [|x l] eqn:E; [simpl; lia|].
  exfalso. apply Hnotin.
  assert (Hin : In x (filter (token_matches token) rows))
    by (rewrite E; now left).
  apply filter_In in Hin. destruct Hin as [Hin Hx].
  unfold token_matches in Hr, Hx.
  apply String.eqb_eq in Hr. apply String.eqb_eq in Hx.
  rewrite Hr, <- Hx. now apply in_map.
Qed.

(** C10.  A message answered 200 rewrites the [conversation_log] of the one
    row carrying the session token and nothing else: [users] and
    [appointments] are untouched, every session row keeps its [id],
    [user_id], [session_token], [created_at], [updated_at] and
    [expires_at], and rows under other tokens are identical. *)
Theorem message_touches_only_log user b w :
  store_wf (db w) ->
  status (fst (sendMessage X cfg py user b w)) = 200 ->
  let st' := db (snd (sendMessage X cfg py user b w)) in
  exists token,
    mb_sessionToken b = Some token /\
    List.length (filter (token_matches token) (chat_sessions (db w))) = 1%nat /\
    users st' = users (db w) /\
    appointments st' = appointments (db w) /\
    Forall2 (fun r r' => same_but_log r r' /\
                         (s_session_token r <> token -> r' = r))
            (chat_sessions (db w)) (chat_sessions st').
Proof.
  intros [Hnd _] Hok st'. subst st'.
  destruct (sendMessage_success_inv _ _ _ Hok)
    as (message & token & session & rest & d & -> & Hm & Ht & Esel & Epy).
  pose proof (select_valid_session_head _ _ _ _ _ Esel) as (Hin & Htok & Hexp).
  exists token. split; [reflexivity|].
  destruct (sendMessage_success_run _ _ _ _ _ _ _ Hm Ht Hok Esel Epy)
    as (t_user & t_assistant & log & _ & _ & _ & ->).
  split; [|apply update_conversation_log_frame].
  pose proof (unique_token_count token _ Hnd) as Hle.
  assert (Hin' : In session (filter (token_matches token)
                                     (chat_sessions (db w)))).
  { apply filter_In. split; [assumption|].
    unfold token_matches. now apply String.eqb_eq. }
  destruct (filter (token_matches token) (chat_sessions (db w)));
    [destruct Hin' | simpl in *; lia].
Qed.

(** C9 (as amended).  The session lookup never compares the row's [user_id]
    with the caller.  Whoever presents a valid session token passes the
    session check; the caller's id enters only the request forwarded to the
    collaborator, so two callers whose forwarded requests get the same
    reply receive the same response and leave the same store. *)
Theorem caller_matters_only_through_collaborator user1 user2 message token w :
  message <> "" -> token <> "" ->
  valid_session token (clock (tick w)) (db w) ->
  py (forwarded user1 message token) = py (forwarded user2 message token) ->
  let out1 := sendMessage X cfg py user1 (mk_message message token) w in
  let out2 := sendMessage X cfg py user2 (mk_message message token) w in
  fst out1 = fst out2 /\ db (snd out1) = db (snd out2) /\
  fst out1 <> invalid_session_response.
Proof.
  intros Hm Ht Hv Hpy out1 out2. subst out1 out2.
  rewrite !sendMessage_unfold by assumption.
  destruct (as_text_some _ (valid_session_clean _ _ _ Hv)) as (t & -> & _).
  destruct (valid_session_select _ _ _ Hv) as (session & rest & ->).
  unfold forwarded in Hpy. rewrite <- Hpy.
  destruct (py _) as [[d|]|msg rd]; cbv zeta;
    try destruct (as_jsonb _) as [log|];
    unfold message_catch; simpl; repeat split; discriminate.
Qed.

End MessageProxy.

(** ** Registration and login *)

Section Auth.

Variable X : externals.
Variable cfg : config.

Lemma joi_string_inr key rule v s :
  joi_string key rule v = inr s -> v = Some s /\ s <> "" /\ rule s = None.
Proof.
  unfold joi_string. destruct v as [[|c r]|]; try discriminate.
  destruct (rule (String c r)) eqn:E; try discriminate.
  intros H0. inversion H0; subst. repeat split; [discriminate | assumption].
Qed.

Lemma userSchema_validate_inr b v :
  userSchema_validate X b = inr v ->
  rb_email b = Some (rv_email v) /\ rv_email v <> "" /\
  email_ok X (rv_email v) = true /\
  rb_password b = Some (rv_password v) /\
  (6 <= String.length (rv_password v))%nat /\
  rb_first_name b = Some (rv_first_name v) /\ rv_first_name v <> "" /\
  rb_last_name b = Some (rv_last_name v) /\ rv_last_name v <> "" /\
  rb_unknown b = [].
Proof.
  unfold userSchema_validate.
  destruct (joi_string "email" _ (rb_email b)) as [?|e] eqn:He; [discriminate|].
  destruct (joi_string "password" _ (rb_password b)) as [?|p] eqn:Hp;
    [discriminate|].
  destruct (joi_string "first_name" _ (rb_first_name b)) as [?|f] eqn:Hf;
    [discriminate|].
  destruct (joi_string "last_name" _ (rb_last_name b)) as [?|l] eqn:Hl;
    [discriminate|].
  destruct (rb_unknown b) eqn:Hu; [|discriminate].
  intros H0. inversion H0; subst; simpl.
  apply joi_string_inr in He, Hp, Hf, Hl.
  destruct He as (He1 & He2 & He3), Hp as (Hp1 & Hp2 & Hp3),
           Hf as (Hf1 & Hf2 & _), Hl as (Hl1 & Hl2 & _).
  destruct (email_ok X e) eqn:Eok; [|discriminate].
  destruct (6 <=? String.length p)%nat eqn:Elen; [|discriminate].
  apply Nat.leb_le in Elen.
  repeat split; assumption.
Qed.

(** The handler, one branch per way through [register_body_run]. *)
Lemma register_unfold salt b w :
  register X salt b w =
  match userSchema_validate X b with
  | inl e => ({| status := 400; body := BError (joi_message X e) None |}, w)
  | inr v =>
    let w1 := with_trace (tick w)
                (trace w ++ [EvQuery (SelectUserIdByEmail (rv_email v))]) in
    match as_text (rv_email v) with
    | None => ({| status := 500;
                  body := BError "Internal server error" None |}, w1)
    | Some _ =>
      match select_user_id_by_email (rv_email v) (db w) with
      | _ :: _ =>
        ({| status := 409; body := BError "User already exists" None |}, w1)
      | [] =>
        let hashed := bcrypt_hash X (rv_password v) salt in
        let w2 := with_trace (tick w1)
                    (trace w1 ++
                     [EvQuery (InsertUser (rv_email v) hashed
                                 (rv_first_name v) (rv_last_name v))]) in
        match insert_user (rv_email v) hashed (rv_first_name v)
                          (rv_last_name v) (clock (tick w1)) (db w) with
        | inl e => ({| status := 500;
                       body := BError "Internal server error" None |}, w2)
        | inr (rows, st') =>
          ({| status := 201;
              body := BRegistered "User registered successfully"
                                  (nth_error rows 0) |},
           with_db w2 st')
        end
      end
    end
  end.
Proof.
  unfold register, try_catch, register_body_run.
  destruct (userSchema_validate X b) as [e|v]; [reflexivity|].
  run_monad. unfold query_user_id_by_email, text_param.
  destruct (as_text _) as [t|]; [|reflexivity].
  destruct (select_user_id_by_email _ _) as [|i ids]; simpl.
  - destruct (insert_user _ _ _ _ _ _) as [e|[rows st']]; reflexivity.
  - reflexivity.
Qed.

(** C8.  A registration body that misses one of the input constraints (valid
    email shape, password of length at least 6, non-empty first and last
    name) is answered 400 and the world is untouched: no statement reaches
    the store, so no user is persisted. *)
Theorem register_rejects_invalid_input salt b w :
  ~ valid_registration X b ->
  status (fst (register X salt b w)) = 400 /\ snd (register X salt b w) = w.
Proof.
  intros Hbad. rewrite register_unfold.
  destruct (userSchema_validate X b) as [e|v] eqn:Ev; [split; reflexivity|].
  exfalso. apply Hbad.
  apply userSchema_validate_inr in Ev.
  destruct Ev as (? & ? & ? & ? & ? & ? & ? & ? & ? & ?).
  exists (rv_email v), (rv_password v), (rv_first_name v), (rv_last_name v).
  repeat split; assumption.
Qed.

Lemma select_user_id_nil email st :
  ~ registered email st <-> select_user_id_by_email email st = [].
Proof.
  unfold select_user_id_by_email, registered. split.
  - intros Hno.
    assert (E : filter (fun u => String.eqb (u_email u) email) (users st) = []).
    { apply filter_nil_iff. intros u Hin.
      destruct (String.eqb_spec (u_email u) email); [|reflexivity].
      exfalso. apply Hno. eauto. }
    now rewrite E.
  - intros E (u & Hin & Hu).
    apply map_eq_nil in E.
    rewrite filter_nil_iff in E. specialize (E u Hin).
    apply String.eqb_eq in Hu. congruence.
Qed.

Lemma varchar_fits n s : (String.length s <= n)%nat -> varchar n s = inr s.
Proof.
  intros Hle. unfold varchar. apply Nat.leb_le in Hle. now rewrite Hle.
Qed.

Lemma existsb_email_false email st :
  ~ registered email st ->
  existsb (fun u => String.eqb (u_email u) email) (users st) = false.
Proof.
  intros Hno. destruct (existsb _ _) eqn:E; [|reflexivity].
  apply existsb_exists in E. destruct E as (u & Hin & Hu).
  apply String.eqb_eq in Hu. exfalso. apply Hno. exists u. auto.
Qed.


Lemma text_param_ok s :
  has_nul s = false -> exists t, text_param s = inr t /\ chars t = s.
Proof.
  intros H. unfold text_param.
  destruct (as_text_some s H) as (t & -> & E). eauto.
Qed.

Lemma text_param_inv s t : text_param s = inr t -> chars t = s.
Proof.
  unfold text_param. destruct (as_text s) as [t'|] eqn:E; [|discriminate].
  intros [= <-]. now apply as_text_chars.
Qed.

Lemma text_param_refused s :
  has_nul s = true -> text_param s = inl InvalidByteSequence.
Proof. intros H. unfold text_param. now rewrite (as_text_none _ H). Qed.

Lemma varchar_param_fits n s :
  has_nul s = false -> (String.length s <= n)%nat ->
  exists t, varchar_param n s = inr t /\ chars t = s.
Proof.
  intros Hz Hle. unfold varchar_param.
  destruct (text_param_ok s Hz) as (t & -> & E).
  rewrite E, (varchar_fits _ _ Hle).
  destruct (text_param_ok s Hz) as (t' & -> & E'). eauto.
Qed.

Lemma varchar_param_inv n s t :
  varchar_param n s = inr t ->
  has_nul s = false /\ varchar n s = inr (chars t).
Proof.
  unfold varchar_param.
  destruct (text_param s) as [e|t0] eqn:E0; [discriminate|].
  apply text_param_inv in E0. rewrite E0.
  destruct (varchar n s) as [e|s'] eqn:Ev; [discriminate|].
  intros E. apply text_param_inv in E. subst s'.
  split; [|reflexivity]. rewrite <- E0. apply chars_ok.
Qed.

Lemma varchar_param_refused n s :
  has_nul s = true -> varchar_param n s = inl InvalidByteSequence.
Proof.
  intros H. unfold varchar_param. now rewrite (text_param_refused _ H).
Qed.

(** The INSERT on parameters the store accepts, for an email that is not
    registered: one row is appended. *)
Lemma insert_user_ok email hash first_name last_name now st :
  has_nul email = false -> has_nul hash = false ->
  has_nul first_name = false -> has_nul last_name = false ->
  (String.length email <= 255)%nat ->
  (String.length first_name <= 100)%nat ->
  (String.length last_name <= 100)%nat ->
  ~ registered email st ->
  exists row,
    insert_user email hash first_name last_name now st =
      inr ([user_public row],
           {| users := users st ++ [row];
              appointments := appointments st;
              chat_sessions := chat_sessions st |})
    /\ u_id row = next_id (map u_id (users st))
    /\ u_email row = email
    /\ u_password_hash row = hash
    /\ u_first_name row = Some first_name
    /\ u_last_name row = Some last_name
    /\ u_created_at row = now.
Proof.
  intros Ze Zh Zf Zl He Hf Hl Hnew. unfold insert_user.
  destruct (text_param_ok _ Zh) as (th & -> & Eh).
  destruct (varchar_param_fits _ _ Ze He) as (te & -> & Ee).
  destruct (varchar_param_fits _ _ Zf Hf) as (tf & -> & Ef).
  destruct (varchar_param_fits _ _ Zl Hl) as (tl & -> & El).
  rewrite Ee, (existsb_email_false _ _ Hnew).
  eexists. split; [reflexivity|].
  unfold u_email, u_password_hash, u_first_name, u_last_name. simpl.
  now rewrite Ee, Eh, Ef, El.
Qed.



End Auth.

Section Login.

Variable X : externals.
Variable cfg : config.

(** The handler, one branch per way through [login_body_run]. *)
Lemma login_unfold email password w :
  email <> "" -> password <> "" ->
  let w1 := with_trace (tick w)
              (trace w ++ [EvQuery (SelectUserByEmail email)]) in
  login X cfg (mk_login email password) w =
  match as_text email with
  | None => ({| status := 500;
                body := BError "Internal server error" None |}, w1)
  | Some _ =>
    match select_user_by_email email (db w) with
    | [] => (invalid_credentials, w1)
    | user :: _ =>
      if bcrypt_compare X password (u_password_hash user) then
        ({| status := 200;
            body := BLogin (jwt_sign X (IdentityClaims (u_id user)
                                                       (u_email user))
                                     (jwt_secret cfg) 86400 (clock (tick w1)))
                           (user_public user) |},
         tick w1)
      else (invalid_credentials, w1)
    end
  end.
Proof.
  intros He Hp. destruct email as [|ec er]; [congruence|].
  destruct password as [|pc pr]; [congruence|].
  unfold login, try_catch, login_body_run, mk_login. simpl.
  run_monad. unfold query_user_by_email, text_param.
  destruct (as_text _) as [t|]; [|reflexivity].
  destruct (select_user_by_email _ _) as [|user rest]; [reflexivity|].
  destruct (bcrypt_compare X _ _); reflexivity.
Qed.

Lemma registered_clean email st : registered email st -> has_nul email = false.
Proof. intros (u & _ & <-). apply stored_email_clean. Qed.



End Login.

(** ** The authentication gate reads a bearer header *)

Lemma split_space_no_space (s : string) :
  has_space s = false -> split_space s = [s].
Proof.
  induction s as [|c s IH]; simpl; [reflexivity|].
  intros Hs. apply orb_false_elim in Hs. destruct Hs as [Hc Hs].
  rewrite Hc, (IH Hs). reflexivity.
Qed.

Lemma authenticateToken_bearer X cfg (token : string) (w : world) :
  token <> "" -> has_space token = false ->
  authenticateToken X cfg (Some ("Bearer " ++ token)) w =
  match jwt_verify X token (jwt_secret cfg) (clock (tick w)) with
  | Some user => (Next user, tick w)
  | None => (Done {| status := 403;
                     body := BError "Invalid or expired token" None |},
             tick w)
  end.
Proof.
  intros Hne Hsp. unfold authenticateToken.
  assert (E : bearer_token (Some ("Bearer " ++ token)) = Some token).
  { unfold bearer_token. simpl append.
    change (String "B" (String "e" (String "a" (String "r" (String "e"
             (String "r" (String " " token)))))))
      with ("Bearer " ++ token).
    assert (Es : split_space ("Bearer " ++ token) = ["Bearer"; token]).
    { simpl. rewrite (split_space_no_space token Hsp). reflexivity. }
    rewrite Es. reflexivity. }
  rewrite E. destruct token as [|c r]; [congruence|].
  run_monad.
  destruct (jwt_verify X _ _ _); reflexivity.
Qed.

(** ** The session service *)

Section SessionService.

Variable X : externals.
Variable cfg : config.

(** The handler, one branch per way through [issueToken_body]. *)
Lemma issueToken_unfold user w :
  let sessionToken := issued_session_token X cfg user w in
  let q := UpsertSession (payload_id user) sessionToken [] (issued_date w) in
  let w5 := with_trace (Nat.iter 5 tick w) (trace w ++ [EvQuery q]) in
  issueToken X cfg user w =
  match upsert_session (payload_id user) sessionToken [] (issued_expiry w)
                       (clock (Nat.iter 5 tick w)) (db w) with
  | inl e =>
    ({| status := 500;
        body := BError ("Failed to generate chatbot token: "
                        ++ err_message (pg_error X e)) None |}, w5)
  | inr st' =>
    ({| status := 200;
        body := BTokens (issued_chat_token X cfg user w) sessionToken |},
     with_db w5 st')
  end.
Proof.
  unfold issueToken, try_catch, issueToken_body, issued_session_token,
    issued_chat_token, issued_expiry, issued_date.
  run_monad.
  destruct (upsert_session _ _ _ _ _ _) as [e|st']; reflexivity.
Qed.

Lemma existsb_token_false token rows :
  (forall s, In s rows -> s_session_token s <> token) ->
  existsb (token_matches token) rows = false.
Proof.
  intros Hn. destruct (existsb _ _) eqn:E; [|reflexivity].
  apply existsb_exists in E. destruct E as (s & Hin & Hs).
  unfold token_matches in Hs. apply String.eqb_eq in Hs.
  exfalso. exact (Hn s Hin Hs).
Qed.

Lemma existsb_token_true token rows :
  ~ (forall s, In s rows -> s_session_token s <> token) ->
  existsb (token_matches token) rows = true.
Proof.
  intros Hn. destruct (existsb _ _) eqn:E; [reflexivity|].
  exfalso. apply Hn. intros s Hin Hs.
  assert (Ht : existsb (token_matches token) rows = true).
  { apply existsb_exists. exists s. split; [assumption|].
    unfold token_matches. now apply String.eqb_eq. }
  congruence.
Qed.

Lemma touch_frame token now rows :
  Forall2 (fun r r' => same_but_updated_at r r' /\
                       (s_session_token r = token -> s_updated_at r' = now) /\
                       (s_session_token r <> token -> r' = r))
          rows
          (map (fun s => if token_matches token s
                         then touch_session now s else s) rows).
Proof.
  induction rows as [|r rows IH]; simpl; constructor; auto.
  unfold token_matches.
  destruct (String.eqb_spec (s_session_token r) token) as [E|E].
  - split; [now repeat split | split; [reflexivity | congruence]].
  - split; [now repeat split | split; [congruence | reflexivity]].
Qed.

(** The upsert on a token the store accepts and no row carries: one row is
    appended, if the user it refers to is there. *)
Lemma upsert_session_new user_id token expires now st :
  has_nul token = false -> (String.length token <= 255)%nat ->
  never_existed token st -> references_user st user_id = true ->
  exists row,
    upsert_session user_id token [] expires now st =
      inr {| users := users st;
             appointments := appointments st;
             chat_sessions := chat_sessions st ++ [row] |}
    /\ s_id row = next_id (map s_id (chat_sessions st))
    /\ s_user_id row = user_id
    /\ s_session_token row = token
    /\ s_conversation_log row = Some []
    /\ s_expires_at row = expires
    /\ s_created_at row = now /\ s_updated_at row = now.
Proof.
  intros Hz Hfit Hnew Hfk. unfold upsert_session.
  destruct (varchar_param_fits _ _ Hz Hfit) as (t & -> & Et).
  simpl. rewrite Et, (existsb_token_false _ _ Hnew), Hfk.
  eexists. split; [reflexivity|].
  unfold s_session_token. simpl. now rewrite Et.
Qed.

Lemma upsert_session_orphan user_id token expires now st :
  has_nul token = false -> (String.length token <= 255)%nat ->
  never_existed token st -> references_user st user_id = false ->
  upsert_session user_id token [] expires now st =
    inl (ForeignKeyViolation "chat_sessions_user_id_fkey").
Proof.
  intros Hz Hfit Hnew Hfk. unfold upsert_session.
  destruct (varchar_param_fits _ _ Hz Hfit) as (t & -> & Et).
  simpl. now rewrite Et, (existsb_token_false _ _ Hnew), Hfk.
Qed.

(** The upsert on a token some row carries: [updated_at] of the rows under
    the token is set. *)
Lemma upsert_session_touch user_id token expires now st :
  has_nul token = false -> (String.length token <= 255)%nat ->
  ~ never_existed token st ->
  upsert_session user_id token [] expires now st =
    inr {| users := users st;
           appointments := appointments st;
           chat_sessions :=
             map (fun s => if token_matches token s
                           then touch_session now s else s)
                 (chat_sessions st) |}.
Proof.
  intros Hz Hfit Hsome. unfold upsert_session.
  destruct (varchar_param_fits _ _ Hz Hfit) as (t & -> & Et).
  simpl. now rewrite Et, (existsb_token_true _ _ Hsome).
Qed.

Lemma issued_date_bounds w :
  clock w + 86400000 <= issued_date w <= clock (Nat.iter 5 tick w) + 86400000.
Proof.
  unfold issued_date.
  pose proof (iter_tick_clock_le 4 w).
  pose proof (tick_clock_le (Nat.iter 4 tick w)).
  simpl in *. lia.
Qed.

(** C6 (as amended).  A call of [issueToken] by a caller whose claims name
    a user whose row is in the store (or name none), and whose generated
    session token fits the [session_token] column and holds no zero byte,
    answers 200 with the two tokens and sends the store exactly one
    statement, a write.  If no row carries the generated session token, one
    row is appended, with an empty transcript and as [expires_at] the
    store's reading of the [Date] 24 hours after the clock reading taken
    for it: that [Date] shifted by the zone skew.  Otherwise the rows
    carrying the token get [updated_at] set to the store's [NOW()] and
    nothing else changes. *)
Theorem issueToken_single_write user w :
  references_user (db w) (payload_id user) = true ->
  (String.length (issued_session_token X cfg user w) <= 255)%nat ->
  has_nul (issued_session_token X cfg user w) = false ->
  let out := issueToken X cfg user w in
  let token := issued_session_token X cfg user w in
  let now := clock (Nat.iter 5 tick w) in
  fst out = {| status := 200;
               body := BTokens (issued_chat_token X cfg user w) token |}
  /\ trace (snd out) =
       (trace w ++ [EvQuery (UpsertSession (payload_id user) token []
                                           (issued_date w))])%list
  /\ List.length (filter is_write_event (trace (snd out))) =
       S (List.length (filter is_write_event (trace w)))
  /\ users (db (snd out)) = users (db w)
  /\ appointments (db (snd out)) = appointments (db w)
  /\ clock w + 86400000 <= issued_date w <= now + 86400000
  /\ issued_expiry w = issued_date w + zone_skew w (issued_date w)
  /\ (never_existed token (db w) ->
       exists row,
         chat_sessions (db (snd out)) = (chat_sessions (db w) ++ [row])%list
         /\ s_user_id row = payload_id user
         /\ s_session_token row = token
         /\ s_conversation_log row = Some []
         /\ s_expires_at row = issued_expiry w
         /\ s_created_at row = now /\ s_updated_at row = now)
  /\ (~ never_existed token (db w) ->
       Forall2 (fun r r' => same_but_updated_at r r' /\
                            (s_session_token r = token -> s_updated_at r' = now) /\
                            (s_session_token r <> token -> r' = r))
               (chat_sessions (db w)) (chat_sessions (db (snd out)))).
Proof.
  intros Hfk Hfit Hz out token now. subst out token now.
  rewrite issueToken_unfold. cbv zeta.
  pose proof (issued_date_bounds w) as Hdate.
  set (token := issued_session_token X cfg user w) in *.
  set (now := clock (Nat.iter 5 tick w)) in *.
  destruct (existsb (token_matches token) (chat_sessions (db w))) eqn:Ex.
  - assert (Hsome : ~ never_existed token (db w)).
    { intros Hnever. rewrite (existsb_token_false _ _ Hnever) in Ex.
      discriminate. }
    rewrite (upsert_session_touch (payload_id user) token (issued_expiry w)
               now (db w) Hz Hfit Hsome). simpl.
    repeat split; try (apply Hdate).
    + rewrite filter_app, length_app. simpl. lia.
    + intros Hnever. contradiction.
    + intros _. apply touch_frame.
  - assert (Hnever : never_existed token (db w)).
    { intros s0 Hin Hs.
      assert (Ht : existsb (token_matches token) (chat_sessions (db w)) = true).
      { apply existsb_exists. exists s0. split; [assumption|].
        unfold token_matches. now apply String.eqb_eq. }
      congruence. }
    destruct (upsert_session_new (payload_id user) token (issued_expiry w)
                now (db w) Hz Hfit Hnever Hfk)
      as (row & -> & _ & Hu & Ht & Hlog & He & Hc & Hup).
    simpl. repeat split; try (apply Hdate).
    + rewrite filter_app, length_app. simpl. lia.
    + intros _. exists row. repeat split; assumption.
    + intros Hsome. contradiction.
Qed.

(** C3 (as amended).  The tokens [issueToken] hands out, presented to
    [authenticateToken] as bearer under the secret they were signed with
    and each within its own life (15 minutes from its signing for the chat
    token, 24 hours for the session token), pass the gate and [req.user]
    is then exactly the claims that were signed: [{userId, type: 'chatbot'}]
    and [{userId, sessionId}], with [userId] the [id] claim of the caller
    they were issued to.  For a caller who logged in as user [U] that is
    [U]; a caller whose claims carry no [id] gets tokens that name no
    user. *)
Theorem issued_tokens_recover_user user w chat sess :
  jwt_contract X ->
  body (fst (issueToken X cfg user w)) = BTokens chat sess ->
  chat <> "" -> has_space chat = false ->
  sess <> "" -> has_space sess = false ->
  (forall w',
     clock (tick w') / 1000 < clock (Nat.iter 1 tick w) / 1000 + 900 ->
     exists p,
       authenticateToken X cfg (Some ("Bearer " ++ chat)) w' = (Next p, tick w')
       /\ p = ChatClaims (payload_id user)
       /\ payload_userId p = payload_id user)
  /\ (forall w',
        clock (tick w') / 1000 < clock (Nat.iter 3 tick w) / 1000 + 86400 ->
        exists p,
          authenticateToken X cfg (Some ("Bearer " ++ sess)) w'
            = (Next p, tick w')
          /\ p = SessionClaims (payload_id user) (clock (Nat.iter 2 tick w))
          /\ payload_userId p = payload_id user)
  /\ (forall U email, user = IdentityClaims U email ->
                      payload_id user = Some U)
  /\ (forall U, user = ChatClaims U -> payload_id user = None)
  /\ (forall U sessionId, user = SessionClaims U sessionId ->
                          payload_id user = None).
Proof.
  intros Hjwt Hbody Hc Hcs Hs Hss.
  rewrite issueToken_unfold in Hbody. cbv zeta in Hbody.
  destruct (upsert_session _ _ _ _ _ _) as [e|st']; simpl in Hbody;
    [discriminate|].
  inversion Hbody; subst chat sess; clear Hbody.
  split; [|split; [|split; [|split]]].
  - intros w' Hnow. rewrite authenticateToken_bearer by assumption.
    unfold issued_chat_token. rewrite Hjwt by assumption.
    eexists. repeat split.
  - intros w' Hnow. rewrite authenticateToken_bearer by assumption.
    unfold issued_session_token. rewrite Hjwt by assumption.
    eexists. repeat split.
  - now intros U email ->.
  - now intros U ->.
  - now intros U sessionId ->.
Qed.

(** Whatever the store answers, the handler sends it one statement and no
    second one. *)
Lemma issueToken_one_statement user w :
  trace (snd (issueToken X cfg user w)) =
  (trace w ++ [EvQuery (UpsertSession (payload_id user)
                          (issued_session_token X cfg user w) []
                          (issued_date w))])%list.
Proof.
  rewrite issueToken_unfold. cbv zeta.
  destruct (upsert_session _ _ _ _ _ _); reflexivity.
Qed.

End SessionService.

(** ** The reference libraries meet the token contract *)

Lemma dec_pos_enc (p : positive) (r : string) :
  Ref.dec_pos (Ref.enc_pos p ++ r) = Some (p, r).
Proof. induction p as [p IH|p IH|]; simpl; try rewrite IH; reflexivity. Qed.

Lemma dec_Z_enc (z : Z) (r : string) :
  Ref.dec_Z (Ref.enc_Z z ++ r) = Some (z, r).
Proof. destruct z; simpl; try rewrite dec_pos_enc; reflexivity. Qed.

Lemma dec_opt_enc (o : option Z) (r : string) :
  Ref.dec_opt (Ref.enc_opt o ++ r) = Some (o, r).
Proof. destruct o; simpl; try rewrite dec_Z_enc; reflexivity. Qed.

Lemma take_chars_app (s r : string) :
  Ref.take_chars (String.length s) (s ++ r) = Some (s, r).
Proof. induction s as [|c s IH]; simpl; try rewrite IH; reflexivity. Qed.

Lemma str_app_assoc (a b c : string) : (a ++ b) ++ c = a ++ (b ++ c).
Proof. induction a as [|x a IH]; simpl; [|rewrite IH]; reflexivity. Qed.

Lemma str_app_nil (a : string) : a ++ "" = a.
Proof. induction a as [|x a IH]; simpl; [|rewrite IH]; reflexivity. Qed.

Lemma dec_str_enc (s r : string) :
  Ref.dec_str (Ref.enc_str s ++ r) = Some (s, r).
Proof.
  unfold Ref.dec_str, Ref.enc_str.
  rewrite str_app_assoc, dec_Z_enc, Nat2Z.id. apply take_chars_app.
Qed.

Lemma dec_payload_enc (p : jwt_payload) :
  Ref.dec_payload (Ref.enc_payload p) = Some p.
Proof.
  destruct p as [i e|u|u sid]; simpl.
  - rewrite dec_Z_enc.
    rewrite <- (str_app_nil (Ref.enc_str e)), dec_str_enc. reflexivity.
  - rewrite <- (str_app_nil (Ref.enc_opt u)), dec_opt_enc. reflexivity.
  - rewrite dec_opt_enc.
    rewrite <- (str_app_nil (Ref.enc_Z sid)), dec_Z_enc. reflexivity.
Qed.

Lemma ref_jwt_contract : jwt_contract Ref.libs.
Proof.
  intros p secret ttl iat now Hnow. simpl.
  unfold Ref.verify, Ref.sign.
  rewrite dec_Z_enc, dec_str_enc, String.eqb_refl.
  apply Z.ltb_lt in Hnow. rewrite Hnow. simpl.
  apply dec_payload_enc.
Qed.

(** A chat token presented at the gate is accepted, and [req.user] is then
    [{userId: U, type: 'chatbot'}]: the user id sits under [userId], while
    the handlers read [req.user.id]. *)
Lemma chat_token_at_the_gate X cfg U email (w w' : world) :
  jwt_contract X ->
  issued_chat_token X cfg (IdentityClaims U email) w <> "" ->
  has_space (issued_chat_token X cfg (IdentityClaims U email) w) = false ->
  clock (tick w') / 1000 < clock w / 1000 + 900 ->
  authenticateToken X cfg
    (Some ("Bearer " ++ issued_chat_token X cfg (IdentityClaims U email) w)) w'
  = (Next (ChatClaims (Some U)), tick w')
  /\ payload_id (ChatClaims (Some U)) = None.
Proof.
  intros Hjwt Hne Hsp Hnow.
  rewrite authenticateToken_bearer by assumption.
  unfold issued_chat_token. rewrite Hjwt; [split; reflexivity|].
  assert (clock w / 1000 <= clock (Nat.iter 1 tick w) / 1000)
    by (apply Z.div_le_mono; [lia | apply (iter_tick_clock_le 1)]).
  lia.
Qed.

(** ** The uniqueness constraints are an invariant *)

Lemma NoDup_snoc {A} (l : list A) (x : A) :
  NoDup l -> ~ In x l -> NoDup (l ++ [x]).
Proof.
  induction l as [|a l IH]; simpl; intros Hnd Hx.
  - constructor; [intros [] | constructor].
  - inversion Hnd as [|? ? Ha Hl]; subst. constructor.
    + rewrite in_app_iff. intros [Hin|[->|[]]]; [auto | apply Hx; now left].
    + apply IH; [assumption | intros Hin; apply Hx; now right].
Qed.

Lemma insert_user_wf email hash first_name last_name now st rows st' :
  store_wf st ->
  insert_user email hash first_name last_name now st = inr (rows, st') ->
  store_wf st'.
Proof.
  intros [Hs Hu]. unfold insert_user.
  destruct (text_param hash) as [?|hash']; [discriminate|].
  destruct (varchar_param 255 email) as [?|email']; [discriminate|].
  destruct (varchar_param 100 first_name) as [?|first']; [discriminate|].
  destruct (varchar_param 100 last_name) as [?|last']; [discriminate|].
  destruct (existsb _ _) eqn:Ex; [discriminate|].
  intros E. inversion E; subst; clear E. split; simpl; [assumption|].
  rewrite map_app. simpl. apply NoDup_snoc; [assumption|].
  intros Hin. apply in_map_iff in Hin. destruct Hin as (u & Hu' & Hin).
  assert (Ht : existsb (fun u => String.eqb (u_email u) (chars email'))
                       (users st) = true).
  { apply existsb_exists. exists u. split; [assumption|].
    now apply String.eqb_eq. }
  congruence.
Qed.

Lemma upsert_session_wf user_id token log expires now st st' :
  store_wf st ->
  upsert_session user_id token log expires now st = inr st' ->
  store_wf st'.
Proof.
  intros [Hs Hu]. unfold upsert_session.
  destruct (jsonb_param log) as [?|log'] eqn:Elog; [discriminate|].
  destruct (varchar_param 255 token) as [?|token']; [discriminate|].
  destruct (existsb _ _) eqn:Ex.
  - intros E. inversion E; subst; clear E. split; simpl; [|assumption].
    rewrite map_map.
    rewrite (map_ext _ s_session_token); [assumption|].
    intros s. now destruct (token_matches (chars token') s).
  - destruct (references_user st user_id); [|discriminate].
    intros E. inversion E; subst; clear E. split; simpl; [|assumption].
    rewrite map_app. simpl. apply NoDup_snoc; [assumption|].
    intros Hin. apply in_map_iff in Hin. destruct Hin as (s & Hs' & Hin).
    assert (Ht : existsb (token_matches (chars token')) (chat_sessions st)
                 = true).
    { apply existsb_exists. exists s. split; [assumption|].
      unfold token_matches. now apply String.eqb_eq. }
    congruence.
Qed.

Lemma update_conversation_log_wf log token st :
  store_wf st -> store_wf (update_conversation_log log token st).
Proof.
  intros [Hs Hu]. split; simpl; [|assumption].
  rewrite map_map.
  rewrite (map_ext _ s_session_token); [assumption|].
  intros s. now destruct (token_matches token s).
Qed.

Lemma register_preserves_wf X salt b w :
  store_wf (db w) -> store_wf (db (snd (register X salt b w))).
Proof.
  intros Hwf. rewrite register_unfold.
  destruct (userSchema_validate X b) as [e|v]; [assumption|]. cbv zeta.
  destruct (as_text _); [|assumption].
  destruct (select_user_id_by_email _ _); [|assumption].
  destruct (insert_user _ _ _ _ _ _) as [e|[rows st']] eqn:E; [assumption|].
  simpl. eapply insert_user_wf; eassumption.
Qed.

Lemma issueToken_preserves_wf X cfg user w :
  store_wf (db w) -> store_wf (db (snd (issueToken X cfg user w))).
Proof.
  intros Hwf. rewrite issueToken_unfold. cbv zeta.
  destruct (upsert_session _ _ _ _ _ _) as [e|st'] eqn:E; [assumption|].
  simpl. eapply upsert_session_wf; eassumption.
Qed.

Lemma sendMessage_preserves_wf X cfg py user b w :
  store_wf (db w) -> store_wf (db (snd (sendMessage X cfg py user b w))).
Proof.
  intros Hwf.
  destruct b as [[[|mc mr]|] [[|tc tr]|]];
    try (unfold sendMessage, try_catch, sendMessage_body; simpl; assumption).
  change {| mb_message := Some (String mc mr);
            mb_sessionToken := Some (String tc tr) |}
    with (mk_message (String mc mr) (String tc tr)).
  rewrite sendMessage_unfold by discriminate.
  destruct (as_text _); [|assumption].
  destruct (select_valid_session _ _ _) as [|session rest]; [assumption|].
  destruct (py _) as [[d|]|msg rd]; cbv zeta; try assumption.
  destruct (as_jsonb _); [|assumption].
  now apply update_conversation_log_wf.
Qed.

Lemma init_store_wf (t : time) : store_wf (Ref.init_store t).
Proof.
  split; simpl.
  - constructor.
  - repeat constructor; simpl; intuition discriminate.
Qed.

(** ** Concrete runs *)

(** The end-to-end scenario: register, register again, log in, ask for the
    tokens, send a message, send a message under a garbage session token. *)
Example end_to_end_scenario :
  let r1 := register Ref.libs "salt" Examples.alice_body Ref.w0 in
  let r2 := register Ref.libs "salt" Examples.alice_body (snd r1) in
  let l := login Ref.libs Ref.cfg0
             (mk_login "alice@example.com" "secret1") (snd r2) in
  let bearer := match body (fst l) with
                | BLogin t _ => Some ("Bearer " ++ t)
                | _ => None
                end in
  let i := route_token Ref.libs Ref.cfg0 bearer (snd l) in
  let session := match body (fst i) with
                 | BTokens _ s => s
                 | _ => ""
                 end in
  let m := route_message Ref.libs Ref.cfg0 Examples.py_up bearer
             (mk_message "hello" session) (snd i) in
  let g := route_message Ref.libs Ref.cfg0 Examples.py_up bearer
             (mk_message "hello" "garbage") (snd m) in
  map status [fst r1; fst r2; fst l; fst i; fst m; fst g]
    = [201; 409; 200; 200; 200; 400]
  /\ body (fst g) = BError "Invalid or expired session" None
  /\ map (fun s => List.length (log_or_empty s)) (chat_sessions (db (snd g)))
     = [2%nat].
Proof. vm_compute. repeat split. Qed.

(** Two token requests of one user within the same millisecond sign the
    same session token: the second one meets the conflict clause and leaves
    a single row. *)
Example issueToken_same_instant :
  let w := {| db := Ref.init_store Ref.t0; clock := Ref.t0;
              delays := []; trace := []; zone_skew := Ref.one_zone |} in
  let i1 := issueToken Ref.libs Ref.cfg0 Examples.john w in
  let i2 := issueToken Ref.libs Ref.cfg0 Examples.john
              {| db := db (snd i1); clock := Ref.t0;
                 delays := [0; 0; 0; 0; 9]%N; trace := [];
                 zone_skew := Ref.one_zone |} in
  body (fst i1) = body (fst i2)
  /\ status (fst i2) = 200
  /\ map s_updated_at (chat_sessions (db (snd i1))) = [Ref.t0]
  /\ map s_updated_at (chat_sessions (db (snd i2))) = [Ref.t0 + 9]
  /\ map s_expires_at (chat_sessions (db (snd i2))) = [Ref.t0 + 86400000].
Proof. vm_compute. repeat split. Qed.

(** The gate: no header is 401, a token that does not verify is 403. *)
Example gate_rejections :
  fst (route_token Ref.libs Ref.cfg0 None Ref.w0)
  = {| status := 401; body := BError "Access token required" None |}
  /\ fst (route_token Ref.libs Ref.cfg0 (Some "Bearer garbage") Ref.w0)
     = {| status := 403; body := BError "Invalid or expired token" None |}
  /\ fst (route_message Ref.libs Ref.cfg0 Examples.py_up None
            (mk_message "hello" "session-of-john") Examples.w_live)
     = {| status := 401; body := BError "Access token required" None |}.
Proof. vm_compute. repeat split. Qed.

(** ** Counterexamples to the claims as first stated *)


(** C9 as stated fails.  John's session is valid; presented by John the
    message is answered 200, presented by Jane it is answered 500, because
    the collaborator receives the caller's [user_id] and answers by it. *)
Lemma caller_independence_counterexample :
  valid_session "session-of-john" (clock (tick Examples.w_live))
                (db Examples.w_live)
  /\ status (fst (sendMessage Ref.libs Ref.cfg0 Examples.py_for_john
                    Examples.john (mk_message "hello" "session-of-john")
                    Examples.w_live)) = 200
  /\ status (fst (sendMessage Ref.libs Ref.cfg0 Examples.py_for_john
                    Examples.jane (mk_message "hello" "session-of-john")
                    Examples.w_live)) = 500
  /\ fst (sendMessage Ref.libs Ref.cfg0 Examples.py_for_john
            Examples.john (mk_message "hello" "session-of-john")
            Examples.w_live)
     <> fst (sendMessage Ref.libs Ref.cfg0 Examples.py_for_john
               Examples.jane (mk_message "hello" "session-of-john")
               Examples.w_live)
  /\ db (snd (sendMessage Ref.libs Ref.cfg0 Examples.py_for_john
                Examples.john (mk_message "hello" "session-of-john")
                Examples.w_live))
     <> db (snd (sendMessage Ref.libs Ref.cfg0 Examples.py_for_john
                   Examples.jane (mk_message "hello" "session-of-john")
                   Examples.w_live)).
Proof.
  split; [|split; [|split; [|split]]].
  - exists Examples.john_session. split; [now left|].
    split; [reflexivity | vm_compute; reflexivity].
  - vm_compute. reflexivity.
  - vm_compute. reflexivity.
  - vm_compute. discriminate.
  - vm_compute. discriminate.
Qed.

(** C1 as stated fails.  The message and the session token are not empty
    and no row carries the token, yet the answer is 500, not 400: the token
    holds the zero byte, the store refuses it as a parameter of the SELECT
    and the [catch] block answers.  The caller can tell this token from
    another one that was never issued. *)
Lemma invalid_session_zero_byte_counterexample :
  Examples.zero_token <> ""
  /\ never_existed Examples.zero_token (db Examples.w_live)
  /\ no_valid_session Examples.zero_token (clock (tick Examples.w_live))
                      (db Examples.w_live)
  /\ never_existed "garbage" (db Examples.w_live)
  /\ status (fst (sendMessage Ref.libs Ref.cfg0 Examples.py_up Examples.john
                    (mk_message "hello" Examples.zero_token) Examples.w_live))
     = 500
  /\ fst (sendMessage Ref.libs Ref.cfg0 Examples.py_up Examples.john
            (mk_message "hello" Examples.zero_token) Examples.w_live)
     <> fst (sendMessage Ref.libs Ref.cfg0 Examples.py_up Examples.john
               (mk_message "hello" "garbage") Examples.w_live).
Proof.
  assert (Hnever : never_existed Examples.zero_token (db Examples.w_live)).
  { intros s [<-|[]]. discriminate. }
  split; [discriminate|]. split; [exact Hnever|].
  split; [exact (never_existed_no_valid _ _ _ Hnever)|].
  split; [intros s [<-|[]]; discriminate|].
  split; [vm_compute; reflexivity | vm_compute; discriminate].
Qed.

(** C3 as stated fails.  John presents the chat token the session service
    issued to him; the gate lets it through and the service issues him two
    tokens.  Both verify, under the same secret, to claims whose [userId]
    is absent: the handler signs [req.user.id], and the claims of a chat
    token carry [userId] and no [id]. *)
Lemma issued_tokens_name_no_user_counterexample :
  let out := route_token Ref.libs Ref.cfg0 Scenario.bearer_chat_john
               Examples.w_live in
  payload_userId (ChatClaims (Some 1)) = Some 1
  /\ fst (authenticateToken Ref.libs Ref.cfg0 Scenario.bearer_chat_john
            Examples.w_live)
     = Next (ChatClaims (Some 1))
  /\ status (fst out) = 200
  /\ exists chat sess,
       body (fst out) = BTokens chat sess
       /\ (exists p, jwt_verify Ref.libs chat (jwt_secret Ref.cfg0)
                       (clock (snd out)) = Some p
                     /\ payload_userId p = None)
       /\ (exists p, jwt_verify Ref.libs sess (jwt_secret Ref.cfg0)
                       (clock (snd out)) = Some p
                     /\ payload_userId p = None).
Proof.
  split; [reflexivity|]. split; [vm_compute; reflexivity|].
  split; [vm_compute; reflexivity|].
  eexists. eexists. split; [vm_compute; reflexivity|].
  split; eexists; split; vm_compute; reflexivity.
Qed.


(** C6 as stated fails.  The caller is authenticated: the gate accepts the
    login token.  The user row its [id] names is not in the store, so the
    store refuses the row (the foreign key of [chat_sessions.user_id]):
    the answer is 500, no session is persisted and no row is refreshed. *)
Lemma issueToken_unknown_user_counterexample :
  let out := route_token Ref.libs Ref.cfg0 Scenario.bearer_ghost Ref.w0 in
  fst (authenticateToken Ref.libs Ref.cfg0 Scenario.bearer_ghost Ref.w0)
    = Next Examples.ghost
  /\ references_user (db Ref.w0) (payload_id Examples.ghost) = false
  /\ status (fst out) = 500
  /\ db (snd out) = db Ref.w0
  /\ chat_sessions (db (snd out)) = [].
Proof. vm_compute. repeat split. Qed.

(** The zero byte in a name: the body passes validation, fits the columns
    and its email is not registered, and the INSERT is refused. *)
Example register_zero_byte_name :
  (exists v, userSchema_validate Ref.libs Examples.zero_name_body = inr v)
  /\ fst (register Ref.libs "salt" Examples.zero_name_body Ref.w0)
     = {| status := 500; body := BError "Internal server error" None |}
  /\ db (snd (register Ref.libs "salt" Examples.zero_name_body Ref.w0))
     = db Ref.w0.
Proof.
  split; [eexists; vm_compute; reflexivity|].
  split; vm_compute; reflexivity.
Qed.

(** The zone of the process in the expiry.  With the process five and a
    half hours ahead of the store, the row [issueToken] writes expires 29
    hours and 30 minutes after the last clock reading of the handler, 5 ms
    before the store's [NOW()] that stamps [created_at]. *)
Example issueToken_zone_ahead :
  map (fun s => s_expires_at s - s_created_at s)
      (chat_sessions (db (snd (issueToken Ref.libs Ref.cfg0 Examples.john
                                 Ref.w_ahead))))
  = [86400000 + 19800000 - 5].
Proof. vm_compute. reflexivity. Qed.

(** ** The theorems at work on concrete requests *)

Lemma store_with_session_wf : store_wf Examples.store_with_session.
Proof.
  split; simpl.
  - repeat constructor. simpl. intuition.
  - repeat constructor; simpl; intuition discriminate.
Qed.

(** John's session token presented two days after issuance, and a token
    that was never issued. *)
Lemma invalid_or_expired_session_witness :
  has_expired "session-of-john" (clock (tick Examples.w_late))
              (db Examples.w_late)
  /\ never_existed "garbage" (db Examples.w_live)
  /\ fst (sendMessage Ref.libs Ref.cfg0 Examples.py_up Examples.john
            (mk_message "hello" "session-of-john") Examples.w_late)
     = {| status := 400; body := BError "Invalid or expired session" None |}
  /\ db (snd (sendMessage Ref.libs Ref.cfg0 Examples.py_up Examples.john
                (mk_message "hello" "session-of-john") Examples.w_late))
     = db Examples.w_late
  /\ fst (sendMessage Ref.libs Ref.cfg0 Examples.py_up Examples.john
            (mk_message "hello" "session-of-john") Examples.w_late)
     = fst (sendMessage Ref.libs Ref.cfg0 Examples.py_up Examples.jane
              (mk_message "hi" "garbage") Examples.w_live).
Proof.
  assert (Hno : no_valid_session "session-of-john"
                  (clock (tick Examples.w_late)) (db Examples.w_late)).
  { intros s [<-|[]] _. vm_compute. discriminate. }
  assert (Hnever : never_existed "garbage" (db Examples.w_live)).
  { intros s [<-|[]]. discriminate. }
  split.
  { split; [|exact Hno].
    exists Examples.john_session. split; [now left | reflexivity]. }
  split; [exact Hnever|].
  apply (invalid_or_expired_session Ref.libs Ref.cfg0 Examples.py_up
           Examples.john "hello" "session-of-john" Examples.w_late
           Examples.jane "hi" "garbage" Examples.w_live);
    [discriminate | discriminate | reflexivity | exact Hno
    | discriminate | discriminate | reflexivity
    | exact (never_existed_no_valid _ (clock (tick Examples.w_live)) _ Hnever)].
Defined.

Lemma message_appends_exchange_witness :
  store_wf (db Examples.w_live)
  /\ status (fst (sendMessage Ref.libs Ref.cfg0 Examples.py_up Examples.jane
                    (mk_message "hello" "session-of-john") Examples.w_live))
     = 200
  /\ exists message token d t_user t_assistant,
       mk_message "hello" "session-of-john" = mk_message message token /\
       valid_session token (clock (tick Examples.w_live)) (db Examples.w_live) /\
       Examples.py_up (forwarded Examples.jane message token) = PyOk (Some d) /\
       clock Examples.w_live <= t_user /\
       clock Examples.w_live <= t_assistant /\
       transcript token
         (db (snd (sendMessage Ref.libs Ref.cfg0 Examples.py_up Examples.jane
                     (mk_message "hello" "session-of-john") Examples.w_live)))
       = (transcript token (db Examples.w_live) ++
          [ {| e_role := RoleUser; e_content := Some message;
               e_timestamp := t_user |};
            {| e_role := RoleAssistant; e_content := response d;
               e_timestamp := t_assistant |} ])%list.
Proof.
  split; [exact store_with_session_wf|].
  split; [vm_compute; reflexivity|].
  apply (message_appends_exchange Ref.libs Ref.cfg0 Examples.py_up
           Examples.jane (mk_message "hello" "session-of-john")
           Examples.w_live);
    [exact store_with_session_wf | vm_compute; reflexivity].
Defined.

(** John's two tokens at the gate, one minute after they were issued:
    each is accepted and names user 1. *)
Lemma issued_tokens_recover_user_witness :
  jwt_contract Ref.libs
  /\ body (fst (issueToken Ref.libs Ref.cfg0 Examples.john Ref.w0))
     = BTokens (issued_chat_token Ref.libs Ref.cfg0 Examples.john Ref.w0)
               (issued_session_token Ref.libs Ref.cfg0 Examples.john Ref.w0)
  /\ (exists p,
        authenticateToken Ref.libs Ref.cfg0
          (Some ("Bearer " ++
                 issued_chat_token Ref.libs Ref.cfg0 Examples.john Ref.w0))
          Examples.w_live
        = (Next p, tick Examples.w_live)
        /\ p = ChatClaims (Some 1) /\ payload_userId p = Some 1)
  /\ (exists p,
        authenticateToken Ref.libs Ref.cfg0
          (Some ("Bearer " ++
                 issued_session_token Ref.libs Ref.cfg0 Examples.john Ref.w0))
          Examples.w_live
        = (Next p, tick Examples.w_live)
        /\ p = SessionClaims (Some 1) (clock (Nat.iter 2 tick Ref.w0))
        /\ payload_userId p = Some 1).
Proof.
  split; [exact ref_jwt_contract|].
  split; [vm_compute; reflexivity|].
  destruct (issued_tokens_recover_user Ref.libs Ref.cfg0 Examples.john Ref.w0
              (issued_chat_token Ref.libs Ref.cfg0 Examples.john Ref.w0)
              (issued_session_token Ref.libs Ref.cfg0 Examples.john Ref.w0)
              ref_jwt_contract)
    as (Hchat & Hsess & _);
    [vm_compute; reflexivity | vm_compute; discriminate
    | vm_compute; reflexivity | vm_compute; discriminate
    | vm_compute; reflexivity |].
  split.
  - apply (Hchat Examples.w_live). vm_compute. reflexivity.
  - apply (Hsess Examples.w_live). vm_compute. reflexivity.
Defined.



(** John asks for his tokens, the process five and a half hours ahead of
    the store: one write, one row, which expires 29 hours and 30 minutes
    after the [Date] was taken. *)
Lemma issueToken_single_write_witness :
  references_user (db Ref.w_ahead) (payload_id Examples.john) = true
  /\ (String.length
        (issued_session_token Ref.libs Ref.cfg0 Examples.john Ref.w_ahead)
      <= 255)%nat
  /\ has_nul (issued_session_token Ref.libs Ref.cfg0 Examples.john Ref.w_ahead)
     = false
  /\ status (fst (issueToken Ref.libs Ref.cfg0 Examples.john Ref.w_ahead)) = 200
  /\ List.length (filter is_write_event
                    (trace (snd (issueToken Ref.libs Ref.cfg0 Examples.john
                                   Ref.w_ahead))))
     = 1%nat
  /\ map s_conversation_log
       (chat_sessions (db (snd (issueToken Ref.libs Ref.cfg0 Examples.john
                                  Ref.w_ahead))))
     = [Some []]
  /\ map s_expires_at
       (chat_sessions (db (snd (issueToken Ref.libs Ref.cfg0 Examples.john
                                  Ref.w_ahead))))
     = [issued_date Ref.w_ahead + 19800000].
Proof.
  assert (Hfit : (String.length
                    (issued_session_token Ref.libs Ref.cfg0 Examples.john
                       Ref.w_ahead)
                  <= 255)%nat).
  { apply Nat.leb_le. vm_compute. reflexivity. }
  assert (Hz : has_nul (issued_session_token Ref.libs Ref.cfg0 Examples.john
                          Ref.w_ahead) = false).
  { vm_compute. reflexivity. }
  split; [reflexivity|]. split; [exact Hfit|]. split; [exact Hz|].
  destruct (issueToken_single_write Ref.libs Ref.cfg0 Examples.john Ref.w_ahead
              eq_refl Hfit Hz)
    as (Hresp & _ & Hwrites & _ & _ & _ & Hskew & Hnew & _).
  split; [rewrite Hresp; reflexivity|].
  split; [rewrite Hwrites; reflexivity|].
  destruct Hnew as (row & Hrows & _ & _ & Hlog & Hexp & _).
  { intros s []. }
  rewrite Hrows. simpl. rewrite Hlog, Hexp, Hskew. split; reflexivity.
Defined.

Lemma collaborator_failure_surfaced_witness :
  valid_session "session-of-john" (clock (tick Examples.w_live))
                (db Examples.w_live)
  /\ status (fst (sendMessage Ref.libs Ref.cfg0 Examples.py_down Examples.john
                    (mk_message "hello" "session-of-john") Examples.w_live))
     = 500
  /\ db (snd (sendMessage Ref.libs Ref.cfg0 Examples.py_down Examples.john
                (mk_message "hello" "session-of-john") Examples.w_live))
     = db Examples.w_live
  /\ List.length
       (filter is_http_event
          (trace (snd (sendMessage Ref.libs Ref.cfg0 Examples.py_down
                         Examples.john (mk_message "hello" "session-of-john")
                         Examples.w_live))))
     = 1%nat.
Proof.
  assert (Hv : valid_session "session-of-john" (clock (tick Examples.w_live))
                 (db Examples.w_live)).
  { exists Examples.john_session. split; [now left|].
    split; [reflexivity | vm_compute; reflexivity]. }
  split; [exact Hv|].
  destruct (collaborator_failure_surfaced Ref.libs Ref.cfg0 Examples.py_down
              Examples.john "hello" "session-of-john" Examples.w_live
              "connect ECONNREFUSED 127.0.0.1:5000" None)
    as (Hst & _ & Hdb & _ & Hhttp);
    [discriminate | discriminate | exact Hv | reflexivity |].
  split; [exact Hst|]. split; [exact Hdb | exact Hhttp].
Defined.

Lemma register_rejects_invalid_input_witness :
  ~ valid_registration Ref.libs Examples.short_password_body
  /\ status (fst (register Ref.libs "salt" Examples.short_password_body Ref.w0))
     = 400
  /\ snd (register Ref.libs "salt" Examples.short_password_body Ref.w0)
     = Ref.w0.
Proof.
  assert (Hbad : ~ valid_registration Ref.libs Examples.short_password_body).
  { intros (e & p & f & l & _ & _ & _ & Hp & Hlen & _).
    simpl in Hp. inversion Hp; subst p. simpl in Hlen. lia. }
  split; [exact Hbad|].
  apply (register_rejects_invalid_input Ref.libs "salt"
           Examples.short_password_body Ref.w0 Hbad).
Defined.

Lemma caller_matters_only_through_collaborator_witness :
  valid_session "session-of-john" (clock (tick Examples.w_live))
                (db Examples.w_live)
  /\ fst (sendMessage Ref.libs Ref.cfg0 Examples.py_up Examples.john
            (mk_message "hello" "session-of-john") Examples.w_live)
     = fst (sendMessage Ref.libs Ref.cfg0 Examples.py_up Examples.jane
              (mk_message "hello" "session-of-john") Examples.w_live)
  /\ db (snd (sendMessage Ref.libs Ref.cfg0 Examples.py_up Examples.john
                (mk_message "hello" "session-of-john") Examples.w_live))
     = db (snd (sendMessage Ref.libs Ref.cfg0 Examples.py_up Examples.jane
                  (mk_message "hello" "session-of-john") Examples.w_live))
  /\ fst (sendMessage Ref.libs Ref.cfg0 Examples.py_up Examples.john
            (mk_message "hello" "session-of-john") Examples.w_live)
     <> invalid_session_response.
Proof.
  assert (Hv : valid_session "session-of-john" (clock (tick Examples.w_live))
                 (db Examples.w_live)).
  { exists Examples.john_session. split; [now left|].
    split; [reflexivity | vm_compute; reflexivity]. }
  split; [exact Hv|].
  apply (caller_matters_only_through_collaborator Ref.libs Ref.cfg0
           Examples.py_up Examples.john Examples.jane "hello"
           "session-of-john" Examples.w_live);
    [discriminate | discriminate | exact Hv | reflexivity].
Defined.

Lemma message_touches_only_log_witness :
  store_wf (db Examples.w_live)
  /\ status (fst (sendMessage Ref.libs Ref.cfg0 Examples.py_up Examples.jane
                    (mk_message "hello" "session-of-john") Examples.w_live))
     = 200
  /\ exists token,
       Some "session-of-john" = Some token /\
       List.length (filter (token_matches token)
                      (chat_sessions (db Examples.w_live))) = 1%nat /\
       users (db (snd (sendMessage Ref.libs Ref.cfg0 Examples.py_up
                         Examples.jane (mk_message "hello" "session-of-john")
                         Examples.w_live)))
       = users (db Examples.w_live) /\
       appointments
         (db (snd (sendMessage Ref.libs Ref.cfg0 Examples.py_up
                     Examples.jane (mk_message "hello" "session-of-john")
                     Examples.w_live)))
       = appointments (db Examples.w_live) /\
       Forall2 (fun r r' => same_but_log r r' /\
                            (s_session_token r <> token -> r' = r))
         (chat_sessions (db Examples.w_live))
         (chat_sessions
            (db (snd (sendMessage Ref.libs Ref.cfg0 Examples.py_up
                        Examples.jane (mk_message "hello" "session-of-john")
                        Examples.w_live)))).
Proof.
  split; [exact store_with_session_wf|].
  split; [vm_compute; reflexivity|].
  apply (message_touches_only_log Ref.libs Ref.cfg0 Examples.py_up
           Examples.jane (mk_message "hello" "session-of-john")
           Examples.w_live store_with_session_wf).
  vm_compute. reflexivity.
Defined.

(** * Further properties of the handlers *)

(** ** Every way through a handler *)

Ltac clock_bounds :=
  unfold with_trace, with_db, tick; simpl; lia.

Ltac quiet := apply StepQuiet; [reflexivity | clock_bounds | reflexivity].

Lemma message_body_cases (b : message_body) :
  (truthy (mb_message b) && truthy (mb_sessionToken b) = false)
  \/ (exists message token,
        b = mk_message message token /\ message <> "" /\ token <> "").
Proof.
  destruct b as [[[|mc mr]|] [[|tc tr]|]]; simpl; auto.
  right. exists (String mc mr), (String tc tr).
  repeat split; discriminate.
Qed.

Lemma sendMessage_missing_fields X cfg py user b w :
  truthy (mb_message b) && truthy (mb_sessionToken b) = false ->
  sendMessage X cfg py user b w =
  ({| status := 400;
      body := BError "Message and session token required" None |}, w).
Proof.
  intros Hm. unfold sendMessage, try_catch, sendMessage_body.
  destruct (truthy (mb_message b)), (truthy (mb_sessionToken b));
    try discriminate; reflexivity.
Qed.

Lemma login_body_cases (b : login_body) :
  (truthy (lb_email b) && truthy (lb_password b) = false)
  \/ (exists email password,
        b = mk_login email password /\ email <> "" /\ password <> "").
Proof.
  destruct b as [[[|ec er]|] [[|pc pr]|]]; simpl; auto.
  right. exists (String ec er), (String pc pr).
  repeat split; discriminate.
Qed.

Lemma login_missing_fields X cfg b w :
  truthy (lb_email b) && truthy (lb_password b) = false ->
  login X cfg b w =
  ({| status := 400; body := BError "Email and password required" None |}, w).
Proof.
  intros Hm. unfold login, try_catch, login_body_run.
  destruct (truthy (lb_email b)), (truthy (lb_password b));
    try discriminate; reflexivity.
Qed.

(** The gate answers 401 without reading the clock, answers 403 after the
    verification, or lets the request through with the verified claims. *)
Lemma authenticateToken_cases X cfg authHeader w :
  (truthy (bearer_token authHeader) = false /\
   authenticateToken X cfg authHeader w =
   (Done {| status := 401; body := BError "Access token required" None |}, w))
  \/ (exists token,
        bearer_token authHeader = Some token /\ token <> "" /\
        jwt_verify X token (jwt_secret cfg) (clock (tick w)) = None /\
        authenticateToken X cfg authHeader w =
        (Done {| status := 403;
                 body := BError "Invalid or expired token" None |}, tick w))
  \/ (exists token user,
        bearer_token authHeader = Some token /\ token <> "" /\
        jwt_verify X token (jwt_secret cfg) (clock (tick w)) = Some user /\
        authenticateToken X cfg authHeader w = (Next user, tick w)).
Proof.
  unfold authenticateToken.
  destruct (bearer_token authHeader) as [[|c r]|] eqn:E; simpl; auto.
  run_monad.
  destruct (jwt_verify X (String c r) (jwt_secret cfg) _) as [user|] eqn:V.
  - right. right. exists (String c r), user.
    repeat split; try discriminate; assumption.
  - right. left. exists (String c r).
    repeat split; try discriminate; assumption.
Qed.

Lemma protected_cases X cfg authHeader handler w :
  protected X cfg authHeader handler w =
    ({| status := 401; body := BError "Access token required" None |}, w)
  \/ protected X cfg authHeader handler w =
    ({| status := 403; body := BError "Invalid or expired token" None |},
     tick w)
  \/ (exists user, protected X cfg authHeader handler w = handler user (tick w)).
Proof.
  unfold protected.
  destruct (authenticateToken_cases X cfg authHeader w)
    as [[_ E]|[(token & _ & _ & _ & E)|(token & user & _ & _ & _ & E)]];
    rewrite E; eauto.
Qed.

(** ** One request is one step *)

Lemma step_tick (w w' : world) : step (tick w) w' -> step w w'.
Proof.
  pose proof (tick_clock_le w) as Ht.
  intros [Hdb Hc Hz|? ? ? ? ? ? Hins Hc Hz|? ? ? ? Hup Hc He Hz
         |? ? ? ? ? ? ? ? ? Hsel Hlog Hdb H1 H2 H3 H4 Hz].
  - apply StepQuiet; simpl in *; [assumption | lia | assumption].
  - eapply StepUser; [exact Hins | simpl in *; lia | assumption].
  - eapply StepSession; [exact Hup | simpl in *; lia | assumption | assumption].
  - eapply StepLog; try eassumption. simpl in *. lia.
Qed.

Lemma register_step X salt b w : step w (snd (register X salt b w)).
Proof.
  rewrite register_unfold.
  destruct (userSchema_validate X b) as [e|v]; [quiet|].
  cbv zeta.
  destruct (as_text _); [|quiet].
  destruct (select_user_id_by_email _ _);
    [|quiet].
  destruct (insert_user _ _ _ _ _ _) as [e|[rows st']] eqn:E.
  - quiet.
  - eapply StepUser; [exact E | clock_bounds | reflexivity].
Qed.

Lemma login_step X cfg b w : step w (snd (login X cfg b w)).
Proof.
  destruct (login_body_cases b) as [Hm|(email & password & -> & He & Hp)].
  - rewrite login_missing_fields by assumption. quiet.
  - rewrite login_unfold by assumption. cbv zeta.
    destruct (as_text _); [|quiet].
    destruct (select_user_by_email _ _) as [|user rest];
      [quiet|].
    destruct (bcrypt_compare X _ _);
      quiet.
Qed.

Lemma issueToken_step X cfg user w : step w (snd (issueToken X cfg user w)).
Proof.
  rewrite issueToken_unfold. cbv zeta.
  destruct (upsert_session _ _ _ _ _ _) as [e|st'] eqn:E.
  - quiet.
  - apply (StepSession _ _ (payload_id user)
             (issued_session_token X cfg user w) (issued_date w)
             (clock (Nat.iter 5 tick w)));
      [exact E | clock_bounds | apply issued_date_bounds | reflexivity].
Qed.

Lemma sendMessage_step X cfg py user b w :
  step w (snd (sendMessage X cfg py user b w)).
Proof.
  destruct (message_body_cases b) as [Hm|(message & token & -> & Hm & Ht)].
  - rewrite sendMessage_missing_fields by assumption.
    quiet.
  - rewrite sendMessage_unfold by assumption. cbv zeta.
    destruct (as_text _); [|quiet].
    destruct (select_valid_session _ _ _) as [|session rest] eqn:Esel;
      [quiet|].
    destruct (py _) as [[d|]|msg rd];
      try (quiet).
    destruct (as_jsonb _) as [log|] eqn:Elog; [|quiet].
    apply as_jsonb_entries in Elog.
    eapply StepLog with (message := message) (content := response d);
      [exact Esel | exact Elog | reflexivity | | | | |];
      try reflexivity; clock_bounds.
Qed.

Lemma protected_step X cfg authHeader handler w :
  (forall user w0, step w0 (snd (handler user w0))) ->
  step w (snd (protected X cfg authHeader handler w)).
Proof.
  intros Hh.
  destruct (protected_cases X cfg authHeader handler w)
    as [E|[E|(user & E)]]; rewrite E.
  - quiet.
  - quiet.
  - apply step_tick, Hh.
Qed.

Lemma app_step X cfg py r w : step w (snd (app X cfg py r w)).
Proof.
  destruct r as [salt b|b|authorization|authorization b|]; simpl.
  - pose proof (register_step X salt b w).
    destruct (register X salt b w); assumption.
  - pose proof (login_step X cfg b w).
    destruct (login X cfg b w); assumption.
  - pose proof (protected_step X cfg authorization (issueToken X cfg) w
                  (issueToken_step X cfg)) as Hs.
    unfold route_token. destruct (protected _ _ _ _ _); assumption.
  - pose proof (protected_step X cfg authorization
                  (fun user => sendMessage X cfg py user b) w
                  (fun user => sendMessage_step X cfg py user b)) as Hs.
    unfold route_message. destruct (protected _ _ _ _ _); assumption.
  - quiet.
Qed.

Lemma run_invariant X cfg py (P : world -> Prop) :
  (forall w w', step w w' -> P w -> P w') ->
  forall rs w, P w -> P (run X cfg py rs w).
Proof.
  intros Hstep rs. induction rs as [|r rs IH]; simpl; intros w Hw.
  - assumption.
  - apply IH. eapply Hstep; [apply app_step | assumption].
Qed.

(** ** What the statements do to the tables *)

Lemma insert_user_inv email hash first_name last_name now st rows st' :
  insert_user email hash first_name last_name now st = inr (rows, st') ->
  (exists row, users st' = users st ++ [row] /\ rows = [user_public row])%list
  /\ appointments st' = appointments st
  /\ chat_sessions st' = chat_sessions st.
Proof.
  unfold insert_user.
  destruct (text_param hash) as [?|hash']; [discriminate|].
  destruct (varchar_param 255 email) as [?|email']; [discriminate|].
  destruct (varchar_param 100 first_name) as [?|first']; [discriminate|].
  destruct (varchar_param 100 last_name) as [?|last']; [discriminate|].
  destruct (existsb _ _); [discriminate|].
  intros E. inversion E; subst; clear E. simpl.
  split; [eexists; split; reflexivity | split; reflexivity].
Qed.

(** The row a successful INSERT appends. *)
Lemma insert_user_row email hash first_name last_name now st rows st' :
  insert_user email hash first_name last_name now st = inr (rows, st') ->
  exists row,
    (users st' = users st ++ [row])%list /\ rows = [user_public row]
    /\ varchar 255 email = inr (u_email row)
    /\ u_password_hash row = hash
    /\ has_nul email = false.
Proof.
  unfold insert_user.
  destruct (text_param hash) as [?|hash'] eqn:Eh; [discriminate|].
  destruct (varchar_param 255 email) as [?|email'] eqn:Ee; [discriminate|].
  destruct (varchar_param 100 first_name) as [?|first']; [discriminate|].
  destruct (varchar_param 100 last_name) as [?|last']; [discriminate|].
  destruct (existsb _ _); [discriminate|].
  intros E. inversion E; subst; clear E. simpl.
  apply varchar_param_inv in Ee. destruct Ee as [Hz Hv].
  apply text_param_inv in Eh.
  eexists. split; [reflexivity|]. split; [reflexivity|].
  split; [exact Hv|]. split; [exact Eh | exact Hz].
Qed.

Lemma upsert_session_accepts user_id token log expires now st st' :
  upsert_session user_id token log expires now st = inr st' ->
  has_nul token = false.
Proof.
  unfold upsert_session.
  destruct (jsonb_param log) as [?|log']; [discriminate|].
  destruct (varchar_param 255 token) as [?|token'] eqn:Et; [discriminate|].
  intros _. now apply varchar_param_inv in Et.
Qed.

Lemma upsert_session_inv user_id token log expires now st st' :
  upsert_session user_id token log expires now st = inr st' ->
  users st' = users st /\ appointments st' = appointments st /\
  ((exists token',
      chat_sessions st' =
      map (fun s => if token_matches token' s then touch_session now s else s)
          (chat_sessions st))
   \/ (exists row,
         chat_sessions st' = (chat_sessions st ++ [row])%list /\
         references_user st user_id = true /\
         s_user_id row = user_id /\ s_conversation_log row = Some log /\
         s_created_at row = now /\ s_expires_at row = expires)).
Proof.
  unfold upsert_session.
  destruct (jsonb_param log) as [?|log'] eqn:Elog; [discriminate|].
  destruct (varchar_param 255 token) as [?|token']; [discriminate|].
  destruct (existsb _ _).
  - intros E. inversion E; subst; clear E. simpl.
    split; [reflexivity|]. split; [reflexivity|]. left. eauto.
  - destruct (references_user st user_id) eqn:Hfk; [|discriminate].
    intros E. inversion E; subst; clear E. simpl.
    split; [reflexivity|]. split; [reflexivity|]. right.
    eexists. split; [reflexivity|]. repeat split; try assumption.
    unfold s_conversation_log. simpl. f_equal.
    unfold jsonb_param in Elog.
    destruct (as_jsonb log) as [j|] eqn:Ej; [|discriminate].
    injection Elog as <-. now apply as_jsonb_entries.
Qed.

Lemma references_user_grows st st' new user_id :
  users st' = (users st ++ new)%list ->
  references_user st user_id = true -> references_user st' user_id = true.
Proof.
  intros Hu. destruct user_id as [i|]; simpl; [|reflexivity].
  rewrite Hu, existsb_app. intros ->. reflexivity.
Qed.

Lemma references_user_same st st' user_id :
  users st' = users st ->
  references_user st' user_id = references_user st user_id.
Proof. intros Hu. destruct user_id; simpl; now rewrite ?Hu. Qed.

(** ** The invariants, step by step *)

Lemma step_wf w w' : step w w' -> store_wf (db w) -> store_wf (db w').
Proof.
  intros [Hdb _ _|? ? ? ? ? ? Hins _ _|? ? ? ? Hup _ _ _
         |? ? ? ? ? ? ? ? ? _ _ Hdb _ _ _ _ _] Hwf.
  - now rewrite Hdb.
  - eapply insert_user_wf; eassumption.
  - eapply upsert_session_wf; eassumption.
  - rewrite Hdb. now apply update_conversation_log_wf.
Qed.

Lemma step_references w w' :
  step w w' ->
  sessions_reference_users (db w) -> sessions_reference_users (db w').
Proof.
  intros [Hdb _ _|? ? ? ? ? ? Hins _ _|? ? ? ? Hup _ _ _
         |? ? ? ? ? ? ? ? ? _ _ Hdb _ _ _ _ _] Hfk s Hin.
  - rewrite Hdb in *. now apply Hfk.
  - apply insert_user_inv in Hins.
    destruct Hins as ((row & Hu & _) & _ & Hs).
    rewrite Hs in Hin. eapply references_user_grows; [exact Hu | now apply Hfk].
  - apply upsert_session_inv in Hup.
    destruct Hup as (Hu & _ & [(token' & Hs)|(row & Hs & Hrow & Hid & _)]);
      rewrite (references_user_same _ _ _ Hu); rewrite Hs in Hin.
    + apply in_map_iff in Hin. destruct Hin as (s0 & <- & Hin0).
      destruct (token_matches token' s0); simpl; now apply Hfk.
    + apply in_app_iff in Hin. destruct Hin as [Hin|[<-|[]]].
      * now apply Hfk.
      * now rewrite Hid.
  - rewrite Hdb in *. simpl in Hin.
    apply in_map_iff in Hin. destruct Hin as (s0 & <- & Hin0).
    rewrite (references_user_same (db w)) by reflexivity.
    destruct (token_matches token s0); simpl; now apply Hfk.
Qed.

Lemma step_zone_skew w w' : step w w' -> zone_skew w' = zone_skew w.
Proof.
  intros [_ _ Hz|? ? ? ? ? ? _ _ Hz|? ? ? ? _ _ _ Hz
         |? ? ? ? ? ? ? ? ? _ _ _ _ _ _ _ Hz]; exact Hz.
Qed.

Lemma step_lifetime bound w w' :
  step w w' -> (forall d, zone_skew w d <= bound) ->
  lifetime_within (86400000 + bound) (db w) ->
  lifetime_within (86400000 + bound) (db w').
Proof.
  intros [Hdb _ _|? ? ? ? ? ? Hins _ _|? ? date ? Hup _ Hexp _
         |? ? ? ? ? ? ? ? ? _ _ Hdb _ _ _ _ _] Hb Hl s Hin.
  - rewrite Hdb in *. exact (Hl s Hin).
  - apply insert_user_inv in Hins. destruct Hins as (_ & _ & Hs).
    rewrite Hs in Hin. exact (Hl s Hin).
  - apply upsert_session_inv in Hup.
    destruct Hup as (_ & _ & [(token' & Hs)|(row & Hs & _ & _ & _ & Hc & He)]);
      rewrite Hs in Hin.
    + apply in_map_iff in Hin. destruct Hin as (s0 & <- & Hin0).
      destruct (token_matches token' s0); exact (Hl s0 Hin0).
    + apply in_app_iff in Hin. destruct Hin as [Hin|[<-|[]]].
      * exact (Hl s Hin).
      * rewrite Hc, He. specialize (Hb date). lia.
  - rewrite Hdb in *. simpl in Hin.
    apply in_map_iff in Hin. destruct Hin as (s0 & <- & Hin0).
    destruct (token_matches token s0); exact (Hl s0 Hin0).
Qed.

Lemma paired_exchange log u a :
  e_role u = RoleUser -> e_role a = RoleAssistant ->
  paired log -> paired (log ++ [u; a]).
Proof.
  intros Hu Ha.
  assert (H2 : forall l,
             (paired l -> paired (l ++ [u; a])) /\
             (forall x, paired (x :: l) -> paired (x :: l ++ [u; a]))).
  { induction l as [|y l [IH1 IH2]].
    - split; [intros _; simpl; auto | intros x []].
    - split; [exact (IH2 y)|].
      intros x (Hx & Hy & Hl). simpl. repeat split; auto. }
  apply H2.
Qed.

Lemma step_paired w w' :
  step w w' -> transcripts_paired (db w) -> transcripts_paired (db w').
Proof.
  intros [Hdb _ _|? ? ? ? ? ? Hins _ _|? ? ? ? Hup _ _ _
         |session ? token ? ? ? ? ? log Hsel Hlog Hdb _ _ _ _ _] Hp s Hin.
  - rewrite Hdb in *. now apply Hp.
  - apply insert_user_inv in Hins. destruct Hins as (_ & _ & Hs).
    rewrite Hs in Hin. now apply Hp.
  - apply upsert_session_inv in Hup.
    destruct Hup as (_ & _ & [(token' & Hs)|(row & Hs & _ & _ & Hlog & _)]);
      rewrite Hs in Hin.
    + apply in_map_iff in Hin. destruct Hin as (s0 & <- & Hin0).
      destruct (token_matches token' s0); exact (Hp s0 Hin0).
    + apply in_app_iff in Hin. destruct Hin as [Hin|[<-|[]]].
      * now apply Hp.
      * unfold log_or_empty. rewrite Hlog. exact I.
  - rewrite Hdb in *. simpl in Hin.
    apply in_map_iff in Hin. destruct Hin as (s0 & <- & Hin0).
    destruct (token_matches token s0); [|now apply Hp].
    apply select_valid_session_head in Hsel. destruct Hsel as (Hs & _).
    unfold log_or_empty at 1, s_conversation_log at 1. simpl. rewrite Hlog.
    apply paired_exchange; [reflexivity | reflexivity | now apply Hp].
Qed.

Lemma sorted_exchange (l : list Z) (a b : Z) :
  StronglySorted Z.le l -> Forall (fun x => x <= a) l -> a <= b ->
  StronglySorted Z.le (l ++ [a; b]).
Proof.
  intros Hs Hall Hab. induction l as [|x l IH]; simpl.
  - repeat constructor; assumption.
  - inversion Hs as [|? ? Hs' Hx]; subst.
    inversion Hall as [|? ? Hxa Hall']; subst.
    constructor; [now apply IH|].
    apply Forall_app. split; [assumption|].
    repeat constructor; lia.
Qed.

Lemma chronological_later hi hi' log :
  hi <= hi' -> chronological hi log -> chronological hi' log.
Proof.
  intros Hle [Hs Hb]. split; [assumption|].
  eapply Forall_impl; [|exact Hb]. simpl. intros e He. lia.
Qed.

Lemma chronological_exchange hi hi' log message content t_user t_assistant :
  chronological hi log ->
  hi <= t_user -> t_user <= t_assistant -> t_assistant <= hi' ->
  chronological hi'
    (log ++ [user_entry message t_user; assistant_entry content t_assistant]).
Proof.
  intros [Hs Hb] H1 H2 H3. split.
  - rewrite map_app. simpl. apply sorted_exchange; [assumption | | assumption].
    apply Forall_map. eapply Forall_impl; [|exact Hb]. simpl. intros e He. lia.
  - apply Forall_app. split.
    + eapply Forall_impl; [|exact Hb]. simpl. intros e He. lia.
    + repeat constructor; simpl; lia.
Qed.

Lemma step_clock w w' : step w w' -> clock w <= clock w'.
Proof.
  intros [_ Hc _|? ? ? ? ? ? _ Hc _|? ? ? ? _ Hc _ _
         |? ? ? ? ? ? ? ? ? _ _ _ ? ? ? ? _];
    lia.
Qed.

Lemma step_chronological w w' :
  step w w' -> transcripts_chronological w -> transcripts_chronological w'.
Proof.
  intros Hstep Hc s Hin. pose proof (step_clock _ _ Hstep) as Hclock.
  destruct Hstep as [Hdb _ _|? ? ? ? ? ? Hins _ _|? ? ? ? Hup _ _ _
         |session ? token ? ? ? ? ? log Hsel Hlog Hdb ? ? ? ? _].
  - rewrite Hdb in Hin.
    apply (chronological_later (clock w)); [assumption | now apply Hc].
  - apply insert_user_inv in Hins. destruct Hins as (_ & _ & Hs).
    rewrite Hs in Hin.
    apply (chronological_later (clock w)); [assumption | now apply Hc].
  - apply upsert_session_inv in Hup.
    destruct Hup as (_ & _ & [(token' & Hs)|(row & Hs & _ & _ & Hlog & _)]);
      rewrite Hs in Hin.
    + apply in_map_iff in Hin. destruct Hin as (s0 & <- & Hin0).
      apply (chronological_later (clock w)); [assumption|].
      destruct (token_matches token' s0); exact (Hc s0 Hin0).
    + apply in_app_iff in Hin. destruct Hin as [Hin|[<-|[]]].
      * apply (chronological_later (clock w)); [assumption | now apply Hc].
      * unfold log_or_empty. rewrite Hlog. split; constructor.
  - rewrite Hdb in Hin. simpl in Hin.
    apply in_map_iff in Hin. destruct Hin as (s0 & <- & Hin0).
    destruct (token_matches token s0).
    + apply select_valid_session_head in Hsel. destruct Hsel as (Hs & _).
      unfold log_or_empty at 1, s_conversation_log at 1. simpl. rewrite Hlog.
      apply (chronological_exchange (clock w)); try lia. now apply Hc.
    + apply (chronological_later (clock w)); [assumption | now apply Hc].
Qed.

Lemma session_kept_refl s : session_kept s s.
Proof. now repeat split. Qed.

Lemma session_kept_trans a b c :
  session_kept a b -> session_kept b c -> session_kept a c.
Proof.
  intros (A1 & A2 & A3 & A4 & A5) (B1 & B2 & B3 & B4 & B5).
  repeat split; congruence.
Qed.

Lemma Forall2_kept_refl l : Forall2 session_kept l l.
Proof. induction l; constructor; auto using session_kept_refl. Qed.

Lemma Forall2_kept_trans l1 l2 l3 :
  Forall2 session_kept l1 l2 -> Forall2 session_kept l2 l3 ->
  Forall2 session_kept l1 l3.
Proof.
  intros H12. revert l3. induction H12 as [|a b l1 l2 Hab _ IH]; intros l3 H23.
  - inversion H23. constructor.
  - inversion H23 as [|? c ? l3' Hbc H23']; subst.
    constructor; [eapply session_kept_trans; eassumption | now apply IH].
Qed.

Lemma Forall2_kept_map (f : session_row -> session_row) l :
  (forall s, session_kept s (f s)) -> Forall2 session_kept l (map f l).
Proof. intros Hf. induction l; simpl; constructor; auto. Qed.

Lemma kept_refl st : kept st st.
Proof.
  split; [exists []; now rewrite app_nil_r|]. split; [reflexivity|].
  exists (chat_sessions st), []. split; [now rewrite app_nil_r|].
  apply Forall2_kept_refl.
Qed.

Lemma kept_trans a b c : kept a b -> kept b c -> kept a c.
Proof.
  intros ((n1 & U1) & A1 & (o1 & m1 & S1 & F1))
         ((n2 & U2) & A2 & (o2 & m2 & S2 & F2)).
  split; [|split].
  - exists (n1 ++ n2)%list. rewrite U2, U1. now rewrite app_assoc.
  - congruence.
  - rewrite S1 in F2. apply Forall2_app_inv_l in F2.
    destruct F2 as (p1 & p2 & Fp1 & Fp2 & ->).
    exists p1, (p2 ++ m2)%list. split; [rewrite S2; now rewrite app_assoc|].
    eapply Forall2_kept_trans; eassumption.
Qed.

Lemma step_kept w w' : step w w' -> kept (db w) (db w').
Proof.
  intros [Hdb _ _|? ? ? ? ? ? Hins _ _|? ? ? ? Hup _ _ _
         |session ? token ? ? ? ? ? log _ _ Hdb _ _ _ _ _].
  - rewrite Hdb. apply kept_refl.
  - apply insert_user_inv in Hins.
    destruct Hins as ((row & Hu & _) & Ha & Hs).
    split; [eauto|]. split; [assumption|].
    exists (chat_sessions (db w)), []. rewrite Hs. split; [now rewrite app_nil_r|].
    apply Forall2_kept_refl.
  - apply upsert_session_inv in Hup.
    destruct Hup as (Hu & Ha & [(token' & Hs)|(row & Hs & _)]).
    + split; [exists []; now rewrite app_nil_r|]. split; [assumption|].
      eexists _, []. split; [rewrite app_nil_r; exact Hs|].
      apply Forall2_kept_map. intros s.
      destruct (token_matches token' s); now repeat split.
    + split; [exists []; now rewrite app_nil_r|]. split; [assumption|].
      exists (chat_sessions (db w)), [row]. split; [assumption|].
      apply Forall2_kept_refl.
  - rewrite Hdb. simpl.
    split; [exists []; now rewrite app_nil_r|]. split; [reflexivity|].
    eexists _, []. split; [now rewrite app_nil_r|].
    apply Forall2_kept_map. intros s.
    destruct (token_matches token s); now repeat split.
Qed.

Lemma unique_row rows a b :
  NoDup (map s_session_token rows) ->
  In a rows -> In b rows -> s_session_token a = s_session_token b -> a = b.
Proof.
  induction rows as [|r rows IH]; simpl; [intros _ []|].
  intros Hnd Ha Hb Hab. inversion Hnd as [|? ? Hnotin Hnd']; subst.
  destruct Ha as [<-|Ha], Hb as [<-|Hb]; auto.
  - exfalso. apply Hnotin. rewrite Hab. now apply in_map.
  - exfalso. apply Hnotin. rewrite <- Hab. now apply in_map.
Qed.

Lemma transcripts_extended_refl st : transcripts_extended st st.
Proof.
  intros s Hin. exists s, []. now rewrite app_nil_r.
Qed.

Lemma transcripts_extended_trans a b c :
  transcripts_extended a b -> transcripts_extended b c ->
  transcripts_extended a c.
Proof.
  intros Hab Hbc s Hin.
  destruct (Hab s Hin) as (s1 & m1 & Hin1 & Ht1 & Hl1).
  destruct (Hbc s1 Hin1) as (s2 & m2 & Hin2 & Ht2 & Hl2).
  exists s2, (m1 ++ m2)%list. split; [assumption|]. split; [congruence|].
  rewrite Hl2, Hl1. now rewrite app_assoc.
Qed.

Lemma step_extended w w' :
  step w w' -> store_wf (db w) -> transcripts_extended (db w) (db w').
Proof.
  intros [Hdb _ _|? ? ? ? ? ? Hins _ _|? ? ? ? Hup _ _ _
         |session ? token ? ? ? ? ? log Hsel Hlog Hdb _ _ _ _ _] [Hnd _].
  - rewrite Hdb. apply transcripts_extended_refl.
  - apply insert_user_inv in Hins. destruct Hins as (_ & _ & Hs).
    intros s Hin. exists s, []. rewrite Hs. now rewrite app_nil_r.
  - apply upsert_session_inv in Hup.
    destruct Hup as (_ & _ & [(token' & Hs)|(row & Hs & _)]);
      intros s Hin; rewrite Hs.
    + exists (if token_matches token' s then touch_session now s else s), [].
      split; [apply in_map_iff; eauto|].
      destruct (token_matches token' s); simpl; now rewrite app_nil_r.
    + exists s, []. split; [apply in_app_iff; now left|].
      now rewrite app_nil_r.
  - intros s Hin. rewrite Hdb. simpl.
    apply select_valid_session_head in Hsel.
    destruct Hsel as (Hsin & Htok & _).
    unfold token_matches.
    destruct (String.eqb_spec (s_session_token s) token) as [E|E].
    + assert (s = session) as ->
        by (apply (unique_row _ _ _ Hnd Hin Hsin); congruence).
      eexists (set_log _ session), _. split; [|split; [reflexivity|]].
      * apply in_map_iff. exists session. split; [|assumption].
        unfold token_matches. now rewrite (proj2 (String.eqb_eq _ _) Htok).
      * unfold log_or_empty at 1, s_conversation_log at 1. simpl.
        exact Hlog.
    + exists s, []. split; [|now rewrite app_nil_r].
      apply in_map_iff. exists s. split; [|assumption].
      unfold token_matches. now rewrite (proj2 (String.eqb_neq _ _) E).
Qed.

(** ** Invariants of the running application *)

Section Runs.

Variable X : externals.
Variable cfg : config.
Variable py : chat_request -> collab_outcome.

(** X1.  The uniqueness constraints of the schema ([email], [session_token])
    and the foreign key of [chat_sessions.user_id] hold after any sequence
    of requests, if they held before: no request sequence drives the
    handlers into a duplicate token, a duplicate email or an orphaned
    session. *)
Theorem schema_constraints_invariant rs w :
  store_wf (db w) -> sessions_reference_users (db w) ->
  store_wf (db (run X cfg py rs w)) /\
  sessions_reference_users (db (run X cfg py rs w)).
Proof.
  intros Hwf Hfk.
  apply (run_invariant X cfg py
           (fun w => store_wf (db w) /\ sessions_reference_users (db w)));
    [|now split].
  intros w1 w2 Hstep [H1 H2].
  split; [eapply step_wf | eapply step_references]; eassumption.
Qed.

(** X2.  No session ever expires more than 24 hours plus the zone skew
    after it was created: when the store reads no [Date] more than [bound]
    ahead of what the process wrote, the bound of 24 hours plus [bound]
    holds of every row after any sequence of requests (no request extends
    an expiry).  With the process and the store in one zone this is 24
    hours. *)
Theorem session_lifetime_invariant rs w bound :
  (forall d, zone_skew w d <= bound) ->
  lifetime_within (86400000 + bound) (db w) ->
  lifetime_within (86400000 + bound) (db (run X cfg py rs w)).
Proof.
  intros Hb Hl.
  apply (run_invariant X cfg py
           (fun w => (forall d, zone_skew w d <= bound) /\
                     lifetime_within (86400000 + bound) (db w)));
    [|now split].
  intros w1 w2 Hstep [H1 H2]. split.
  - rewrite (step_zone_skew _ _ Hstep). exact H1.
  - eapply step_lifetime; eassumption.
Qed.

(** X3.  Every stored transcript is a sequence of exchanges, a [user] entry
    followed by an [assistant] entry: the shape survives any sequence of
    requests. *)
Theorem transcripts_paired_invariant rs w :
  transcripts_paired (db w) -> transcripts_paired (db (run X cfg py rs w)).
Proof.
  apply (run_invariant X cfg py (fun w => transcripts_paired (db w))).
  intros w1 w2 Hstep. now apply step_paired.
Qed.

(** X4.  Every stored transcript is in chronological order and holds no
    timestamp after the current clock, after any sequence of requests. *)
Theorem transcripts_chronological_invariant rs w :
  transcripts_chronological w ->
  transcripts_chronological (run X cfg py rs w).
Proof.
  apply (run_invariant X cfg py transcripts_chronological).
  intros w1 w2 Hstep. now apply step_chronological.
Qed.

Lemma run_wf rs w : store_wf (db w) -> store_wf (db (run X cfg py rs w)).
Proof.
  apply (run_invariant X cfg py (fun w => store_wf (db w))).
  intros w1 w2 Hstep. now apply step_wf.
Qed.

(** X5.  No request deletes anything or moves a row to another owner: after
    any sequence of requests the store holds the old users followed by new
    ones, the same appointments, and the old sessions, each with its id,
    [user_id], token, [created_at] and [expires_at], followed by new ones. *)
Theorem nothing_deleted rs w : kept (db w) (db (run X cfg py rs w)).
Proof.
  revert w. induction rs as [|r rs IH]; simpl; intros w.
  - apply kept_refl.
  - eapply kept_trans; [apply step_kept, (app_step X cfg py r w) | apply IH].
Qed.

(** X6.  Transcripts only grow: under the uniqueness of session tokens,
    after any sequence of requests every session is still there under its
    token and its transcript is the old one followed by further entries. *)
Theorem transcripts_only_grow rs w :
  store_wf (db w) ->
  transcripts_extended (db w) (db (run X cfg py rs w)).
Proof.
  revert w. induction rs as [|r rs IH]; simpl; intros w Hwf.
  - apply transcripts_extended_refl.
  - pose proof (app_step X cfg py r w) as Hstep.
    eapply transcripts_extended_trans;
      [apply step_extended; eassumption |].
    apply IH. eapply step_wf; eassumption.
Qed.

(** X7.  A message is answered 200 only on a session created less than 24
    hours before the store's [NOW()], in any store where the lifetime bound
    holds. *)
Theorem message_needs_young_session user b w :
  lifetime_bounded (db w) ->
  status (fst (sendMessage X cfg py user b w)) = 200 ->
  exists token session,
    mb_sessionToken b = Some token /\
    In session (chat_sessions (db w)) /\
    s_session_token session = token /\
    clock (tick w) < s_created_at session + 86400000.
Proof.
  intros Hl Hok.
  destruct (sendMessage_success_inv X cfg py _ _ _ Hok)
    as (message & token & session & rest & d & -> & _ & _ & Esel & _).
  apply select_valid_session_head in Esel.
  destruct Esel as (Hin & Htok & Hexp).
  exists token, session. repeat split; try assumption.
  specialize (Hl session Hin). lia.
Qed.

End Runs.

(** ** Registration and login, further *)

Section AuthFurther.

Variable X : externals.
Variable cfg : config.

Lemma userSchema_validate_complete b :
  valid_registration X b -> rb_unknown b = [] ->
  exists v, userSchema_validate X b = inr v.
Proof.
  intros (e & p & f & l & He & Hne & Hok & Hp & Hlen & Hf & Hnf & Hl & Hnl) Hu.
  unfold userSchema_validate. rewrite He, Hp, Hf, Hl, Hu.
  destruct e as [|ec er]; [congruence|].
  destruct p as [|pc pr]; [simpl in Hlen; lia|].
  destruct f as [|fc fr]; [congruence|].
  destruct l as [|lc lr]; [congruence|].
  unfold joi_string. rewrite Hok.
  apply Nat.leb_le in Hlen. rewrite Hlen. eauto.
Qed.

(** X8.  Registration answers 400 exactly when the body misses an input
    constraint or carries a key outside the schema: a body that meets the
    constraints and has only the four keys is never refused as invalid, and
    one extra key is enough to refuse it. *)
Theorem register_400_iff salt b w :
  status (fst (register X salt b w)) = 400 <->
  ~ (valid_registration X b /\ rb_unknown b = []).
Proof.
  rewrite register_unfold. split.
  - intros H400 [Hv Hu].
    destruct (userSchema_validate_complete b Hv Hu) as (v & Ev).
    rewrite Ev in H400. cbv zeta in H400.
    destruct (as_text _); [|discriminate].
    destruct (select_user_id_by_email _ _); [|discriminate].
    destruct (insert_user _ _ _ _ _ _) as [?|[? ?]]; discriminate.
  - intros Hbad.
    destruct (userSchema_validate X b) as [e|v] eqn:Ev; [reflexivity|].
    exfalso. apply Hbad.
    apply userSchema_validate_inr in Ev.
    destruct Ev as (? & ? & ? & ? & ? & ? & ? & ? & ? & ?).
    split; [|assumption].
    exists (rv_email v), (rv_password v), (rv_first_name v), (rv_last_name v).
    repeat split; assumption.
Qed.

(** X9.  Registration changes the store only when it answers 201, and then
    by exactly one row appended to [users]; every other answer (400, 409,
    500) leaves the store as it was.  At most one write is sent. *)
Theorem register_writes_iff_created salt b w :
  let out := register X salt b w in
  ((status (fst out) = 201 /\
    exists row, users (db (snd out)) = (users (db w) ++ [row])%list /\
                appointments (db (snd out)) = appointments (db w) /\
                chat_sessions (db (snd out)) = chat_sessions (db w))
   \/ (status (fst out) <> 201 /\ db (snd out) = db w))
  /\ (List.length (filter is_write_event (trace (snd out)))
      <= S (List.length (filter is_write_event (trace w))))%nat.
Proof.
  intros out. subst out. rewrite register_unfold.
  destruct (userSchema_validate X b) as [e|v];
    [split; [right; split; [discriminate | reflexivity] | simpl; lia]|].
  cbv zeta.
  destruct (as_text _);
    [|split; [right; split; [discriminate | reflexivity]|];
      simpl; rewrite !filter_app, !length_app; simpl; lia].
  destruct (select_user_id_by_email _ _).
  - destruct (insert_user _ _ _ _ _ _) as [e|[rows st']] eqn:E.
    + split; [right; split; [discriminate | reflexivity]|].
      simpl. rewrite !filter_app, !length_app. simpl. lia.
    + split.
      * left. split; [reflexivity|]. simpl.
        apply insert_user_inv in E.
        destruct E as ((row & Hu & _) & Ha & Hs). eauto.
      * simpl. rewrite !filter_app, !length_app. simpl. lia.
  - split; [right; split; [discriminate | reflexivity]|].
    simpl. rewrite !filter_app, !length_app. simpl. lia.
Qed.

(** X10.  Registering the same email twice gives 201, then 409: after a
    successful registration any further valid registration under that
    email, whatever its password, names and salt, is refused as a conflict
    and leaves the store unchanged. *)
Theorem register_twice_conflicts salt b v salt' b' v' w :
  userSchema_validate X b = inr v ->
  status (fst (register X salt b w)) = 201 ->
  (String.length (rv_email v) <= 255)%nat ->
  userSchema_validate X b' = inr v' ->
  rv_email v' = rv_email v ->
  let w1 := snd (register X salt b w) in
  fst (register X salt' b' w1)
    = {| status := 409; body := BError "User already exists" None |}
  /\ db (snd (register X salt' b' w1)) = db w1.
Proof.
  intros Ev H201 Hfit Ev' Hsame w1. subst w1.
  assert (Hreg : registered (rv_email v) (db (snd (register X salt b w)))).
  { rewrite register_unfold in H201 |- *. rewrite Ev in *. cbv zeta in *.
    destruct (as_text _); [|discriminate].
    destruct (select_user_id_by_email _ _); [|discriminate].
    destruct (insert_user _ _ _ _ _ _) as [e|[rows st']] eqn:E; [discriminate|].
    simpl. apply insert_user_row in E.
    destruct E as (row & Hu & _ & Hv & _).
    rewrite (varchar_fits _ _ Hfit) in Hv. injection Hv as Hv.
    exists row. split; [|now symmetry].
    rewrite Hu. apply in_app_iff. right. now left. }
  rewrite (register_unfold X salt' b'). rewrite Ev'. cbv zeta. rewrite Hsame.
  destruct (as_text_some _ (registered_clean _ _ Hreg)) as (t & -> & _).
  destruct (select_user_id_by_email (rv_email v) _) eqn:E.
  - apply select_user_id_nil in E. contradiction.
  - split; reflexivity.
Qed.


Lemma select_user_unique email st u :
  store_wf st -> In u (users st) -> u_email u = email ->
  select_user_by_email email st = [u].
Proof.
  intros [_ Hnd] Hin Hu. unfold select_user_by_email.
  induction (users st) as [|x l IH]; simpl in *; [destruct Hin|].
  inversion Hnd as [|? ? Hnotin Hnd']; subst.
  destruct Hin as [->|Hin].
  - rewrite String.eqb_refl. f_equal.
    apply filter_nil_iff. intros y Hy.
    destruct (String.eqb_spec (u_email y) (u_email u)) as [E|E]; [|reflexivity].
    exfalso. apply Hnotin. rewrite <- E. now apply in_map.
  - destruct (String.eqb_spec (u_email x) (u_email u)) as [E|E].
    + exfalso. apply Hnotin. rewrite E. now apply in_map.
    + now apply IH.
Qed.

(** X12.  What login hands out opens the gate for the same user: with the
    right password the answer is 200 with the user's public projection and
    a token that, within its 24 hours, verifies under the gate's secret to
    [{id, email}] of that user, so that [req.user.id] is the user's id. *)
Theorem login_token_identifies_user email password u w now :
  jwt_contract X -> store_wf (db w) ->
  email <> "" -> password <> "" ->
  In u (users (db w)) -> u_email u = email ->
  bcrypt_compare X password (u_password_hash u) = true ->
  now / 1000 < clock w / 1000 + 86400 ->
  exists token,
    fst (login X cfg (mk_login email password) w)
      = {| status := 200; body := BLogin token (user_public u) |}
    /\ jwt_verify X token (jwt_secret cfg) now
       = Some (IdentityClaims (u_id u) (u_email u))
    /\ payload_id (IdentityClaims (u_id u) (u_email u)) = Some (u_id u).
Proof.
  intros Hjwt Hwf He Hp Hin Hu Hpw Hnow.
  rewrite login_unfold by assumption. cbv zeta.
  assert (Hz : has_nul email = false)
    by (rewrite <- Hu; apply stored_email_clean).
  destruct (as_text_some _ Hz) as (t & -> & _).
  rewrite (select_user_unique email (db w) u Hwf Hin Hu), Hpw.
  eexists. split; [reflexivity|]. split; [|reflexivity].
  apply Hjwt.
  assert (clock w / 1000 <=
          clock (tick (with_trace (tick w)
                   (trace w ++ [EvQuery (SelectUserByEmail email)]))) / 1000).
  { apply Z.div_le_mono; [lia | clock_bounds]. }
  lia.
Qed.

(** X13.  A user who has just registered can log in: when the password
    library matches a password against its own hash, a successful
    registration followed by a login with the same email and password is
    answered 200 with the projection the registration returned. *)
Theorem register_then_login salt b v w :
  bcrypt_contract X -> store_wf (db w) ->
  userSchema_validate X b = inr v ->
  (String.length (rv_email v) <= 255)%nat ->
  status (fst (register X salt b w)) = 201 ->
  let w1 := snd (register X salt b w) in
  exists token user,
    body (fst (register X salt b w))
      = BRegistered "User registered successfully" (Some user)
    /\ fst (login X cfg (mk_login (rv_email v) (rv_password v)) w1)
       = {| status := 200; body := BLogin token user |}.
Proof.
  intros Hbc Hwf Ev Hfit H201 w1. subst w1.
  pose proof (register_preserves_wf X salt b w Hwf) as Hwf1.
  apply userSchema_validate_inr in Ev as Hv.
  destruct Hv as (_ & Hne & _ & _ & Hlen & _).
  assert (Hpne : rv_password v <> "")
    by (destruct (rv_password v); [simpl in Hlen; lia | discriminate]).
  rewrite login_unfold by assumption. cbv zeta.
  rewrite register_unfold in H201, Hwf1 |- *. rewrite Ev in *. cbv zeta in *.
  destruct (as_text (rv_email v)) as [t|]; [|discriminate].
  destruct (select_user_id_by_email _ _); [|discriminate].
  destruct (insert_user _ _ _ _ _ _) as [e|[rows st']] eqn:E; [discriminate|].
  simpl in Hwf1 |- *.
  apply insert_user_row in E.
  destruct E as (row & Hu & -> & Hv & Hhash & _).
  rewrite (varchar_fits _ _ Hfit) in Hv. injection Hv as Hv.
  rewrite (select_user_unique (rv_email v) _ row Hwf1);
    [|rewrite Hu; apply in_app_iff; right; now left | now symmetry].
  rewrite Hhash, Hbc. simpl.
  eexists _, _. split; reflexivity.
Qed.

End AuthFurther.

(** ** The gate, further *)

Section GateFurther.

Variable X : externals.
Variable cfg : config.
Variable py : chat_request -> collab_outcome.

(** X14.  A request to a protected route whose header carries no token, or
    a token that does not verify, is answered 401 or 403 and reaches
    neither the store nor the collaborator: store and trace are as they
    were. *)
Theorem unauthenticated_requests_touch_nothing authHeader b w :
  (forall token, bearer_token authHeader = Some token -> token <> "" ->
                 jwt_verify X token (jwt_secret cfg) (clock (tick w)) = None) ->
  let t := route_token X cfg authHeader w in
  let m := route_message X cfg py authHeader b w in
  (status (fst t) = 401 \/ status (fst t) = 403)
  /\ db (snd t) = db w /\ trace (snd t) = trace w
  /\ fst m = fst t
  /\ db (snd m) = db w /\ trace (snd m) = trace w.
Proof.
  intros Hbad t m. subst t m. unfold route_token, route_message, protected.
  destruct (authenticateToken_cases X cfg authHeader w)
    as [[_ E]|[(token & _ & _ & _ & E)|(token & user & Hb & Hne & Hv & _)]].
  - rewrite E. simpl. auto 10.
  - rewrite E. simpl. auto 10.
  - rewrite (Hbad token Hb Hne) in Hv. discriminate.
Qed.

Lemma split_space_scheme (scheme rest : string) :
  has_space scheme = false ->
  split_space (scheme ++ " " ++ rest) = scheme :: split_space rest.
Proof.
  induction scheme as [|c s IH]; simpl; [reflexivity|].
  intros Hs. apply orb_false_elim in Hs. destruct Hs as [Hc Hs].
  rewrite Hc. simpl in IH. rewrite (IH Hs). reflexivity.
Qed.

(** X15.  The gate does not look at the scheme word of the header: it takes
    whatever follows the first space, up to the next one, as the token, so
    any word in place of [Bearer] (even none) is treated alike. *)
Theorem gate_ignores_scheme scheme rest w :
  has_space scheme = false ->
  authenticateToken X cfg (Some (scheme ++ " " ++ rest)) w
  = authenticateToken X cfg (Some ("Bearer " ++ rest)) w.
Proof.
  intros Hs. unfold authenticateToken.
  assert (E : forall word, has_space word = false ->
            bearer_token (Some (word ++ " " ++ rest))
            = nth_error (split_space rest) 0).
  { intros word Hw. unfold bearer_token.
    rewrite (split_space_scheme word rest Hw).
    destruct word; reflexivity. }
  rewrite (E scheme Hs).
  change ("Bearer " ++ rest) with ("Bearer" ++ " " ++ rest).
  rewrite (E "Bearer" eq_refl). reflexivity.
Qed.

End GateFurther.

(** ** The session service, further *)

Section SessionFurther.

Variable X : externals.
Variable cfg : config.
Variable py : chat_request -> collab_outcome.

(** X16.  [issueToken] answers 200 or 500, and a 500 persists nothing.  In
    particular, when the caller's user row is not in the store and the
    session token is new, the foreign key refuses the INSERT: the answer is
    500 and the store is unchanged. *)
Theorem issueToken_failure_persists_nothing user w :
  let out := issueToken X cfg user w in
  (status (fst out) = 200 \/ status (fst out) = 500)
  /\ (status (fst out) <> 200 -> db (snd out) = db w)
  /\ (references_user (db w) (payload_id user) = false ->
      (String.length (issued_session_token X cfg user w) <= 255)%nat ->
      never_existed (issued_session_token X cfg user w) (db w) ->
      status (fst out) = 500 /\ db (snd out) = db w).
Proof.
  intros out. subst out. rewrite issueToken_unfold. cbv zeta.
  destruct (upsert_session _ _ _ _ _ _) as [e|st'] eqn:E; simpl.
  - repeat split; auto.
  - split; [auto|]. split; [congruence|].
    intros Hfk Hfit Hnew. exfalso.
    pose proof (upsert_session_accepts _ _ _ _ _ _ _ E) as Hz.
    rewrite (upsert_session_orphan _ _ _ _ _ Hz Hfit Hnew Hfk) in E.
    discriminate.
Qed.

(** X17.  A session that [issueToken] has just created is accepted by the
    message proxy exactly until its expiry: in any world holding the store
    the call left, a message under the issued token is refused as
    'Invalid or expired session' if and only if the store's [NOW()] has
    reached the expiry written at issuance. *)
Theorem issued_session_valid_until_expiry user w caller message w2 :
  status (fst (issueToken X cfg user w)) = 200 ->
  never_existed (issued_session_token X cfg user w) (db w) ->
  (String.length (issued_session_token X cfg user w) <= 255)%nat ->
  issued_session_token X cfg user w <> "" -> message <> "" ->
  db w2 = db (snd (issueToken X cfg user w)) ->
  (fst (sendMessage X cfg py caller
          (mk_message message (issued_session_token X cfg user w)) w2)
   = invalid_session_response
   <-> issued_expiry w <= clock (tick w2)).
Proof.
  intros H200 Hnew Hfit Hne Hm Hdb.
  set (token := issued_session_token X cfg user w) in *.
  assert (Hrows : exists row,
             chat_sessions (db w2) = (chat_sessions (db w) ++ [row])%list /\
             s_session_token row = token /\
             s_expires_at row = issued_expiry w).
  { rewrite Hdb. rewrite issueToken_unfold in H200 |- *. cbv zeta in *.
    fold token in H200 |- *.
    destruct (upsert_session (payload_id user) token [] (issued_expiry w)
                (clock (Nat.iter 5 tick w)) (db w)) as [e|st'] eqn:E;
      [discriminate|].
    pose proof (upsert_session_accepts _ _ _ _ _ _ _ E) as Hz.
    destruct (references_user (db w) (payload_id user)) eqn:Hfk;
      [|rewrite (upsert_session_orphan _ _ _ _ _ Hz Hfit Hnew Hfk) in E;
        discriminate].
    destruct (upsert_session_new (payload_id user) token (issued_expiry w)
                (clock (Nat.iter 5 tick w)) (db w) Hz Hfit Hnew Hfk)
      as (row & E' & _ & _ & Ht & _ & He & _).
    rewrite E' in E. injection E as <-.
    exists row. simpl. repeat split; assumption. }
  destruct Hrows as (row & Hrows & Htok & Hexp).
  rewrite sendMessage_unfold by assumption. cbv zeta.
  assert (Hz : has_nul token = false)
    by (rewrite <- Htok; apply stored_token_clean).
  destruct (as_text_some _ Hz) as (t & -> & _).
  split.
  - intros Hresp.
    destruct (select_valid_session token (clock (tick w2)) (db w2))
      as [|session rest] eqn:Esel.
    + apply select_valid_session_nil in Esel.
      rewrite <- Hexp. apply Esel; [|assumption].
      rewrite Hrows. apply in_app_iff. right. now left.
    + destruct (py _) as [[d|]|msg rd]; cbv zeta in Hresp;
        try destruct (as_jsonb _); discriminate.
  - intros Hlate.
    assert (Hno : no_valid_session token (clock (tick w2)) (db w2)).
    { intros s Hin Hs. rewrite Hrows in Hin. apply in_app_iff in Hin.
      destruct Hin as [Hin|[<-|[]]].
      - exfalso. exact (Hnew s Hin Hs).
      - lia. }
    apply select_valid_session_nil in Hno. now rewrite Hno.
Qed.

(** X18.  The gate does not tell the tokens apart: a chat token handed out
    by [issueToken], presented as bearer within its 15 minutes, opens the
    token route, and since its claims carry [userId] and no [id] the
    session upsert is sent with a null [user_id]. *)
Theorem chat_token_opens_token_route U email w w' :
  jwt_contract X ->
  issued_chat_token X cfg (IdentityClaims U email) w <> "" ->
  has_space (issued_chat_token X cfg (IdentityClaims U email) w) = false ->
  clock (tick w') / 1000 < clock w / 1000 + 900 ->
  let bearer :=
    Some ("Bearer " ++ issued_chat_token X cfg (IdentityClaims U email) w) in
  route_token X cfg bearer w' = issueToken X cfg (ChatClaims (Some U)) (tick w')
  /\ exists token expires,
       trace (snd (route_token X cfg bearer w'))
       = (trace w' ++ [EvQuery (UpsertSession None token [] expires)])%list.
Proof.
  intros Hjwt Hne Hsp Hnow bearer. subst bearer.
  assert (E : route_token X cfg
                (Some ("Bearer " ++
                       issued_chat_token X cfg (IdentityClaims U email) w)) w'
              = issueToken X cfg (ChatClaims (Some U)) (tick w')).
  { unfold route_token, protected.
    destruct (chat_token_at_the_gate X cfg U email w w' Hjwt Hne Hsp Hnow)
      as [-> _].
    reflexivity. }
  split; [exact E|]. rewrite E, issueToken_one_statement. simpl. eauto.
Qed.

End SessionFurther.

(** ** The message proxy, further *)

Section MessageFurther.

Variable X : externals.
Variable cfg : config.
Variable py : chat_request -> collab_outcome.

Lemma zero_byte_no_valid_session token now st :
  has_nul token = true -> no_valid_session token now st.
Proof.
  intros Hz s0 _ Hs. pose proof (stored_token_clean s0) as Hc.
  rewrite Hs in Hc. congruence.
Qed.


(** X20.  Whatever goes wrong, the store is left alone: a message that is
    not answered 200 (missing field, unknown or expired session,
    collaborator failure, [null] reply) leaves the store exactly as it
    was. *)
Theorem message_errors_leave_store user b w :
  status (fst (sendMessage X cfg py user b w)) <> 200 ->
  db (snd (sendMessage X cfg py user b w)) = db w.
Proof.
  destruct (message_body_cases b) as [Hm|(message & token & -> & Hm & Ht)].
  - rewrite sendMessage_missing_fields by assumption. reflexivity.
  - rewrite sendMessage_unfold by assumption. cbv zeta.
    destruct (as_text _); [|reflexivity].
    destruct (select_valid_session _ _ _); [reflexivity|].
    destruct (py _) as [[d|]|msg rd]; try reflexivity.
    destruct (as_jsonb _); simpl; [congruence | reflexivity].
Qed.

(** X21.  The collaborator is called at most once, and only for a valid
    session: the HTTP calls of the request are the single POST of
    [{message, user_id, session_token}] with a 30 second timeout when both
    fields are non-empty and the session is valid, and none otherwise. *)
Theorem collaborator_called_only_for_valid_session user b w :
  let calls t := filter is_http_event t in
  let w' := snd (sendMessage X cfg py user b w) in
  (exists message token,
     b = mk_message message token /\ message <> "" /\ token <> "" /\
     valid_session token (clock (tick w)) (db w) /\
     calls (trace w') =
     (calls (trace w) ++
      [EvHttpPost chat_url (forwarded user message token) 30000])%list)
  \/ ((forall message token,
         b = mk_message message token -> message <> "" -> token <> "" ->
         no_valid_session token (clock (tick w)) (db w))
      /\ calls (trace w') = calls (trace w)).
Proof.
  intros calls w'. subst calls w'.
  destruct (message_body_cases b) as [Hm|(message & token & -> & Hm & Ht)].
  - right. split.
    + intros message token -> Hmne Htne. exfalso.
      destruct message, token; simpl in Hm; congruence.
    + rewrite sendMessage_missing_fields by assumption. reflexivity.
  - rewrite sendMessage_unfold by assumption. cbv zeta.
    destruct (as_text token) as [t|] eqn:Et.
    2:{ right. split.
        - intros m t E _ _. inversion E; subst.
          apply zero_byte_no_valid_session.
          destruct (has_nul t) eqn:Hz; [reflexivity|].
          destruct (as_text_some _ Hz) as (t' & E' & _). congruence.
        - simpl. rewrite filter_app. simpl. now rewrite app_nil_r. }
    destruct (select_valid_session _ _ _) as [|session rest] eqn:Esel.
    + right. split.
      * intros m t0 E _ _. inversion E; subst.
        now apply select_valid_session_nil.
      * simpl. rewrite filter_app. simpl. now rewrite app_nil_r.
    + left. exists message, token.
      split; [reflexivity|]. split; [assumption|]. split; [assumption|].
      split.
      * apply select_valid_session_head in Esel.
        destruct Esel as (Hin & Htok & Hexp). exists session. auto.
      * destruct (py _) as [[d|]|msg rd]; cbv zeta;
          try destruct (as_jsonb _); simpl;
          rewrite ?filter_app; simpl; rewrite ?app_nil_r; reflexivity.
Qed.

(** X22.  Outside development no response carries [details]: unless
    [NODE_ENV] is 'development', no route of the application ever puts the
    collaborator's error body or a stack trace into its answer. *)
Theorem no_details_outside_development r w :
  development cfg = false ->
  ~ carries_details (wr_json (fst (app X cfg py r w))).
Proof.
  intros Hdev.
  assert (Hmsg : forall user b w0,
            ~ carries_details (JBody (body (fst (sendMessage X cfg py user b w0))))).
  { intros user b w0.
    destruct (message_body_cases b) as [Hm|(message & token & -> & Hm & Ht)].
    - rewrite sendMessage_missing_fields by assumption. simpl. auto.
    - rewrite sendMessage_unfold by assumption. cbv zeta.
      unfold message_catch. rewrite Hdev.
      destruct (as_text _); [|simpl; auto].
      destruct (select_valid_session _ _ _); [simpl; auto|].
      destruct (py _) as [[d|]|msg rd]; try destruct (as_jsonb _);
        simpl; auto. }
  destruct r as [salt b|b|authorization|authorization b|]; simpl.
  - rewrite register_unfold.
    destruct (userSchema_validate X b); [simpl; auto|]. cbv zeta.
    destruct (as_text _); [|simpl; auto].
    destruct (select_user_id_by_email _ _); [|simpl; auto].
    destruct (insert_user _ _ _ _ _ _) as [?|[? ?]]; simpl; auto.
  - destruct (login_body_cases b) as [Hm|(email & password & -> & He & Hp)].
    + rewrite login_missing_fields by assumption. simpl. auto.
    + rewrite login_unfold by assumption. cbv zeta.
      destruct (as_text _); [|simpl; auto].
      destruct (select_user_by_email _ _); [simpl; auto|].
      destruct (bcrypt_compare X _ _); simpl; auto.
  - unfold route_token.
    destruct (protected_cases X cfg authorization (issueToken X cfg) w)
      as [E|[E|(user & E)]]; rewrite E; simpl; auto.
    rewrite issueToken_unfold. cbv zeta.
    destruct (upsert_session _ _ _ _ _ _); simpl; auto.
  - unfold route_message.
    destruct (protected_cases X cfg authorization
                (fun user => sendMessage X cfg py user b) w)
      as [E|[E|(user & E)]]; rewrite E; simpl; auto.
    specialize (Hmsg user b (tick w)).
    destruct (sendMessage X cfg py user b (tick w)). exact Hmsg.
  - auto.
Qed.

End MessageFurther.

(** ** The edge routes in front of the backend *)

Section EdgeFurther.

Variable X : externals.
Variable cfg : config.
Variable py : chat_request -> collab_outcome.
Variable base salt : string.
Variable not_json : js_error.

Lemma eqb_app_head (a b : string) :
  String.eqb (base ++ a) (base ++ b) = String.eqb a b.
Proof.
  induction base as [|c s IH]; simpl; [reflexivity|].
  now rewrite Ascii.eqb_refl.
Qed.

Ltac route :=
  unfold relay, backend_fetch, route_of; simpl;
  rewrite ?eqb_app_head; simpl.


(** X24.  A request that reaches a chatbot edge route without an
    [Authorization] header is answered 401 'Access token required': the
    gate behind the edge finds no token in what the edge passes on, and the
    world is untouched. *)
Theorem edge_without_authorization body_ w :
  let fetch := backend_fetch X cfg py base salt not_json in
  handler_token (Some base) fetch
    {| er_method := "GET"; er_authorization := None; er_body := None |} w
  = ({| wr_status := 401;
        wr_json := JBody (BError "Access token required" None) |}, w)
  /\ handler_message (Some base) fetch
       {| er_method := "POST"; er_authorization := None; er_body := body_ |} w
     = ({| wr_status := 401;
           wr_json := JBody (BError "Access token required" None) |}, w).
Proof.
  intros fetch. subst fetch.
  unfold handler_token, handler_message. simpl. split; route; reflexivity.
Qed.

End EdgeFurther.

(** ** The further theorems at work on concrete requests *)

Lemma suffix_of_app (x s : string) : Ref.suffix_of x (s ++ x) = true.
Proof.
  induction s as [|c s IH]; simpl.
  - destruct x; simpl; now rewrite ?String.eqb_refl, ?Ascii.eqb_refl.
  - rewrite IH. apply orb_true_r.
Qed.

Lemma ref_bcrypt_contract : bcrypt_contract Ref.libs.
Proof.
  intros password salt. simpl. unfold Ref.compare, Ref.hash.
  apply (suffix_of_app (String "$" password) salt).
Qed.

Lemma w_live_references : sessions_reference_users (db Examples.w_live).
Proof. intros s Hin. each_row Hin. reflexivity. Qed.

Lemma w_live_lifetime : lifetime_bounded (db Examples.w_live).
Proof. intros s Hin. each_row Hin. simpl. lia. Qed.

Lemma w_live_paired : transcripts_paired (db Examples.w_live).
Proof. intros s Hin. each_row Hin. exact I. Qed.

Lemma w_live_chronological : transcripts_chronological Examples.w_live.
Proof. intros s Hin. each_row Hin. split; constructor. Qed.

Lemma schema_constraints_invariant_witness :
  store_wf (db Examples.w_live)
  /\ sessions_reference_users (db Examples.w_live)
  /\ store_wf (db Scenario.after)
  /\ sessions_reference_users (db Scenario.after).
Proof.
  split; [exact store_with_session_wf|]. split; [exact w_live_references|].
  apply (schema_constraints_invariant Ref.libs Ref.cfg0 Examples.py_up
           Scenario.requests Examples.w_live
           store_with_session_wf w_live_references).
Defined.

(** The day of requests with the process five and a half hours ahead of
    the store: every session lives at most 29 hours and 30 minutes. *)
Lemma session_lifetime_invariant_witness :
  (forall d, zone_skew Examples.w_live_ahead d <= 19800000)
  /\ lifetime_within (86400000 + 19800000) (db Examples.w_live_ahead)
  /\ lifetime_within (86400000 + 19800000) (db Scenario.after_ahead).
Proof.
  assert (Hb : forall d, zone_skew Examples.w_live_ahead d <= 19800000)
    by (intros d; simpl; unfold Ref.half_past_five; lia).
  assert (Hl : lifetime_within (86400000 + 19800000)
                 (db Examples.w_live_ahead)).
  { intros s Hin. each_row Hin. simpl. lia. }
  split; [exact Hb|]. split; [exact Hl|].
  apply (session_lifetime_invariant Ref.libs Ref.cfg0 Examples.py_up
           Scenario.requests Examples.w_live_ahead 19800000 Hb Hl).
Defined.

(** There the bound of 24 hours does not survive the day: the session the
    token route creates outlives it. *)
Example lifetime_bound_fails_ahead :
  lifetime_bounded (db Examples.w_live_ahead)
  /\ ~ lifetime_bounded (db Scenario.after_ahead).
Proof.
  split.
  - intros s Hin. each_row Hin. simpl. lia.
  - intros Hl.
    assert (Hall : forallb (fun s => s_expires_at s <=? s_created_at s + 86400000)
                     (chat_sessions (db Scenario.after_ahead)) = true).
    { apply forallb_forall. intros s Hin. apply Z.leb_le. exact (Hl s Hin). }
    vm_compute in Hall. discriminate.
Qed.

Lemma transcripts_paired_invariant_witness :
  transcripts_paired (db Examples.w_live)
  /\ transcripts_paired (db Scenario.after).
Proof.
  split; [exact w_live_paired|].
  apply (transcripts_paired_invariant Ref.libs Ref.cfg0 Examples.py_up
           Scenario.requests Examples.w_live w_live_paired).
Defined.

Lemma transcripts_chronological_invariant_witness :
  transcripts_chronological Examples.w_live
  /\ transcripts_chronological Scenario.after.
Proof.
  split; [exact w_live_chronological|].
  apply (transcripts_chronological_invariant Ref.libs Ref.cfg0 Examples.py_up
           Scenario.requests Examples.w_live w_live_chronological).
Defined.

Lemma transcripts_only_grow_witness :
  store_wf (db Examples.w_live)
  /\ transcripts_extended (db Examples.w_live) (db Scenario.after).
Proof.
  split; [exact store_with_session_wf|].
  apply (transcripts_only_grow Ref.libs Ref.cfg0 Examples.py_up
           Scenario.requests Examples.w_live store_with_session_wf).
Defined.

Lemma message_needs_young_session_witness :
  lifetime_bounded (db Examples.w_live)
  /\ status (fst (sendMessage Ref.libs Ref.cfg0 Examples.py_up Examples.jane
                    (mk_message "hello" "session-of-john") Examples.w_live))
     = 200
  /\ exists token session,
       Some "session-of-john" = Some token /\
       In session (chat_sessions (db Examples.w_live)) /\
       s_session_token session = token /\
       clock (tick Examples.w_live) < s_created_at session + 86400000.
Proof.
  split; [exact w_live_lifetime|]. split; [vm_compute; reflexivity|].
  apply (message_needs_young_session Ref.libs Ref.cfg0 Examples.py_up
           Examples.jane (mk_message "hello" "session-of-john")
           Examples.w_live w_live_lifetime).
  vm_compute. reflexivity.
Defined.

Lemma register_twice_conflicts_witness :
  status (fst (register Ref.libs "salt" Examples.alice_body Ref.w0)) = 201
  /\ fst (register Ref.libs "pepper" Examples.alice_body
            (snd (register Ref.libs "salt" Examples.alice_body Ref.w0)))
     = {| status := 409; body := BError "User already exists" None |}
  /\ db (snd (register Ref.libs "pepper" Examples.alice_body
                (snd (register Ref.libs "salt" Examples.alice_body Ref.w0))))
     = db (snd (register Ref.libs "salt" Examples.alice_body Ref.w0)).
Proof.
  split; [vm_compute; reflexivity|].
  apply (register_twice_conflicts Ref.libs "salt" Examples.alice_body
           Examples.alice_value "pepper" Examples.alice_body
           Examples.alice_value Ref.w0);
    [reflexivity | vm_compute; reflexivity | simpl; lia
    | reflexivity | reflexivity].
Defined.

Lemma login_token_identifies_user_witness :
  jwt_contract Ref.libs /\ store_wf (db Ref.w0)
  /\ bcrypt_compare Ref.libs "example_hash" "$2b$10$example_hash" = true
  /\ exists token,
       fst (login Ref.libs Ref.cfg0
              (mk_login "john.doe@example.com" "example_hash") Ref.w0)
         = {| status := 200;
              body := BLogin token
                        {| p_id := 1; p_email := "john.doe@example.com";
                           p_first_name := Some "John";
                           p_last_name := Some "Doe" |} |}
       /\ jwt_verify Ref.libs token (jwt_secret Ref.cfg0) (Ref.t0 + 1000)
          = Some (IdentityClaims 1 "john.doe@example.com")
       /\ payload_id (IdentityClaims 1 "john.doe@example.com") = Some 1.
Proof.
  split; [exact ref_jwt_contract|]. split; [exact (init_store_wf Ref.t0)|].
  split; [vm_compute; reflexivity|].
  apply (login_token_identifies_user Ref.libs Ref.cfg0
           "john.doe@example.com" "example_hash"
           (Ref.john_row Ref.t0)
           Ref.w0 (Ref.t0 + 1000) ref_jwt_contract (init_store_wf Ref.t0));
    [discriminate | discriminate | left; reflexivity | reflexivity
    | vm_compute; reflexivity | vm_compute; reflexivity].
Defined.

Lemma register_then_login_witness :
  bcrypt_contract Ref.libs /\ store_wf (db Ref.w0)
  /\ status (fst (register Ref.libs "salt" Examples.alice_body Ref.w0)) = 201
  /\ exists token user,
       body (fst (register Ref.libs "salt" Examples.alice_body Ref.w0))
         = BRegistered "User registered successfully" (Some user)
       /\ fst (login Ref.libs Ref.cfg0
                 (mk_login "alice@example.com" "secret1")
                 (snd (register Ref.libs "salt" Examples.alice_body Ref.w0)))
          = {| status := 200; body := BLogin token user |}.
Proof.
  split; [exact ref_bcrypt_contract|]. split; [exact (init_store_wf Ref.t0)|].
  split; [vm_compute; reflexivity|].
  apply (register_then_login Ref.libs Ref.cfg0 "salt" Examples.alice_body
           Examples.alice_value Ref.w0 ref_bcrypt_contract
           (init_store_wf Ref.t0) eq_refl);
    [simpl; lia | vm_compute; reflexivity].
Defined.

Lemma unauthenticated_requests_touch_nothing_witness :
  jwt_verify Ref.libs "garbage" (jwt_secret Ref.cfg0)
             (clock (tick Examples.w_live)) = None
  /\ status (fst (route_token Ref.libs Ref.cfg0 (Some "Bearer garbage")
                    Examples.w_live)) = 403
  /\ db (snd (route_message Ref.libs Ref.cfg0 Examples.py_up
                (Some "Bearer garbage")
                (mk_message "hello" "session-of-john") Examples.w_live))
     = db Examples.w_live
  /\ trace (snd (route_message Ref.libs Ref.cfg0 Examples.py_up
                   (Some "Bearer garbage")
                   (mk_message "hello" "session-of-john") Examples.w_live))
     = trace Examples.w_live.
Proof.
  split; [vm_compute; reflexivity|].
  destruct (unauthenticated_requests_touch_nothing Ref.libs Ref.cfg0
              Examples.py_up (Some "Bearer garbage")
              (mk_message "hello" "session-of-john") Examples.w_live)
    as (_ & _ & _ & _ & Hdb & Htrace).
  { intros token Hb _. vm_compute in Hb. inversion Hb; subst token.
    vm_compute. reflexivity. }
  split; [vm_compute; reflexivity|]. split; [exact Hdb | exact Htrace].
Defined.

Lemma gate_ignores_scheme_witness :
  has_space "Basic" = false
  /\ authenticateToken Ref.libs Ref.cfg0 (Some ("Basic" ++ " " ++ "abc")) Ref.w0
     = authenticateToken Ref.libs Ref.cfg0 (Some ("Bearer " ++ "abc")) Ref.w0.
Proof.
  split; [reflexivity|].
  apply (gate_ignores_scheme Ref.libs Ref.cfg0 "Basic" "abc" Ref.w0).
  reflexivity.
Defined.

Lemma john_token_new :
  never_existed (issued_session_token Ref.libs Ref.cfg0 Examples.john Ref.w0)
                (db Ref.w0).
Proof. intros s []. Qed.

Lemma issued_session_valid_until_expiry_witness :
  status (fst (issueToken Ref.libs Ref.cfg0 Examples.john Ref.w0)) = 200
  /\ issued_expiry Ref.w0 <= clock (tick john_issued_late)
  /\ (fst (sendMessage Ref.libs Ref.cfg0 Examples.py_up Examples.john
             (mk_message "hello"
                (issued_session_token Ref.libs Ref.cfg0 Examples.john Ref.w0))
             john_issued_late)
      = invalid_session_response
      <-> issued_expiry Ref.w0 <= clock (tick john_issued_late)).
Proof.
  split; [vm_compute; reflexivity|].
  split; [vm_compute; discriminate|].
  apply (issued_session_valid_until_expiry Ref.libs Ref.cfg0 Examples.py_up
           Examples.john Ref.w0 Examples.john "hello"
           john_issued_late);
    [vm_compute; reflexivity | exact john_token_new
    | apply Nat.leb_le; vm_compute; reflexivity
    | vm_compute; discriminate | discriminate | reflexivity].
Defined.

Lemma chat_token_opens_token_route_witness :
  jwt_contract Ref.libs
  /\ has_space (issued_chat_token Ref.libs Ref.cfg0 Examples.john Ref.w0)
     = false
  /\ clock (tick Examples.w_live) / 1000 < clock Ref.w0 / 1000 + 900
  /\ route_token Ref.libs Ref.cfg0
       (Some ("Bearer " ++
              issued_chat_token Ref.libs Ref.cfg0 Examples.john Ref.w0))
       Examples.w_live
     = issueToken Ref.libs Ref.cfg0 (ChatClaims (Some 1)) (tick Examples.w_live)
  /\ exists token expires,
       trace (snd (route_token Ref.libs Ref.cfg0
                     (Some ("Bearer " ++
                            issued_chat_token Ref.libs Ref.cfg0
                              Examples.john Ref.w0))
                     Examples.w_live))
       = (trace Examples.w_live ++
          [EvQuery (UpsertSession None token [] expires)])%list.
Proof.
  split; [exact ref_jwt_contract|]. split; [vm_compute; reflexivity|].
  split; [vm_compute; reflexivity|].
  apply (chat_token_opens_token_route Ref.libs Ref.cfg0 1
           "john.doe@example.com" Ref.w0 Examples.w_live ref_jwt_contract);
    [vm_compute; discriminate | vm_compute; reflexivity
    | vm_compute; reflexivity].
Defined.

Lemma message_errors_leave_store_witness :
  status (fst (sendMessage Ref.libs Ref.cfg0 Examples.py_up Examples.john
                 (mk_message "hello" "session-of-john") Examples.w_late))
  <> 200
  /\ db (snd (sendMessage Ref.libs Ref.cfg0 Examples.py_up Examples.john
                (mk_message "hello" "session-of-john") Examples.w_late))
     = db Examples.w_late.
Proof.
  assert (H : status (fst (sendMessage Ref.libs Ref.cfg0 Examples.py_up
                             Examples.john
                             (mk_message "hello" "session-of-john")
                             Examples.w_late)) <> 200)
    by (vm_compute; discriminate).
  split; [exact H|].
  apply (message_errors_leave_store Ref.libs Ref.cfg0 Examples.py_up
           Examples.john (mk_message "hello" "session-of-john")
           Examples.w_late H).
Defined.

Lemma no_details_outside_development_witness :
  development Ref.cfg0 = false
  /\ ~ carries_details
         (wr_json (fst (app Ref.libs Ref.cfg0 Examples.py_down
                          (PostMessage Scenario.bearer_john
                             (mk_message "hello" "session-of-john"))
                          Examples.w_live))).
Proof.
  split; [reflexivity|].
  apply (no_details_outside_development Ref.libs Ref.cfg0 Examples.py_down
           (PostMessage Scenario.bearer_john
              (mk_message "hello" "session-of-john"))
           Examples.w_live eq_refl).
Defined.

(** ** Requests that interleave *)

Section Interleaving.

Variable X : externals.
Variable cfg : config.
Variable py : chat_request -> collab_outcome.

(** The two halves put back together are the handler. *)
Lemma sendMessage_halves user b w :
  sendMessage X cfg py user b w =
  try_catch (p <- sendMessage_request X user b ;;
             sendMessage_resume X cfg py user p)
            (message_catch cfg) w.
Proof.
  unfold sendMessage, sendMessage_body, sendMessage_request,
    sendMessage_resume, message_catch, try_catch.
  destruct (negb (truthy (mb_message b)) || negb (truthy (mb_sessionToken b)));
    [reflexivity|].
  run_monad. unfold query_valid_session, text_param.
  destruct (as_text _); [|reflexivity].
  destruct (select_valid_session _ _ _) as [|session rest]; [reflexivity|].
  simpl. destruct (py _) as [[d|]|msg rd]; reflexivity.
Qed.

Lemma register_halves salt b w :
  register X salt b w =
  try_catch (v <- register_check X b ;; register_insert X salt v)
            internal_server_error w.
Proof.
  unfold register, register_body_run, register_check, register_insert,
    try_catch.
  destruct (userSchema_validate X b) as [e|v]; [reflexivity|].
  run_monad. unfold query_user_id_by_email, text_param.
  destruct (as_text _); [|reflexivity].
  destruct (select_user_id_by_email _ _) as [|i ids]; simpl.
  - destruct (insert_user _ _ _ _ _ _) as [e|[rows st']]; reflexivity.
  - reflexivity.
Qed.





Lemma register_check_unfold b v w :
  userSchema_validate X b = inr v ->
  let w1 := with_trace (tick w)
              (trace w ++ [EvQuery (SelectUserIdByEmail (rv_email v))]) in
  register_check X b w =
  match as_text (rv_email v) with
  | None => (Throw (pg_error X InvalidByteSequence), w1)
  | Some _ =>
    match select_user_id_by_email (rv_email v) (db w) with
    | [] => (Next v, w1)
    | _ :: _ =>
      (Done {| status := 409; body := BError "User already exists" None |},
       w1)
    end
  end.
Proof.
  intros Ev. unfold register_check. rewrite Ev. run_monad.
  unfold query_user_id_by_email, text_param.
  destruct (as_text _); [|reflexivity].
  destruct (select_user_id_by_email _ _); reflexivity.
Qed.

Lemma register_insert_unfold salt v w :
  let hashed := bcrypt_hash X (rv_password v) salt in
  let w1 := with_trace (tick w)
              (trace w ++ [EvQuery (InsertUser (rv_email v) hashed
                                      (rv_first_name v) (rv_last_name v))]) in
  try_catch (register_insert X salt v) internal_server_error w =
  match insert_user (rv_email v) hashed (rv_first_name v) (rv_last_name v)
                    (clock (tick w)) (db w) with
  | inl e => ({| status := 500; body := BError "Internal server error" None |},
              w1)
  | inr (rows, st') =>
    ({| status := 201;
        body := BRegistered "User registered successfully" (nth_error rows 0) |},
     with_db w1 st')
  end.
Proof.
  unfold try_catch, register_insert. run_monad.
  destruct (insert_user _ _ _ _ _ _) as [e|[rows st']]; reflexivity.
Qed.

(** Whatever else its parameters are, the INSERT of an email that is
    registered and fits the column is refused. *)
Lemma insert_user_duplicate email hash first_name last_name now st :
  (String.length email <= 255)%nat ->
  registered email st ->
  exists e, insert_user email hash first_name last_name now st = inl e.
Proof.
  intros He (u & Hin & Hu). unfold insert_user.
  destruct (text_param hash) as [?|hash']; [eauto|].
  destruct (varchar_param 255 email) as [?|email'] eqn:Ee; [eauto|].
  destruct (varchar_param 100 first_name) as [?|first']; [eauto|].
  destruct (varchar_param 100 last_name) as [?|last']; [eauto|].
  apply varchar_param_inv in Ee. destruct Ee as [_ Ev].
  rewrite (varchar_fits _ _ He) in Ev. injection Ev as Ev.
  assert (E : existsb (fun u => String.eqb (u_email u) (chars email'))
                      (users st) = true).
  { apply existsb_exists. exists u. split; [assumption|].
    apply String.eqb_eq. congruence. }
  rewrite E. eauto.
Qed.

(** X26.  The handler's own duplicate check does not hold under
    interleaving; the UNIQUE constraint of the store does.  When a second
    registration of the same email is checked before the first one has
    inserted its row, both pass the check; the first, whose email, names
    and password hash fit the columns and hold no zero byte, is answered
    201, and the second is refused by the store and answered 500 (not 409),
    leaving the first one's row as the only new one. *)
Theorem interleaved_registrations saltA saltB bA bB vA vB w :
  userSchema_validate X bA = inr vA ->
  userSchema_validate X bB = inr vB ->
  rv_email vB = rv_email vA ->
  ~ registered (rv_email vA) (db w) ->
  (String.length (rv_email vA) <= 255)%nat ->
  (String.length (rv_first_name vA) <= 100)%nat ->
  (String.length (rv_last_name vA) <= 100)%nat ->
  has_nul (rv_email vA) = false ->
  has_nul (rv_first_name vA) = false ->
  has_nul (rv_last_name vA) = false ->
  has_nul (bcrypt_hash X (rv_password vA) saltA) = false ->
  exists wA wB,
    register_check X bA w = (Next vA, wA)
    /\ register_check X bB wA = (Next vB, wB)
    /\ let outA := try_catch (register_insert X saltA vA)
                             internal_server_error wB in
       let outB := try_catch (register_insert X saltB vB)
                             internal_server_error (snd outA) in
       status (fst outA) = 201
       /\ fst outB = {| status := 500;
                        body := BError "Internal server error" None |}
       /\ db (snd outB) = db (snd outA)
       /\ exists row, users (db (snd outB)) = (users (db w) ++ [row])%list
                      /\ u_email row = rv_email vA.
Proof.
  intros EvA EvB Hsame Hnew He HfA HlA Ze ZfA ZlA ZhA.
  pose proof (proj1 (select_user_id_nil _ _) Hnew) as Esel.
  destruct (as_text_some _ Ze) as (te & Et & _).
  eexists _, _.
  split; [rewrite (register_check_unfold bA vA) by assumption; cbv zeta;
          rewrite Et, Esel; reflexivity|].
  split; [rewrite (register_check_unfold bB vB) by assumption; cbv zeta;
          simpl; rewrite Hsame, Et, Esel; reflexivity|].
  intros outA outB.
  assert (EA : exists row wA',
             outA = ({| status := 201;
                        body := BRegistered "User registered successfully"
                                            (Some (user_public row)) |}, wA')
             /\ users (db wA') = (users (db w) ++ [row])%list
             /\ u_email row = rv_email vA).
  { subst outA. rewrite (register_insert_unfold saltA vA). cbv zeta.
    match goal with
    | |- context [insert_user ?e ?h ?f ?l ?n ?st] =>
      change (insert_user e h f l n st) with (insert_user e h f l n (db w));
      destruct (insert_user_ok e h f l n (db w) Ze ZhA ZfA ZlA He HfA HlA Hnew)
        as (row & -> & _ & Hrow & _)
    end.
    exists row. eexists. split; [reflexivity|]. split; [reflexivity|exact Hrow]. }
  destruct EA as (row & wA' & EA & Husers & Hrow).
  assert (Hreg : registered (rv_email vB) (db wA')).
  { exists row. rewrite Husers. split; [|congruence].
    apply in_app_iff. right. now left. }
  assert (EB : outB = ({| status := 500;
                          body := BError "Internal server error" None |},
                       with_trace (tick wA')
                         (trace wA' ++
                          [EvQuery (InsertUser (rv_email vB)
                                      (bcrypt_hash X (rv_password vB) saltB)
                                      (rv_first_name vB) (rv_last_name vB))]))).
  { subst outB. rewrite EA. simpl snd.
    rewrite (register_insert_unfold saltB vB). cbv zeta.
    destruct (insert_user_duplicate (rv_email vB)
                (bcrypt_hash X (rv_password vB) saltB)
                (rv_first_name vB) (rv_last_name vB)
                (clock (tick wA')) (db wA')) as (e & ->);
      [congruence | exact Hreg | reflexivity]. }
  rewrite EB, EA. simpl.
  split; [reflexivity|]. split; [reflexivity|]. split; [reflexivity|].
  exists row. split; assumption.
Qed.

End Interleaving.



Lemma alice_not_registered : ~ registered "alice@example.com" (db Ref.w0).
Proof. intros (u & Hin & Hu). each_row Hin; discriminate. Qed.

Lemma interleaved_registrations_witness :
  ~ registered "alice@example.com" (db Ref.w0)
  /\ exists wA wB,
       register_check Ref.libs Examples.alice_body Ref.w0
         = (Next Examples.alice_value, wA)
       /\ register_check Ref.libs Examples.alice_body wA
          = (Next Examples.alice_value, wB)
       /\ let outA := try_catch
                        (register_insert Ref.libs "salt" Examples.alice_value)
                        internal_server_error wB in
          let outB := try_catch
                        (register_insert Ref.libs "pepper" Examples.alice_value)
                        internal_server_error (snd outA) in
          status (fst outA) = 201
          /\ fst outB = {| status := 500;
                           body := BError "Internal server error" None |}
          /\ db (snd outB) = db (snd outA)
          /\ exists row,
               users (db (snd outB)) = (users (db Ref.w0) ++ [row])%list
               /\ u_email row = "alice@example.com".
Proof.
  split; [exact alice_not_registered|].
  apply (interleaved_registrations Ref.libs "salt" "pepper"
           Examples.alice_body Examples.alice_body
           Examples.alice_value Examples.alice_value Ref.w0
           eq_refl eq_refl eq_refl alice_not_registered);
    try reflexivity; simpl; lia.
Defined.
